(** * An onion-routing network: users, relays and a registry

    A shallow embedding of the TypeScript sources (crypto.ts, registry.ts,
    user.ts, simpleOnionRouter.ts) and the properties of the onion
    encoding: how /sendMessage wraps a message in three layers and how each
    relay's /message peels one.

    The first part holds the definitions: the platform functions the
    sources call (base64 of Buffer, TextEncoder and TextDecoder, parseInt,
    template literals), the async functions as state transformers, the
    Web Crypto API as an interface with its laws, and the handlers.  The
    second part holds the lemmas and the theorems. *)

From Stdlib Require Import String Ascii List NArith ZArith Lia Bool.
From Stdlib.Strings Require Byte.
Import ListNotations.

Local Open Scope N_scope.

(** * JavaScript values

    A JavaScript string is a sequence of UTF-16 code units; a [Buffer] or
    [ArrayBuffer] is a sequence of bytes.  Integers ([nodeId], ports) are
    modelled as [Z]; the only non-integer number the handlers can meet is the
    [NaN] that [parseInt] returns, modelled as [None]. *)

Definition byte := Byte.byte.
Definition code_unit := N.
Definition jsstring := list code_unit.

(** A string literal of the source, as code units. *)
Definition str (s : string) : jsstring :=
  map N_of_ascii (list_ascii_of_string s).

(** [s.slice(a, b)] and [s.slice(a)] for 0 <= a <= b; the same on a buffer. *)
Definition slice {A} (s : list A) (a b : nat) : list A := firstn (b - a) (skipn a s).
Definition slice_from {A} (s : list A) (a : nat) : list A := skipn a s.

Definition byte_of_N (n : N) : byte :=
  match Byte.of_N (n mod 256) with
  | Some b => b
  | None => Byte.x00
  end.

(** * Buffer and base64

    [Buffer.from(buffer).toString("base64")] is RFC 4648 base64 with padding.
    [Buffer.from(s, "base64")] is Node's forgiving decoder: it reads the
    low byte of every code unit, also takes the URL-safe alphabet, skips
    every character outside the alphabets, and stops at the first padding
    character. *)
Module Base64.

Definition alphabet : jsstring :=
  str "ABCDEFGHIJKLMNOPQRSTUVWXYZabcdefghijklmnopqrstuvwxyz0123456789+/".

Definition pad : code_unit := 61. (* = *)

Definition char (sextet : N) : code_unit := nth (N.to_nat sextet) alphabet pad.

Fixpoint encode (buf : list byte) : jsstring :=
  match buf with
  | [] => []
  | [a] =>
      let a := Byte.to_N a in
      [char (N.shiftr a 2); char (N.shiftl (N.land a 3) 4); pad; pad]
  | [a; b] =>
      let a := Byte.to_N a in
      let b := Byte.to_N b in
      [char (N.shiftr a 2);
       char (N.lor (N.shiftl (N.land a 3) 4) (N.shiftr b 4));
       char (N.shiftl (N.land b 15) 2); pad]
  | a :: b :: c :: rest =>
      let a := Byte.to_N a in
      let b := Byte.to_N b in
      let c := Byte.to_N c in
      char (N.shiftr a 2)
      :: char (N.lor (N.shiftl (N.land a 3) 4) (N.shiftr b 4))
      :: char (N.lor (N.shiftl (N.land b 15) 2) (N.shiftr c 6))
      :: char (N.land c 63)
      :: encode rest
  end.

(** The value of a character of either alphabet. *)
Definition unbase64 (c : code_unit) : option N :=
  if (65 <=? c) && (c <=? 90) then Some (c - 65)             (* A-Z *)
  else if (97 <=? c) && (c <=? 122) then Some (c - 71)       (* a-z *)
  else if (48 <=? c) && (c <=? 57) then Some (c + 4)         (* 0-9 *)
  else if (c =? 43) || (c =? 45) then Some 62                (* + and - *)
  else if (c =? 47) || (c =? 95) then Some 63                (* / and _ *)
  else None.

(** The sextets of the legal characters before the first padding character;
    of a code unit the decoder sees the low byte only. *)
Fixpoint sextets (s : jsstring) : list N :=
  match s with
  | [] => []
  | u :: rest =>
      let c := u mod 256 in
      match unbase64 c with
      | Some v => v :: sextets rest
      | None => if c =? pad then [] else sextets rest
      end
  end.

Fixpoint bytes_of_sextets (vs : list N) : list byte :=
  match vs with
  | a :: b :: c :: d :: rest =>
      byte_of_N (N.lor (N.shiftl a 2) (N.shiftr b 4))
      :: byte_of_N (N.lor (N.shiftl (N.land b 15) 4) (N.shiftr c 2))
      :: byte_of_N (N.lor (N.shiftl (N.land c 3) 6) d)
      :: bytes_of_sextets rest
  | [a; b; c] =>
      [byte_of_N (N.lor (N.shiftl a 2) (N.shiftr b 4));
       byte_of_N (N.lor (N.shiftl (N.land b 15) 4) (N.shiftr c 2))]
  | [a; b] => [byte_of_N (N.lor (N.shiftl a 2) (N.shiftr b 4))]
  | _ => []
  end.

Definition decode (s : jsstring) : list byte := bytes_of_sextets (sextets s).

End Base64.

(* crypto.ts: arrayBufferToBase64 *)
Definition arrayBufferToBase64 (buffer : list byte) : jsstring := Base64.encode buffer.

(* crypto.ts: base64ToArrayBuffer *)
Definition base64ToArrayBuffer (base64 : jsstring) : list byte := Base64.decode base64.

(** * TextEncoder and TextDecoder

    [new TextEncoder().encode(s)] turns the string into scalar values (a
    surrogate pair is one scalar value, a lone surrogate becomes U+FFFD) and
    writes each in UTF-8.  [new TextDecoder().decode(buf)] is the UTF-8
    decoder of the Encoding Standard with its defaults: errors are replaced
    by U+FFFD, and a leading byte order mark is dropped. *)
Module Utf8.

Definition is_high_surrogate (u : code_unit) : bool := (0xD800 <=? u) && (u <=? 0xDBFF).
Definition is_low_surrogate (u : code_unit) : bool := (0xDC00 <=? u) && (u <=? 0xDFFF).

Definition continuation (temp : N) : byte := byte_of_N (N.lor 0x80 (N.land temp 0x3F)).

Definition encode_scalar (cp : N) : list byte :=
  if cp <=? 0x7F then [byte_of_N cp]
  else if cp <=? 0x7FF then
    [byte_of_N (N.shiftr cp 6 + 0xC0); continuation cp]
  else if cp <=? 0xFFFF then
    [byte_of_N (N.shiftr cp 12 + 0xE0); continuation (N.shiftr cp 6); continuation cp]
  else
    [byte_of_N (N.shiftr cp 18 + 0xF0); continuation (N.shiftr cp 12);
     continuation (N.shiftr cp 6); continuation cp].

Definition replacement : N := 0xFFFD.

Fixpoint encode (s : jsstring) : list byte :=
  match s with
  | [] => []
  | u :: rest =>
      if is_high_surrogate u then
        match rest with
        | v :: rest' =>
            if is_low_surrogate v
            then encode_scalar (0x10000 + N.shiftl (u - 0xD800) 10 + (v - 0xDC00)) ++ encode rest'
            else encode_scalar replacement ++ encode rest
        | [] => encode_scalar replacement
        end
      else if is_low_surrogate u then encode_scalar replacement ++ encode rest
      else encode_scalar u ++ encode rest
  end.

Record state := {
  code_point : N;
  bytes_needed : nat;
  bytes_seen : nat;
  lower_boundary : N;
  upper_boundary : N
}.

Definition initial : state :=
  {| code_point := 0; bytes_needed := 0; bytes_seen := 0;
     lower_boundary := 0x80; upper_boundary := 0xBF |}.

(** A byte read while no sequence is pending. *)
Definition lead (x : N) : list N * state :=
  if x <=? 0x7F then ([x], initial)
  else if (0xC2 <=? x) && (x <=? 0xDF) then
    ([], {| code_point := N.land x 0x1F; bytes_needed := 1; bytes_seen := 0;
            lower_boundary := 0x80; upper_boundary := 0xBF |})
  else if (0xE0 <=? x) && (x <=? 0xEF) then
    ([], {| code_point := N.land x 0xF; bytes_needed := 2; bytes_seen := 0;
            lower_boundary := if x =? 0xE0 then 0xA0 else 0x80;
            upper_boundary := if x =? 0xED then 0x9F else 0xBF |})
  else if (0xF0 <=? x) && (x <=? 0xF4) then
    ([], {| code_point := N.land x 0x7; bytes_needed := 3; bytes_seen := 0;
            lower_boundary := if x =? 0xF0 then 0x90 else 0x80;
            upper_boundary := if x =? 0xF4 then 0x8F else 0xBF |})
  else ([replacement], initial).

(** One byte of input: the scalar values it completes, and the next state.
    A byte that cannot continue the pending sequence ends it with an error
    and is read again as a lead byte. *)
Definition step (st : state) (b : byte) : list N * state :=
  let x := Byte.to_N b in
  if Nat.eqb (bytes_needed st) 0 then lead x
  else if (lower_boundary st <=? x) && (x <=? upper_boundary st) then
    let cp := N.lor (N.shiftl (code_point st) 6) (N.land x 0x3F) in
    if Nat.eqb (S (bytes_seen st)) (bytes_needed st) then ([cp], initial)
    else ([], {| code_point := cp; bytes_needed := bytes_needed st;
                 bytes_seen := S (bytes_seen st);
                 lower_boundary := 0x80; upper_boundary := 0xBF |})
  else let (out, st') := lead x in (replacement :: out, st').

Fixpoint run (st : state) (buf : list byte) : list N :=
  match buf with
  | [] => if Nat.eqb (bytes_needed st) 0 then [] else [replacement]
  | b :: rest => let (out, st') := step st b in out ++ run st' rest
  end.

(** A scalar value as UTF-16 code units. *)
Definition utf16 (cp : N) : jsstring :=
  if cp <? 0x10000 then [cp]
  else [N.shiftr (cp - 0x10000) 10 + 0xD800; N.land (cp - 0x10000) 0x3FF + 0xDC00].

Definition strip_bom (buf : list byte) : list byte :=
  match buf with
  | a :: b :: c :: rest =>
      if (Byte.to_N a =? 0xEF) && (Byte.to_N b =? 0xBB) && (Byte.to_N c =? 0xBF)
      then rest else buf
  | _ => buf
  end.

Definition decode (buf : list byte) : jsstring :=
  flat_map utf16 (run initial (strip_bom buf)).

(** [s.isWellFormed()]: every code unit is a 16-bit value and no surrogate
    is unpaired. *)
Fixpoint well_formed (s : jsstring) : bool :=
  match s with
  | [] => true
  | u :: rest =>
      if is_high_surrogate u then
        match rest with
        | v :: rest' => is_low_surrogate v && well_formed rest'
        | [] => false
        end
      else (u <? 0x10000) && negb (is_low_surrogate u) && well_formed rest
  end.

End Utf8.

Definition TextEncoder_encode (s : jsstring) : list byte := Utf8.encode s.
Definition TextDecoder_decode (buf : list byte) : jsstring := Utf8.decode buf.

(** * Numbers in template literals, and parseInt *)

(** The decimal digits of [n], most significant first. *)
Fixpoint digits_of (fuel : nat) (n : N) : jsstring :=
  match fuel with
  | O => []
  | S fuel' =>
      if n <? 10 then [48 + n]
      else digits_of fuel' (n / 10) ++ [48 + n mod 10]
  end.

Definition N_to_string (n : N) : jsstring := digits_of (S (N.to_nat (N.log2 n))) n.

(** [`${z}`] for an integer [z]: every digit, as the template literal
    prints a number that is a safe integer (up to 2^53 in absolute value;
    the ports are far below). *)
Definition number_to_string (z : Z) : jsstring :=
  if (z <? 0)%Z then 45 :: N_to_string (Z.to_N (- z)) else N_to_string (Z.to_N z).

(** WhiteSpace and LineTerminator of ECMAScript, as [parseInt] skips them. *)
Definition is_white_space (c : code_unit) : bool :=
  ((9 <=? c) && (c <=? 13)) || (c =? 32) || (c =? 0xA0) || (c =? 0x1680)
  || ((0x2000 <=? c) && (c <=? 0x200A)) || (c =? 0x2028) || (c =? 0x2029)
  || (c =? 0x202F) || (c =? 0x205F) || (c =? 0x3000) || (c =? 0xFEFF).

Fixpoint trim_start (s : jsstring) : jsstring :=
  match s with
  | c :: rest => if is_white_space c then trim_start rest else s
  | [] => []
  end.

Definition is_digit (c : code_unit) : bool := (48 <=? c) && (c <=? 57).

(** The value of the longest prefix of decimal digits, after [acc]. *)
Fixpoint digits_value (acc : N) (s : jsstring) : N :=
  match s with
  | c :: rest => if is_digit c then digits_value (acc * 10 + (c - 48)) rest else acc
  | [] => acc
  end.

(** [parseInt(s, 10)]; [None] is [NaN].  The value is exact for the inputs
    the router gives it, which are at most ten characters long. *)
Definition parseInt (s : jsstring) : option Z :=
  let s := trim_start s in
  let '(negative, s) :=
    match s with
    | 45 :: r => (true, r)
    | 43 :: r => (false, r)
    | _ => (false, s)
    end in
  match s with
  | c :: _ =>
      if is_digit c then
        let v := Z.of_N (digits_value 0 s) in
        Some (if negative then (- v)%Z else v)
      else None
  | [] => None
  end.

Close Scope N_scope.

(** * Async functions: errors, state and fetch

    An async function settles with a value or rejects with an error; a
    handler whose loop has not finished within the steps allotted to it is
    still [Pending].  Handlers read random sources, send requests and
    assign the variables of their closure or module, so they are state
    transformers over a [World].  A request to a port that is a number is
    taken as sent and answered: [fetch] resolves, and the request is in the
    outbox (the addresses of the relays and of the users are taken to be
    ports, between 0 and 65535).  For a port that is NaN there is no URL:
    [fetch] rejects with a TypeError and nothing is sent. *)

Inductive JsError : Type :=
| TypeError                    (* a property read on undefined; fetch of no URL *)
| DataError                    (* importKey refuses the key material *)
| OperationError               (* encrypt or decrypt fails *)
| KeyExportFailed              (* Error("Failed to export private key") *)
| NodeNotFound (nodeId : Z).   (* Error(`Node ${nodeId} not found in the registry`) *)

Inductive result (A : Type) : Type :=
| Ok (a : A)
| Throw (e : JsError)
| Pending.
Arguments Ok {A} a.
Arguments Throw {A} e.
Arguments Pending {A}.

Inductive Request : Type :=
| PostMessage (port : option Z) (message : jsstring)
    (* POST http://localhost:${port}/message { message } *)
| PostRegisterNode (nodeId : Z) (pubKey : jsstring).
    (* POST http://localhost:${REGISTRY_PORT}/registerNode { nodeId, pubKey } *)

Record World (V : Type) : Type := {
  entropy : nat;            (* how many random draws were made *)
  outbox : list Request;    (* the requests sent with fetch, oldest first *)
  vars : V                  (* the variables the handlers assign *)
}.
Arguments entropy {V} w.
Arguments outbox {V} w.
Arguments vars {V} w.
Arguments Build_World {V} entropy outbox vars.

Definition M (V A : Type) : Type := World V -> result A * World V.

Definition ret {V A} (a : A) : M V A := fun w => (Ok a, w).
Definition throw {V A} (e : JsError) : M V A := fun w => (Throw e, w).
Definition pending {V A} : M V A := fun w => (Pending, w).

Definition bind {V A B} (m : M V A) (k : A -> M V B) : M V B :=
  fun w =>
    match m w with
    | (Ok a, w') => k a w'
    | (Throw e, w') => (Throw e, w')
    | (Pending, w') => (Pending, w')
    end.

Declare Scope async_scope.
Delimit Scope async_scope with async.
Notation "x <- m ;; k" := (bind m (fun x => k))
  (at level 61, m at next level, right associativity) : async_scope.
Notation "m ;; k" := (bind m (fun _ => k))
  (at level 61, right associativity) : async_scope.
Open Scope async_scope.

(** [await] of a function that uses no state. *)
Definition await {V A} (r : result A) : M V A := fun w => (r, w).

(** [try { body } catch (error) { handler }] *)
Definition try_catch {V A} (body : M V A) (handler : JsError -> M V A) : M V A :=
  fun w =>
    match body w with
    | (Throw e, w') => handler e w'
    | settled => settled
    end.

(** The index of the next random draw. *)
Definition draw {V} : M V nat :=
  fun w => (Ok (entropy w), Build_World (S (entropy w)) (outbox w) (vars w)).

Definition fetch {V} (r : Request) : M V unit :=
  fun w =>
    match r with
    | PostMessage None _ => (Throw TypeError, w)
    | _ => (Ok tt, Build_World (entropy w) (outbox w ++ [r]) (vars w))
    end.

Definition assign {V} (f : V -> V) : M V unit :=
  fun w => (Ok tt, Build_World (entropy w) (outbox w) (f (vars w))).

(** Results without state. *)
Definition rbind {A B} (r : result A) (k : A -> result B) : result B :=
  match r with
  | Ok a => k a
  | Throw e => Throw e
  | Pending => Pending
  end.

(** * config.ts

    The file is not among the sources; its three constants are parameters
    of the development. *)
Class Config : Type := {
  BASE_USER_PORT : Z;
  BASE_ONION_ROUTER_PORT : Z;
  REGISTRY_PORT : Z
}.

(** * The Web Crypto API

    [webcrypto.subtle] and [webcrypto.getRandomValues], as the functions of
    crypto.ts use them.  Keys are abstract; a random draw is named by its
    index in the world. *)
Class WebCrypto : Type := {
  PubKey : Type;
  PrvKey : Type;
  (* generateKey({name: "RSA-OAEP", modulusLength: 2048, ...}) *)
  rsa_generate : nat -> PubKey * PrvKey;
  (* exportKey / importKey in "spki" and "pkcs8" format *)
  spki_export : PubKey -> list byte;
  spki_import : list byte -> option PubKey;
  pkcs8_export : PrvKey -> list byte;
  pkcs8_import : list byte -> option PrvKey;
  (* the length of the modulus of a public key, in bytes *)
  modulus_bytes : PubKey -> nat;
  (* the private key of a public key *)
  rsa_pair : PubKey -> PrvKey -> Prop;
  (* encrypt / decrypt with {name: "RSA-OAEP"}; the nat is the draw of the padding seed *)
  rsa_oaep_encrypt : PubKey -> nat -> list byte -> option (list byte);
  rsa_oaep_decrypt : PrvKey -> list byte -> option (list byte);
  (* encrypt / decrypt with {name: "AES-CBC", iv}: key, iv, data *)
  aes_cbc_encrypt : list byte -> list byte -> list byte -> list byte;
  aes_cbc_decrypt : list byte -> list byte -> list byte -> option (list byte);
  (* getRandomValues(new Uint8Array(n)), and the bytes of a generated key *)
  random_bytes : nat -> nat -> list byte
}.

(** importKey("raw", ..., {name: "AES-CBC"}) takes 128, 192 and 256 bit keys. *)
Definition aes_key_ok (raw : list byte) : bool :=
  let n := length raw in
  Nat.eqb n 16 || Nat.eqb n 24 || Nat.eqb n 32.

(** What the functions below rely on. *)
Class WebCryptoLaws (wc : WebCrypto) : Prop := {
  spki_import_export : forall pk, spki_import (spki_export pk) = Some pk;
  pkcs8_import_export : forall sk, pkcs8_import (pkcs8_export sk) = Some sk;
  rsa_generate_pair : forall seed,
    rsa_pair (fst (rsa_generate seed)) (snd (rsa_generate seed))
    /\ modulus_bytes (fst (rsa_generate seed)) = 256%nat;
  (* an RSA ciphertext is as long as the modulus *)
  rsa_oaep_encrypt_length : forall pk seed data c,
    rsa_oaep_encrypt pk seed data = Some c -> length c = modulus_bytes pk;
  (* OAEP with SHA-256 takes messages of up to k - 2*32 - 2 bytes *)
  rsa_oaep_encrypt_fits : forall pk seed data,
    (length data + 66 <= modulus_bytes pk)%nat ->
    exists c, rsa_oaep_encrypt pk seed data = Some c;
  rsa_oaep_decrypt_encrypt : forall pk sk seed data c,
    rsa_pair pk sk ->
    rsa_oaep_encrypt pk seed data = Some c ->
    rsa_oaep_decrypt sk c = Some data;
  aes_cbc_decrypt_encrypt : forall key iv data,
    aes_key_ok key = true -> length iv = 16%nat ->
    aes_cbc_decrypt key iv (aes_cbc_encrypt key iv data) = Some data;
  random_bytes_length : forall i n, length (random_bytes i n) = n
}.

(** [Math.floor(Math.random() * n)] at a draw: below [n], and 0 when [n] is 0. *)
Class MathRandom : Type := {
  random_floor : nat -> nat -> nat
}.

Class MathRandomLaws (mr : MathRandom) : Prop := {
  random_floor_lt : forall i n, (0 < n)%nat -> (random_floor i n < n)%nat;
  random_floor_0 : forall i, random_floor i 0 = 0%nat
}.

(** * crypto.ts *)
Section Crypto.
Context {wc : WebCrypto}.

Definition generateRsaKeyPair {V} : M V (PubKey * PrvKey) :=
  seed <- draw ;;
  ret (rsa_generate seed).

Definition exportPubKey (key : PubKey) : jsstring :=
  arrayBufferToBase64 (spki_export key).

Definition exportPrvKey (key : option PrvKey) : option jsstring :=
  match key with
  | None => None
  | Some key => Some (arrayBufferToBase64 (pkcs8_export key))
  end.

Definition importPubKey (strKey : jsstring) : result PubKey :=
  let buffer := base64ToArrayBuffer strKey in
  match spki_import buffer with
  | Some key => Ok key
  | None => Throw DataError
  end.

Definition importPrvKey (strKey : jsstring) : result PrvKey :=
  let buffer := base64ToArrayBuffer strKey in
  match pkcs8_import buffer with
  | Some key => Ok key
  | None => Throw DataError
  end.

Definition rsaEncrypt {V} (b64Data strPublicKey : jsstring) : M V jsstring :=
  publicKey <- await (importPubKey strPublicKey) ;;
  let buffer := base64ToArrayBuffer b64Data in
  seed <- draw ;;
  match rsa_oaep_encrypt publicKey seed buffer with
  | Some encrypted => ret (arrayBufferToBase64 encrypted)
  | None => throw OperationError
  end.

Definition rsaDecrypt (data : jsstring) (privateKey : PrvKey) : result jsstring :=
  let buffer := base64ToArrayBuffer data in
  match rsa_oaep_decrypt privateKey buffer with
  | Some decrypted => Ok (arrayBufferToBase64 decrypted)
  | None => Throw OperationError
  end.

(** An AES [CryptoKey] is its raw bytes. *)
Definition createRandomSymmetricKey {V} : M V (list byte) :=
  i <- draw ;;
  ret (random_bytes i 32).

Definition exportSymKey (key : list byte) : jsstring := arrayBufferToBase64 key.

Definition importSymKey (strKey : jsstring) : result (list byte) :=
  let buffer := base64ToArrayBuffer strKey in
  if aes_key_ok buffer then Ok buffer else Throw DataError.

Definition symEncrypt {V} (key : list byte) (data : jsstring) : M V jsstring :=
  let encodedData := TextEncoder_encode data in
  i <- draw ;;
  let iv := random_bytes i 16 in
  let encrypted := aes_cbc_encrypt key iv encodedData in
  let combined := iv ++ encrypted in
  ret (arrayBufferToBase64 combined).

Definition symDecrypt (strKey encryptedData : jsstring) : result jsstring :=
  rbind (importSymKey strKey) (fun key =>
  let combined := base64ToArrayBuffer encryptedData in
  let iv := slice combined 0 16 in
  let data := slice_from combined 16 in
  match aes_cbc_decrypt key iv data with
  | Some decrypted => Ok (TextDecoder_decode decrypted)
  | None => Throw OperationError
  end).

(** [a === b] on strings. *)
Fixpoint jsstring_eqb (a b : jsstring) : bool :=
  match a, b with
  | [], [] => true
  | x :: a', y :: b' => N.eqb x y && jsstring_eqb a' b'
  | _, _ => false
  end.

Definition validateEncryption {V}
    (encryptedMessage decryptedMessage privateKey : jsstring) : M V bool :=
  try_catch
    (key <- await (importPrvKey privateKey) ;;
     decrypted <- await (rsaDecrypt encryptedMessage key) ;;
     ret (jsstring_eqb decrypted decryptedMessage))
    (fun error => ret false).

End Crypto.

(** * registry.ts *)

Record Node : Type := { nodeId : Z; pubKey : jsstring }.

Module Registry.

(** [let nodes: Node[] = []] of launchRegistry. *)
Definition State : Type := list Node.
Definition launch : State := [].

(** POST /registerNode *)
Definition registerNode (body : Node) (nodes : State) : State :=
  nodes ++ [ {| nodeId := nodeId body; pubKey := pubKey body |} ].

(** GET /getNodeRegistry *)
Definition getNodeRegistry (nodes : State) : list Node := nodes.

End Registry.

(** * user.ts *)

Record UserVars : Type := {
  lastReceivedMessage : option jsstring;
  lastSentMessage : option jsstring;
  lastCircuit : option (list Z)
}.

Definition set_lastReceivedMessage (m : jsstring) (v : UserVars) : UserVars :=
  {| lastReceivedMessage := Some m;
     lastSentMessage := lastSentMessage v;
     lastCircuit := lastCircuit v |}.
Definition set_lastSentMessage (m : jsstring) (v : UserVars) : UserVars :=
  {| lastReceivedMessage := lastReceivedMessage v;
     lastSentMessage := Some m;
     lastCircuit := lastCircuit v |}.
Definition set_lastCircuit (c : list Z) (v : UserVars) : UserVars :=
  {| lastReceivedMessage := lastReceivedMessage v;
     lastSentMessage := lastSentMessage v;
     lastCircuit := Some c |}.

(** [circuit.includes(id)] *)
Definition includes (circuit : list Z) (id : Z) : bool := existsb (Z.eqb id) circuit.

(** [nodes.find((n) => n.nodeId === id)] *)
Definition find_node (nodes : list Node) (id : Z) : option Node :=
  find (fun n => Z.eqb (nodeId n) id) nodes.

Section User.
Context {cfg : Config} {wc : WebCrypto} {mr : MathRandom}.

(** POST /message *)
Definition user_message (message : jsstring) : M UserVars unit :=
  assign (set_lastReceivedMessage message).

(** The loop of /sendMessage that draws the circuit,
    [while (circuit.length < 3) { ... }]; one unit of [fuel] per turn. *)
Fixpoint buildCircuit (fuel : nat) (nodes : list Node) (circuit : list Z)
    : M UserVars (list Z) :=
  if Nat.ltb (length circuit) 3 then
    match fuel with
    | O => pending
    | S fuel' =>
        i <- draw ;;
        match nth_error nodes (random_floor i (length nodes)) with
        | None => throw TypeError
        | Some randomNode =>
            if negb (includes circuit (nodeId randomNode))
            then buildCircuit fuel' nodes (circuit ++ [nodeId randomNode])
            else buildCircuit fuel' nodes circuit
        end
    end
  else ret circuit.

(** The destination field of layer [i]. *)
Definition destinationField (circuit : list Z) (destinationUserId : Z) (i : nat) : jsstring :=
  if Nat.eqb i (length circuit - 1)
  then str "000000" ++ number_to_string (BASE_USER_PORT + destinationUserId)
  else str "000000" ++ number_to_string (BASE_ONION_ROUTER_PORT + nth (i + 1) circuit 0%Z).

(** One turn of the loop [for (let i = circuit.length - 1; i >= 0; i--)];
    [circuit[i]] and, before the last hop, [circuit[i + 1]] are read within
    the bounds of the array. *)
Definition wrapLayer (nodes : list Node) (circuit : list Z) (destinationUserId : Z)
    (i : nat) (encryptedMessage : jsstring) : M UserVars jsstring :=
  let nodeId := nth i circuit 0%Z in
  match find_node nodes nodeId with
  | None => throw (NodeNotFound nodeId)
  | Some node =>
      symmetricKey <- createRandomSymmetricKey ;;
      let symmetricKeyBase64 := exportSymKey symmetricKey in
      let destination := destinationField circuit destinationUserId i in
      let messageToEncrypt := destination ++ encryptedMessage in
      encryptedMessage <- symEncrypt symmetricKey messageToEncrypt ;;
      encryptedSymmetricKey <- rsaEncrypt symmetricKeyBase64 (pubKey node) ;;
      ret (encryptedSymmetricKey ++ encryptedMessage)
  end.

(** The turns [i = k - 1] down to [i = 0]. *)
Fixpoint wrap (nodes : list Node) (circuit : list Z) (destinationUserId : Z)
    (k : nat) (encryptedMessage : jsstring) : M UserVars jsstring :=
  match k with
  | O => ret encryptedMessage
  | S i =>
      encryptedMessage <- wrapLayer nodes circuit destinationUserId i encryptedMessage ;;
      wrap nodes circuit destinationUserId i encryptedMessage
  end.

(** /sendMessage once the circuit is drawn. *)
Definition sendThrough (nodes : list Node) (circuit : list Z)
    (message : jsstring) (destinationUserId : Z) : M UserVars unit :=
  assign (set_lastCircuit circuit) ;;
  encryptedMessage <- wrap nodes circuit destinationUserId (length circuit) message ;;
  let entryNodeId := nth 0 circuit 0%Z in
  fetch (PostMessage (Some (BASE_ONION_ROUTER_PORT + entryNodeId)%Z) encryptedMessage) ;;
  assign (set_lastSentMessage message) ;;
  ret tt.

(** POST /sendMessage, with the answer of the registry's /getNodeRegistry. *)
Definition sendMessage (fuel : nat) (nodes : list Node)
    (message : jsstring) (destinationUserId : Z) : M UserVars unit :=
  circuit <- buildCircuit fuel nodes [] ;;
  sendThrough nodes circuit message destinationUserId.

End User.

(** * simpleOnionRouter.ts *)

Record RouterVars : Type := {
  lastReceivedEncryptedMessage : option jsstring;
  lastReceivedDecryptedMessage : option jsstring;
  lastMessageDestination : option (option Z)   (* null, or a number that may be NaN *)
}.

Definition set_lastReceivedEncryptedMessage (m : jsstring) (v : RouterVars) : RouterVars :=
  {| lastReceivedEncryptedMessage := Some m;
     lastReceivedDecryptedMessage := lastReceivedDecryptedMessage v;
     lastMessageDestination := lastMessageDestination v |}.
Definition set_lastReceivedDecryptedMessage (m : jsstring) (v : RouterVars) : RouterVars :=
  {| lastReceivedEncryptedMessage := lastReceivedEncryptedMessage v;
     lastReceivedDecryptedMessage := Some m;
     lastMessageDestination := lastMessageDestination v |}.
Definition set_lastMessageDestination (d : option Z) (v : RouterVars) : RouterVars :=
  {| lastReceivedEncryptedMessage := lastReceivedEncryptedMessage v;
     lastReceivedDecryptedMessage := lastReceivedDecryptedMessage v;
     lastMessageDestination := Some d |}.

(** [x >= y] where [x] may be NaN. *)
Definition number_ge (x : option Z) (y : Z) : bool :=
  match x with
  | Some x => Z.leb y x
  | None => false
  end.

Section Router.
Context {cfg : Config} {wc : WebCrypto}.

(** The start of a router: its key pair, and its registration. *)
Definition simpleOnionRouter (nodeId : Z) : M RouterVars jsstring :=
  keys <- generateRsaKeyPair ;;
  let pubKeyBase64 := exportPubKey (fst keys) in
  match exportPrvKey (Some (snd keys)) with
  | None | Some [] => throw KeyExportFailed
  | Some prvKeyBase64 =>
      fetch (PostRegisterNode nodeId pubKeyBase64) ;;
      ret prvKeyBase64
  end.

(** POST /message *)
Definition router_message (prvKeyBase64 : jsstring) (message : jsstring)
    : M RouterVars unit :=
  assign (set_lastReceivedEncryptedMessage message) ;;
  let encryptedSymmetricKey := slice message 0 344 in
  let encryptedMessage := slice_from message 344 in
  privateKey <- await (importPrvKey prvKeyBase64) ;;
  symmetricKeyBase64 <- await (rsaDecrypt encryptedSymmetricKey privateKey) ;;
  symmetricKey <- await (importSymKey symmetricKeyBase64) ;;
  decryptedMessage <- await (symDecrypt symmetricKeyBase64 encryptedMessage) ;;
  assign (set_lastReceivedDecryptedMessage decryptedMessage) ;;
  let destination := slice decryptedMessage 0 10 in
  let remainingMessage := slice_from decryptedMessage 10 in
  let nextDestination := parseInt destination in
  assign (set_lastMessageDestination nextDestination) ;;
  if number_ge nextDestination BASE_USER_PORT
  then fetch (PostMessage nextDestination remainingMessage)
  else fetch (PostMessage nextDestination (destination ++ remainingMessage)).

(** The world a router leaves once it has decrypted [dm] out of [message]
    and read a number as the port. *)
Definition forwarded (message dm : jsstring) (rw : World RouterVars) : World RouterVars :=
  let destination := slice dm 0 10 in
  let remainingMessage := slice_from dm 10 in
  let nextDestination := parseInt destination in
  {| entropy := entropy rw;
     outbox := outbox rw ++
       [PostMessage nextDestination
          (if number_ge nextDestination BASE_USER_PORT then remainingMessage
           else destination ++ remainingMessage)];
     vars := {| lastReceivedEncryptedMessage := Some message;
                lastReceivedDecryptedMessage := Some dm;
                lastMessageDestination := Some nextDestination |} |}.

End Router.

(** * Vocabulary of the statements *)

(** A string of ASCII characters. *)
Definition ascii_only (s : jsstring) : Prop := Forall (fun c => (c < 128)%N) s.

(** A Unicode scalar value: a code point that is not a surrogate. *)
Definition is_scalar (cp : N) : Prop :=
  (cp < 0x110000)%N /\ ~ (0xD800 <= cp <= 0xDFFF)%N.

(** The layer [wrapLayer] makes for [payload] with the draws from [e] on,
    given the wrapped key [ek]. *)
Definition layer {wc : WebCrypto} (e : nat) (ek : list byte) (payload : jsstring)
    : jsstring :=
  arrayBufferToBase64 ek
  ++ arrayBufferToBase64
       (random_bytes (S e) 16
        ++ aes_cbc_encrypt (random_bytes e 32) (random_bytes (S e) 16)
             (TextEncoder_encode payload)).

(** A relay that runs: its identifier and its key pair. *)
Record Relay {wc : WebCrypto} : Type := {
  relay_id : Z;
  relay_pub : PubKey;
  relay_prv : PrvKey
}.

(** The [prvKeyBase64] of the relay's closure. *)
Definition prvKeyBase64 {wc : WebCrypto} (r : Relay) : jsstring :=
  arrayBufferToBase64 (pkcs8_export (relay_prv r)).

(** The registry answers with the relay's own 2048-bit public key. *)
Definition registered {wc : WebCrypto} (nodes : list Node) (r : Relay) : Prop :=
  exists node,
    find_node nodes (relay_id r) = Some node
    /\ importPubKey (pubKey node) = Ok (relay_pub r)
    /\ rsa_pair (relay_pub r) (relay_prv r)
    /\ modulus_bytes (relay_pub r) = 256%nat.

(** A port that takes exactly four decimal digits. *)
Definition four_digits (port : Z) : Prop := (1000 <= port <= 9999)%Z.

(** A port the framing carries to the next hop: four digits, and not below
    the ports of the users. *)
Definition forwardable {cfg : Config} (port : Z) : Prop :=
  four_digits port /\ (BASE_USER_PORT <= port)%Z.

(** Three different identifiers occur in the list. *)
Definition three_distinct (ids : list Z) : Prop :=
  exists x y z, x <> y /\ x <> z /\ y <> z /\ In x ids /\ In y ids /\ In z ids.

(** The identifiers the draws [e], ..., [e + n - 1] pick. *)
Definition drawn_ids {mr : MathRandom} (nodes : list Node) (e n : nat) : list Z :=
  flat_map (fun i =>
    match nth_error nodes (random_floor i (length nodes)) with
    | Some node => [nodeId node]
    | None => []
    end) (seq e n).


(** * A mock platform

    A configuration with the ports of the course's network, and stand-ins
    for the Web Crypto API and [Math.random] that satisfy the laws above;
    they let the statements below be run on concrete messages. *)
Module Mock.

#[export] Instance config : Config :=
  {| BASE_USER_PORT := 3000; BASE_ONION_ROUTER_PORT := 4000; REGISTRY_PORT := 8080 |}.

(** "Encryption" under key [k]: the key, the length of the data and the
    data, padded to 256 bytes. *)
Definition encrypt (k : byte) (seed : nat) (data : list byte) : option (list byte) :=
  if Nat.leb (length data + 66) 256
  then Some (k :: byte_of_N (N.of_nat (length data)) :: data
               ++ repeat Byte.x00 (254 - length data))
  else None.

Definition decrypt (k : byte) (c : list byte) : option (list byte) :=
  match c with
  | k' :: n :: rest =>
      if Byte.eqb k' k && Nat.eqb (length c) 256
      then Some (firstn (N.to_nat (Byte.to_N n)) rest)
      else None
  | _ => None
  end.

Definition import_key (buf : list byte) : option byte :=
  match buf with
  | [k] => Some k
  | _ => None
  end.

#[export] Instance crypto : WebCrypto :=
  {| PubKey := byte;
     PrvKey := byte;
     rsa_generate := fun seed => (byte_of_N (N.of_nat seed), byte_of_N (N.of_nat seed));
     spki_export := fun k => [k];
     spki_import := import_key;
     pkcs8_export := fun k => [k];
     pkcs8_import := import_key;
     modulus_bytes := fun _ => 256%nat;
     rsa_pair := fun pk sk => pk = sk;
     rsa_oaep_encrypt := encrypt;
     rsa_oaep_decrypt := decrypt;
     aes_cbc_encrypt := fun key iv data => data;
     aes_cbc_decrypt := fun key iv data => Some data;
     random_bytes := fun i n => repeat (byte_of_N (N.of_nat i)) n |}.

#[export] Instance random : MathRandom :=
  {| random_floor := fun i n => if Nat.eqb n 0 then 0%nat else Nat.modulo i n |}.

(** Three routers, started with the draws 7, 8 and 9. *)
Definition relay (id : Z) (seed : nat) : Relay :=
  {| relay_id := id;
     relay_pub := fst (rsa_generate seed);
     relay_prv := snd (rsa_generate seed) |}.

Definition relayA : Relay := relay 0 7.
Definition relayB : Relay := relay 1 8.
Definition relayC : Relay := relay 2 9.

Definition node_of (r : Relay) : Node :=
  {| nodeId := relay_id r; pubKey := exportPubKey (relay_pub r) |}.

Definition nodes : list Node := [node_of relayA; node_of relayB; node_of relayC].

Definition user_world : World UserVars :=
  {| entropy := 0; outbox := [];
     vars := {| lastReceivedMessage := None; lastSentMessage := None; lastCircuit := None |} |}.

Definition router_world : World RouterVars :=
  {| entropy := 0; outbox := [];
     vars := {| lastReceivedEncryptedMessage := None;
                lastReceivedDecryptedMessage := None;
                lastMessageDestination := None |} |}.

(** The body of the first request of an outbox. *)
Definition first_body (requests : list Request) : jsstring :=
  match requests with
  | PostMessage _ body :: _ => body
  | _ => []
  end.

(** The onion that reaches relay A when "hello" is sent to user 1. *)
Definition onion : jsstring :=
  first_body (outbox (snd (sendThrough nodes
    [relay_id relayA; relay_id relayB; relay_id relayC] (str "hello") 1 user_world))).

(** The wrapped key of the layer for relay C. *)
Definition wrapped_for_C : list byte :=
  match rsa_oaep_encrypt (relay_pub relayC) 2 (random_bytes 0 32) with
  | Some ek => ek
  | None => []
  end.

(** A message sent through A, B and C: each relay is handed the body of the
    request the hop before it sent.  The results of the four handlers, and
    the requests the last relay sent. *)
Definition journey (message : jsstring) (destinationUserId : Z)
    : list (result unit) * list Request :=
  let s := sendThrough nodes [relay_id relayA; relay_id relayB; relay_id relayC]
             message destinationUserId user_world in
  let a := router_message (prvKeyBase64 relayA) (first_body (outbox (snd s))) router_world in
  let b := router_message (prvKeyBase64 relayB) (first_body (outbox (snd a))) router_world in
  let c := router_message (prvKeyBase64 relayC) (first_body (outbox (snd b))) router_world in
  ([fst s; fst a; fst b; fst c], outbox (snd c)).

End Mock.

(** * The handlers that read, and the first version of the router *)

(** A handler that answers with a variable. *)
Definition answer {V A} (f : V -> A) : M V A := fun w => (Ok (f (vars w)), w).

(** user.ts: GET /getLastReceivedMessage, /getLastSentMessage, /getLastCircuit *)
Definition getLastReceivedMessage : M UserVars (option jsstring) :=
  answer lastReceivedMessage.
Definition getLastSentMessage : M UserVars (option jsstring) :=
  answer lastSentMessage.
Definition getLastCircuit : M UserVars (option (list Z)) :=
  answer lastCircuit.

(** simpleOnionRouter.ts: GET /getLastReceivedEncryptedMessage,
    /getLastReceivedDecryptedMessage, /getLastMessageDestination.  The
    result is the variable; in the JSON of the answer a NaN reads null. *)
Definition getLastReceivedEncryptedMessage : M RouterVars (option jsstring) :=
  answer lastReceivedEncryptedMessage.
Definition getLastReceivedDecryptedMessage : M RouterVars (option jsstring) :=
  answer lastReceivedDecryptedMessage.
Definition getLastMessageDestination : M RouterVars (option (option Z)) :=
  answer lastMessageDestination.

(** The variables of a router as its closure declares them. *)
Definition router_vars_null : RouterVars :=
  {| lastReceivedEncryptedMessage := None;
     lastReceivedDecryptedMessage := None;
     lastMessageDestination := None |}.

(** onionRouters/simpleOnionRouter.ts, the router without a /message route. *)
Module OnionRouters.
Section Start.
Context {wc : WebCrypto}.

(** The start of the router: the key pair, the variables of the closure,
    and [registerNode], whose fetch is inside a try/catch.  The result is
    the [prvKeyBase64] that GET /getPrivateKey answers with. *)
Definition simpleOnionRouter (nodeId : Z) : M RouterVars (option jsstring) :=
  keys <- generateRsaKeyPair ;;
  let pubKeyBase64 := exportPubKey (fst keys) in
  let prvKeyBase64 := exportPrvKey (Some (snd keys)) in
  assign (fun _ => router_vars_null) ;;
  try_catch (fetch (PostRegisterNode nodeId pubKeyBase64)) (fun error => ret tt) ;;
  ret prvKeyBase64.

End Start.
End OnionRouters.

(** The registry after the bodies of a sequence of POST /registerNode. *)
Definition registrations (bodies : list Node) (nodes : Registry.State) : Registry.State :=
  fold_left (fun nodes body => Registry.registerNode body nodes) bodies nodes.

(** * Strings that are not well formed *)

(** A string of JavaScript: every code unit is a 16-bit value. *)
Definition sixteen_bit (s : jsstring) : Prop := Forall (fun u => (u < 0x10000)%N) s.

(** [s.toWellFormed()]: every unpaired surrogate becomes U+FFFD. *)
Fixpoint toWellFormed (s : jsstring) : jsstring :=
  match s with
  | [] => []
  | u :: rest =>
      if Utf8.is_high_surrogate u then
        match rest with
        | v :: rest' =>
            if Utf8.is_low_surrogate v then u :: v :: toWellFormed rest'
            else Utf8.replacement :: toWellFormed rest
        | [] => [Utf8.replacement]
        end
      else if Utf8.is_low_surrogate u then Utf8.replacement :: toWellFormed rest
      else u :: toWellFormed rest
  end.

(** The string without a byte order mark at its start. *)
Definition drop_bom (s : jsstring) : jsstring :=
  match s with
  | 0xFEFF%N :: rest => rest
  | _ => s
  end.

(** * Lemmas and theorems *)

Ltac Zify.zify_post_hook ::= Z.to_euclidean_division_equations.

Local Open Scope N_scope.

(** ** Bytes and bit operations *)

Lemma to_N_lt_256 (b : byte) : Byte.to_N b < 256.
Proof. pose proof (Byte.to_N_bounded b). lia. Qed.

Lemma byte_of_N_to_N (b : byte) : byte_of_N (Byte.to_N b) = b.
Proof.
  unfold byte_of_N. rewrite N.mod_small by apply to_N_lt_256.
  now rewrite Byte.of_to_N.
Qed.

Lemma to_N_byte_of_N (n : N) : n < 256 -> Byte.to_N (byte_of_N n) = n.
Proof.
  intros H. unfold byte_of_N. rewrite N.mod_small by assumption.
  destruct (Byte.of_N n) eqn:E.
  - now apply Byte.to_of_N.
  - apply Byte.of_N_None_iff in E. lia.
Qed.

Lemma byte_of_N_eq (n : N) (b : byte) : n = Byte.to_N b -> byte_of_N n = b.
Proof. intros ->. apply byte_of_N_to_N. Qed.

Lemma land_pow2_low (x y k : N) : y < 2 ^ k -> N.land (N.shiftl x k) y = 0.
Proof.
  intros H. apply N.bits_inj_0. intros n. rewrite N.land_spec.
  destruct (N.lt_ge_cases n k) as [L | G].
  - now rewrite N.shiftl_spec_low.
  - destruct (N.eq_dec y 0) as [-> | Hy].
    + now rewrite N.bits_0, andb_false_r.
    + rewrite (N.bits_above_log2 y n), andb_false_r; [reflexivity|].
      apply N.log2_lt_pow2; [lia|].
      eapply N.lt_le_trans; [eassumption|]. now apply N.pow_le_mono_r.
Qed.

Lemma lor_shiftl (x k y : N) : y < 2 ^ k -> N.lor (N.shiftl x k) y = x * 2 ^ k + y.
Proof.
  intros H. pose proof (land_pow2_low x y k H) as D.
  rewrite <- N.lxor_lor by assumption.
  rewrite <- N.add_nocarry_lxor by assumption.
  now rewrite N.shiftl_mul_pow2.
Qed.

Lemma land_ones_3 a : N.land a 3 = a mod 4.
Proof. change 3 with (N.ones 2). apply N.land_ones. Qed.
Lemma land_ones_7 a : N.land a 7 = a mod 8.
Proof. change 7 with (N.ones 3). apply N.land_ones. Qed.
Lemma land_ones_15 a : N.land a 15 = a mod 16.
Proof. change 15 with (N.ones 4). apply N.land_ones. Qed.
Lemma land_ones_31 a : N.land a 31 = a mod 32.
Proof. change 31 with (N.ones 5). apply N.land_ones. Qed.
Lemma land_ones_63 a : N.land a 63 = a mod 64.
Proof. change 63 with (N.ones 6). apply N.land_ones. Qed.
Lemma land_ones_1023 a : N.land a 1023 = a mod 1024.
Proof. change 1023 with (N.ones 10). apply N.land_ones. Qed.

Lemma shiftr_div a k : N.shiftr a k = a / 2 ^ k.
Proof. apply N.shiftr_div_pow2. Qed.

(** Bit operations as arithmetic. *)
Ltac bits_to_arith :=
  repeat rewrite ?land_ones_3, ?land_ones_7, ?land_ones_15, ?land_ones_31,
    ?land_ones_63, ?land_ones_1023, ?shiftr_div;
  repeat match goal with
    | |- context [N.lor (N.shiftl ?x ?k) ?y] =>
        rewrite (lor_shiftl x k y)
          by (rewrite ?N.shiftl_mul_pow2; cbn [N.pow Pos.pow Pos.iter Pos.mul]; lia)
    end;
  rewrite ?N.shiftl_mul_pow2;
  cbn [N.pow Pos.pow Pos.iter Pos.mul].

(** ** Lists three elements at a time *)

Lemma list_ind3 {A} (P : list A -> Prop) :
  P [] -> (forall a, P [a]) -> (forall a b, P [a; b]) ->
  (forall a b c l, P l -> P (a :: b :: c :: l)) ->
  forall l, P l.
Proof.
  intros H0 H1 H2 H3 l.
  enough (P l /\ (forall a, P (a :: l)) /\ (forall a b, P (a :: b :: l))) by tauto.
  induction l as [| x l [IH0 [IH1 IH2]]].
  - repeat split; auto.
  - repeat split; auto.
Qed.

(** A property of the numbers below a bound, checked one by one. *)
Lemma below_N (f : N -> bool) (n : nat) :
  forallb (fun k => f (N.of_nat k)) (seq 0 n) = true ->
  forall v, v < N.of_nat n -> f v = true.
Proof.
  intros H v Hv. rewrite forallb_forall in H.
  specialize (H (N.to_nat v)). rewrite N2Nat.id in H.
  apply H. apply in_seq. lia.
Qed.

(** ** Base64 *)

Lemma unbase64_char v : v < 64 -> Base64.unbase64 (Base64.char v) = Some v.
Proof.
  intros H.
  pose proof (below_N (fun v =>
    match Base64.unbase64 (Base64.char v) with
    | Some w => N.eqb w v
    | None => false
    end) 64 eq_refl v H) as E.
  cbv beta in E.
  destruct (Base64.unbase64 (Base64.char v)); [|discriminate].
  apply N.eqb_eq in E. now subst.
Qed.

Lemma char_ascii v : v < 64 -> Base64.char v < 128.
Proof.
  intros H.
  pose proof (below_N (fun v => Base64.char v <? 128) 64 eq_refl v H) as E.
  now apply N.ltb_lt in E.
Qed.

Lemma sextets_pad s : Base64.sextets (Base64.pad :: s) = [].
Proof. reflexivity. Qed.

Lemma sextets_char v s :
  v < 64 -> Base64.sextets (Base64.char v :: s) = v :: Base64.sextets s.
Proof.
  intros H. cbn [Base64.sextets]. cbv zeta.
  rewrite N.mod_small by (pose proof (char_ascii v H); lia).
  now rewrite unbase64_char.
Qed.

Ltac byte_bounds :=
  repeat match goal with
    | b : byte |- _ =>
        lazymatch goal with
        | _ : Byte.to_N b < 256 |- _ => fail
        | _ => pose proof (to_N_lt_256 b)
        end
    end.

Lemma base64_sextets_encode buf :
  Base64.bytes_of_sextets (Base64.sextets (Base64.encode buf)) = buf.
Proof.
  induction buf as [| a | a b | a b c rest IH] using list_ind3.
  - reflexivity.
  - byte_bounds. cbn [Base64.encode].
    do 2 (rewrite sextets_char by (bits_to_arith; lia)). rewrite sextets_pad.
    cbn [Base64.bytes_of_sextets]. f_equal.
    apply byte_of_N_eq. bits_to_arith. lia.
  - byte_bounds. cbn [Base64.encode].
    do 3 (rewrite sextets_char by (bits_to_arith; lia)). rewrite sextets_pad.
    cbn [Base64.bytes_of_sextets]. f_equal; [|f_equal].
    + apply byte_of_N_eq. bits_to_arith. lia.
    + apply byte_of_N_eq. bits_to_arith. lia.
  - byte_bounds. cbn [Base64.encode].
    do 4 (rewrite sextets_char by (bits_to_arith; lia)).
    cbn [Base64.bytes_of_sextets]. rewrite IH. f_equal; [|f_equal; [|f_equal]].
    + apply byte_of_N_eq. bits_to_arith. lia.
    + apply byte_of_N_eq. bits_to_arith. lia.
    + apply byte_of_N_eq. bits_to_arith. lia.
Qed.

(** Decoding what was encoded gives the buffer back. *)
Lemma base64_decode_encode buf :
  base64ToArrayBuffer (arrayBufferToBase64 buf) = buf.
Proof. apply base64_sextets_encode. Qed.

(** The encoding of [n] bytes has 4 * ceil(n / 3) characters. *)
Lemma base64_encode_length buf :
  length (arrayBufferToBase64 buf) = (4 * ((length buf + 2) / 3))%nat.
Proof.
  unfold arrayBufferToBase64.
  induction buf as [| a | a b | a b c rest IH] using list_ind3; try reflexivity.
  cbn [Base64.encode length]. rewrite IH.
  replace (S (S (S (length rest))) + 2)%nat with ((length rest + 2) + 1 * 3)%nat by lia.
  rewrite Nat.div_add by lia. lia.
Qed.

Lemma base64_encode_ascii buf : ascii_only (arrayBufferToBase64 buf).
Proof.
  unfold arrayBufferToBase64, ascii_only.
  induction buf as [| a | a b | a b c rest IH] using list_ind3;
    byte_bounds; cbn [Base64.encode];
    repeat (apply Forall_cons; [first [apply char_ascii; bits_to_arith; lia | reflexivity] |]);
    auto.
Qed.

(** ** UTF-8 *)

(** Settle the comparisons of the goal with [lia]. *)
Ltac settle_tests :=
  repeat match goal with
    | |- context [?a <=? ?b] =>
        first [ replace (a <=? b) with true by (symmetry; apply N.leb_le; lia)
              | replace (a <=? b) with false by (symmetry; apply N.leb_gt; lia) ]
    | |- context [?a <? ?b] =>
        first [ replace (a <? b) with true by (symmetry; apply N.ltb_lt; lia)
              | replace (a <? b) with false by (symmetry; apply N.ltb_ge; lia) ]
    | |- context [?a =? ?b] =>
        first [ replace (a =? b) with true by (symmetry; apply N.eqb_eq; lia)
              | replace (a =? b) with false by (symmetry; apply N.eqb_neq; lia) ]
    end;
  cbn [andb orb negb].

Lemma lor_0x80 y : y < 64 -> N.lor 0x80 y = 0x80 + y.
Proof. intros H. change 0x80 with (N.shiftl 1 7). rewrite lor_shiftl; cbn; lia. Qed.

Lemma continuation_eq temp :
  Utf8.continuation temp = byte_of_N (0x80 + temp mod 64).
Proof. unfold Utf8.continuation. now rewrite land_ones_63, lor_0x80 by lia. Qed.

Lemma run_cons st b rest :
  Utf8.run st (b :: rest) =
  fst (Utf8.step st b) ++ Utf8.run (snd (Utf8.step st b)) rest.
Proof. cbn [Utf8.run]. now destruct (Utf8.step st b). Qed.

Ltac utf8_step :=
  rewrite run_cons; unfold Utf8.step;
  rewrite to_N_byte_of_N by lia;
  cbn [Utf8.bytes_needed Utf8.bytes_seen Utf8.lower_boundary Utf8.upper_boundary
       Utf8.code_point Utf8.initial Nat.eqb];
  unfold Utf8.lead;
  settle_tests;
  cbn [fst snd app Utf8.bytes_needed Utf8.bytes_seen Utf8.lower_boundary Utf8.upper_boundary
       Utf8.code_point Utf8.initial Nat.eqb].

Lemma run_1 a rest :
  a <= 0x7F ->
  Utf8.run Utf8.initial (byte_of_N a :: rest) = a :: Utf8.run Utf8.initial rest.
Proof. intros. utf8_step. reflexivity. Qed.

Lemma run_2 a b rest :
  2 <= a < 32 -> b < 64 ->
  Utf8.run Utf8.initial (byte_of_N (a + 0xC0) :: byte_of_N (0x80 + b) :: rest)
  = (a * 64 + b) :: Utf8.run Utf8.initial rest.
Proof. intros. do 2 utf8_step. f_equal. bits_to_arith. lia. Qed.

Lemma run_3 a b c rest :
  a < 16 -> b < 64 -> c < 64 -> (a = 0 -> 32 <= b) -> (a = 13 -> b < 32) ->
  Utf8.run Utf8.initial
    (byte_of_N (a + 0xE0) :: byte_of_N (0x80 + b) :: byte_of_N (0x80 + c) :: rest)
  = (a * 4096 + b * 64 + c) :: Utf8.run Utf8.initial rest.
Proof.
  intros Ha Hb Hc H0 H13.
  assert (C : a = 0 \/ a = 13 \/ (a <> 0 /\ a <> 13)) by lia.
  destruct C as [C | [C | C]]; do 3 utf8_step; f_equal; bits_to_arith; lia.
Qed.

Lemma run_4 a b c d rest :
  a < 5 -> b < 64 -> c < 64 -> d < 64 -> (a = 0 -> 16 <= b) -> (a = 4 -> b < 16) ->
  Utf8.run Utf8.initial
    (byte_of_N (a + 0xF0) :: byte_of_N (0x80 + b) :: byte_of_N (0x80 + c)
     :: byte_of_N (0x80 + d) :: rest)
  = (a * 262144 + b * 4096 + c * 64 + d) :: Utf8.run Utf8.initial rest.
Proof.
  intros Ha Hb Hc Hd H0 H4.
  assert (C : a = 0 \/ a = 4 \/ (a <> 0 /\ a <> 4)) by lia.
  destruct C as [C | [C | C]]; do 4 utf8_step; f_equal; bits_to_arith; lia.
Qed.

Lemma run_encode_scalar cp rest :
  is_scalar cp ->
  Utf8.run Utf8.initial (Utf8.encode_scalar cp ++ rest) = cp :: Utf8.run Utf8.initial rest.
Proof.
  intros [Hlt Hns]. unfold Utf8.encode_scalar.
  rewrite !continuation_eq, !shiftr_div. cbn [N.pow Pos.pow Pos.iter Pos.mul].
  destruct (N.leb_spec cp 0x7F) as [H1 | H1].
  { cbn [app]. now apply run_1. }
  destruct (N.leb_spec cp 0x7FF) as [H2 | H2].
  { cbn [app]. rewrite run_2 by lia. f_equal. lia. }
  destruct (N.leb_spec cp 0xFFFF) as [H3 | H3].
  { cbn [app]. rewrite run_3 by lia. f_equal. lia. }
  cbn [app]. rewrite run_4 by lia. f_equal. lia.
Qed.

Lemma surrogate_tests u :
  (Utf8.is_high_surrogate u = true <-> 0xD800 <= u <= 0xDBFF)
  /\ (Utf8.is_low_surrogate u = true <-> 0xDC00 <= u <= 0xDFFF).
Proof.
  unfold Utf8.is_high_surrogate, Utf8.is_low_surrogate.
  rewrite !andb_true_iff, !N.leb_le. tauto.
Qed.

Lemma utf16_bmp cp : cp < 0x10000 -> Utf8.utf16 cp = [cp].
Proof. intros H. unfold Utf8.utf16. now settle_tests. Qed.

Lemma utf16_pair u v :
  0xD800 <= u <= 0xDBFF -> 0xDC00 <= v <= 0xDFFF ->
  Utf8.utf16 (0x10000 + N.shiftl (u - 0xD800) 10 + (v - 0xDC00)) = [u; v].
Proof.
  intros Hu Hv. unfold Utf8.utf16. bits_to_arith. settle_tests.
  f_equal; [|f_equal]; lia.
Qed.

Lemma pair_is_scalar u v :
  0xD800 <= u <= 0xDBFF -> 0xDC00 <= v <= 0xDFFF ->
  is_scalar (0x10000 + N.shiftl (u - 0xD800) 10 + (v - 0xDC00)).
Proof. intros Hu Hv. unfold is_scalar. bits_to_arith. lia. Qed.

(** The three shapes of a well-formed string. *)
Lemma well_formed_cases s :
  Utf8.well_formed s = true ->
  s = []
  \/ (exists u v rest, s = u :: v :: rest /\ 0xD800 <= u <= 0xDBFF
        /\ 0xDC00 <= v <= 0xDFFF /\ Utf8.well_formed rest = true
        /\ Utf8.encode s
           = Utf8.encode_scalar (0x10000 + N.shiftl (u - 0xD800) 10 + (v - 0xDC00))
             ++ Utf8.encode rest)
  \/ (exists u rest, s = u :: rest /\ is_scalar u /\ u < 0x10000
        /\ Utf8.well_formed rest = true
        /\ Utf8.encode s = Utf8.encode_scalar u ++ Utf8.encode rest).
Proof.
  destruct s as [| u rest]; [now left|]. intros W. right.
  cbn [Utf8.well_formed Utf8.encode] in *.
  destruct (Utf8.is_high_surrogate u) eqn:Eh.
  - left. destruct rest as [| v rest']; [discriminate|].
    apply andb_true_iff in W as [Wv W]. rewrite Wv.
    exists u, v, rest'. repeat split; try assumption;
      try (apply surrogate_tests; assumption).
  - right. apply andb_true_iff in W as [W1 W]. apply andb_true_iff in W1 as [Wu Wl].
    apply N.ltb_lt in Wu. apply negb_true_iff in Wl. rewrite Wl.
    exists u, rest.
    assert (Hs : is_scalar u).
    { split; [lia|]. intros R.
      destruct (surrogate_tests u) as [Sh Sl].
      destruct (N.le_gt_cases u 0xDBFF).
      + assert (Utf8.is_high_surrogate u = true) by (apply Sh; lia). congruence.
      + assert (Utf8.is_low_surrogate u = true) by (apply Sl; lia). congruence. }
    auto.
Qed.

Lemma utf8_run_encode s :
  Utf8.well_formed s = true ->
  flat_map Utf8.utf16 (Utf8.run Utf8.initial (Utf8.encode s)) = s.
Proof.
  remember (length s) as n eqn:Hn. revert s Hn.
  induction n as [n IH] using lt_wf_ind. intros s Hn W.
  destruct (well_formed_cases s W)
    as [-> | [(u & v & rest & -> & Hu & Hv & Wr & E) | (u & rest & -> & Hs & Hu & Wr & E)]].
  - reflexivity.
  - rewrite E, run_encode_scalar by now apply pair_is_scalar.
    cbn [flat_map]. rewrite utf16_pair by assumption.
    cbn [app]. do 2 f_equal. apply (IH (length rest)); auto. subst n. cbn [length]. lia.
  - rewrite E, run_encode_scalar by assumption.
    cbn [flat_map]. rewrite utf16_bmp by assumption.
    cbn [app]. f_equal. apply (IH (length rest)); auto. subst n. cbn [length]. lia.
Qed.

Lemma strip_bom_first a rest :
  Byte.to_N a <> 0xEF -> Utf8.strip_bom (a :: rest) = a :: rest.
Proof.
  intros H. destruct rest as [| b [| c rest]]; try reflexivity.
  cbn [Utf8.strip_bom]. apply N.eqb_neq in H. now rewrite H.
Qed.

Lemma strip_bom_scalar cp rest :
  is_scalar cp -> cp <> 0xFEFF ->
  Utf8.strip_bom (Utf8.encode_scalar cp ++ rest) = Utf8.encode_scalar cp ++ rest.
Proof.
  intros [Hlt Hns] Hb. unfold Utf8.encode_scalar.
  rewrite !continuation_eq, !shiftr_div. cbn [N.pow Pos.pow Pos.iter Pos.mul].
  destruct (N.leb_spec cp 0x7F) as [H1 | H1].
  { cbn [app]. apply strip_bom_first. rewrite to_N_byte_of_N; lia. }
  destruct (N.leb_spec cp 0x7FF) as [H2 | H2].
  { cbn [app]. apply strip_bom_first. rewrite to_N_byte_of_N; lia. }
  destruct (N.leb_spec cp 0xFFFF) as [H3 | H3].
  { cbn [app Utf8.strip_bom]. rewrite !to_N_byte_of_N by lia.
    destruct (N.eqb_spec (cp / 4096 + 224) 239) as [E1 | E1]; [|reflexivity].
    destruct (N.eqb_spec (128 + (cp / 64) mod 64) 187) as [E2 | E2]; [|reflexivity].
    destruct (N.eqb_spec (128 + cp mod 64) 191) as [E3 | E3]; [|reflexivity].
    exfalso. lia. }
  cbn [app]. apply strip_bom_first. rewrite to_N_byte_of_N; lia.
Qed.

Lemma strip_bom_encode s :
  Utf8.well_formed s = true -> hd_error s <> Some 0xFEFF ->
  Utf8.strip_bom (Utf8.encode s) = Utf8.encode s.
Proof.
  intros W Hb.
  destruct (well_formed_cases s W)
    as [-> | [(u & v & rest & -> & Hu & Hv & Wr & E) | (u & rest & -> & Hs & Hu & Wr & E)]].
  - reflexivity.
  - rewrite E. apply strip_bom_scalar; [now apply pair_is_scalar|].
    bits_to_arith. lia.
  - rewrite E. apply strip_bom_scalar; [assumption|].
    intros ->. now apply Hb.
Qed.

(** Decoding the encoding of a well-formed string that does not start
    with a byte order mark gives the string back. *)
Lemma text_decode_encode s :
  Utf8.well_formed s = true -> hd_error s <> Some 0xFEFF ->
  TextDecoder_decode (TextEncoder_encode s) = s.
Proof.
  intros W Hb. unfold TextDecoder_decode, TextEncoder_encode, Utf8.decode.
  rewrite strip_bom_encode by assumption. now apply utf8_run_encode.
Qed.

(** Strings of ASCII characters. *)
Lemma well_formed_ascii_app p s :
  ascii_only p -> Utf8.well_formed (p ++ s) = Utf8.well_formed s.
Proof.
  induction 1 as [| c p Hc Hp IH]; [reflexivity|].
  cbn [app Utf8.well_formed].
  unfold Utf8.is_high_surrogate, Utf8.is_low_surrogate. settle_tests. exact IH.
Qed.

Lemma well_formed_ascii p : ascii_only p -> Utf8.well_formed p = true.
Proof.
  intros H. rewrite <- (app_nil_r p). now rewrite well_formed_ascii_app.
Qed.

Lemma ascii_only_app p q : ascii_only p -> ascii_only q -> ascii_only (p ++ q).
Proof. unfold ascii_only. intros. apply Forall_app. auto. Qed.

(** ** Decimal digits *)

Lemma digits_of_S f n :
  n < 2 ^ N.of_nat (S f) -> digits_of (S (S f)) n = digits_of (S f) n.
Proof.
  revert n. induction f as [| f IH]; intros n H.
  - cbn in H. cbn [digits_of]. now settle_tests.
  - remember (S f) as g. cbn [digits_of]. subst g.
    destruct (N.ltb_spec n 10) as [L | G]; [reflexivity|].
    f_equal. apply IH.
    rewrite Nat2N.inj_succ, N.pow_succ_r' in H. lia.
Qed.

Lemma digits_of_enough f n :
  (S (N.to_nat (N.log2 n)) <= f)%nat -> digits_of f n = N_to_string n.
Proof.
  unfold N_to_string. induction 1 as [| f Hf IH]; [reflexivity|].
  rewrite <- IH.
  destruct f as [| f]; [lia|]. apply digits_of_S.
  destruct (N.eq_dec n 0) as [-> | Hn].
  - assert (2 ^ N.of_nat (S f) <> 0) by (apply N.pow_nonzero; lia). lia.
  - destruct (N.log2_spec n) as [_ U]; [lia|].
    eapply N.lt_le_trans; [exact U|]. apply N.pow_le_mono_r; lia.
Qed.

Lemma N_to_string_small n : n < 10 -> N_to_string n = [48 + n].
Proof. intros H. unfold N_to_string. cbn [digits_of]. now settle_tests. Qed.

Lemma N_to_string_step n :
  10 <= n -> N_to_string n = N_to_string (n / 10) ++ [48 + n mod 10].
Proof.
  intros H. unfold N_to_string at 1. cbn [digits_of]. settle_tests.
  f_equal. apply digits_of_enough.
  assert (L : N.log2 (n / 10) < N.log2 n); [|lia].
  apply N.le_lt_trans with (N.log2 (N.shiftr n 1)).
  - apply N.log2_le_mono. rewrite shiftr_div. cbn [N.pow Pos.pow Pos.iter Pos.mul]. lia.
  - rewrite N.log2_shiftr.
    assert (N.log2 8 <= N.log2 n) by (apply N.log2_le_mono; lia).
    change (N.log2 8) with 3 in *. lia.
Qed.

Lemma N_to_string_digits n : Forall (fun c => is_digit c = true) (N_to_string n).
Proof.
  induction n as [n IH] using (well_founded_induction N.lt_wf_0).
  destruct (N.ltb_spec n 10) as [L | G].
  - rewrite N_to_string_small by assumption. constructor; [|constructor].
    unfold is_digit. now settle_tests.
  - rewrite N_to_string_step by assumption. apply Forall_app. split.
    + apply IH. lia.
    + constructor; [|constructor]. unfold is_digit. now settle_tests.
Qed.

Lemma digit_ascii c : is_digit c = true -> c < 128.
Proof. unfold is_digit. rewrite andb_true_iff, !N.leb_le. lia. Qed.

Lemma N_to_string_ascii n : ascii_only (N_to_string n).
Proof.
  eapply Forall_impl; [|apply N_to_string_digits]. apply digit_ascii.
Qed.

Lemma number_to_string_ascii z : ascii_only (number_to_string z).
Proof.
  unfold number_to_string. destruct (z <? 0)%Z.
  - constructor; [lia|]. apply N_to_string_ascii.
  - apply N_to_string_ascii.
Qed.

(** The number of digits. *)
Lemma N_to_string_length n k :
  10 ^ N.of_nat k <= n < 10 ^ N.of_nat (S k) -> length (N_to_string n) = S k.
Proof.
  revert n. induction k as [| k IH]; intros n [L U].
  - cbn in U. now rewrite N_to_string_small.
  - rewrite Nat2N.inj_succ, N.pow_succ_r' in L, U.
    rewrite Nat2N.inj_succ, N.pow_succ_r' in U.
    assert (0 < 10 ^ N.of_nat k) by (apply N.neq_0_lt_0, N.pow_nonzero; lia).
    rewrite N_to_string_step by lia.
    rewrite length_app, (IH (n / 10)); [cbn [length]; lia|].
    rewrite Nat2N.inj_succ, N.pow_succ_r'.
    remember (10 ^ N.of_nat k) as P. lia.
Qed.

Lemma N_to_string_length_4 n : 1000 <= n <= 9999 -> length (N_to_string n) = 4%nat.
Proof. intros H. apply (N_to_string_length n 3). cbn. lia. Qed.

(** Reading digits back. *)
Lemma digits_value_app acc s rest :
  Forall (fun c => is_digit c = true) s ->
  digits_value acc (s ++ rest) = digits_value (digits_value acc s) rest.
Proof.
  intros H. revert acc. induction H as [| c s Hc Hs IH]; intros acc; [reflexivity|].
  cbn [app digits_value]. rewrite Hc. apply IH.
Qed.

Lemma digits_value_N_to_string acc n :
  digits_value acc (N_to_string n) = acc * 10 ^ N.of_nat (length (N_to_string n)) + n.
Proof.
  revert acc. induction n as [n IH] using (well_founded_induction N.lt_wf_0). intros acc.
  destruct (N.ltb_spec n 10) as [L | G].
  - rewrite N_to_string_small by assumption. cbn [digits_value length].
    unfold is_digit. settle_tests. change (10 ^ N.of_nat 1) with 10. lia.
  - rewrite N_to_string_step by assumption.
    rewrite digits_value_app by apply N_to_string_digits.
    rewrite IH by lia. cbn [digits_value].
    unfold is_digit. settle_tests.
    rewrite length_app. cbn [length]. rewrite Nat.add_1_r, Nat2N.inj_succ, N.pow_succ_r'.
    nia.
Qed.

(** [parseInt] of a zero-padded number. *)
Lemma parseInt_padded n rest :
  match rest with c :: _ => is_digit c = false | [] => True end ->
  parseInt (str "000000" ++ N_to_string n ++ rest) = Some (Z.of_N n).
Proof.
  intros Hrest. unfold parseInt. cbn -[N_to_string digits_value].
  f_equal. f_equal.
  change (digits_value 0 (N_to_string n ++ rest) = n).
  rewrite digits_value_app by apply N_to_string_digits.
  rewrite digits_value_N_to_string. cbn [N.mul N.add].
  destruct rest as [| c rest]; [reflexivity|]. cbn [digits_value]. now rewrite Hrest.
Qed.

Close Scope N_scope.

(** ** Slices *)

Lemma slice_app_left {A} (a b : list A) n :
  length a = n -> slice (a ++ b) 0 n = a.
Proof.
  intros <-. unfold slice. rewrite Nat.sub_0_r. cbn [skipn].
  rewrite firstn_app, Nat.sub_diag, firstn_all. cbn [firstn]. apply app_nil_r.
Qed.

Lemma slice_from_app {A} (a b : list A) n :
  length a = n -> slice_from (a ++ b) n = b.
Proof.
  intros <-. unfold slice_from. rewrite skipn_app, Nat.sub_diag, skipn_all.
  reflexivity.
Qed.

Lemma slice_split {A} (s : list A) n : slice s 0 n ++ slice_from s n = s.
Proof. unfold slice, slice_from. rewrite Nat.sub_0_r. apply firstn_skipn. Qed.

Lemma jsstring_eqb_eq a b : jsstring_eqb a b = true <-> a = b.
Proof.
  revert b. induction a as [| x a IH]; intros [| y b]; cbn [jsstring_eqb];
    try (split; [discriminate | discriminate]); [tauto|].
  rewrite andb_true_iff, N.eqb_eq, IH. split.
  - intros [-> ->]. reflexivity.
  - intros E. injection E. auto.
Qed.

(** ** crypto.ts *)
Section CryptoFacts.
Context {wc : WebCrypto} {laws : WebCryptoLaws wc}.

Lemma importPubKey_exportPubKey pk : importPubKey (exportPubKey pk) = Ok pk.
Proof.
  unfold importPubKey, exportPubKey.
  now rewrite base64_decode_encode, spki_import_export.
Qed.

Lemma importPrvKey_export sk :
  importPrvKey (arrayBufferToBase64 (pkcs8_export sk)) = Ok sk.
Proof.
  unfold importPrvKey. now rewrite base64_decode_encode, pkcs8_import_export.
Qed.

Lemma importSymKey_exportSymKey key :
  aes_key_ok key = true -> importSymKey (exportSymKey key) = Ok key.
Proof.
  intros H. unfold importSymKey, exportSymKey.
  now rewrite base64_decode_encode, H.
Qed.

Lemma random_key_ok i : aes_key_ok (random_bytes i 32) = true.
Proof. unfold aes_key_ok. now rewrite random_bytes_length. Qed.

(** What [symEncrypt] returns: the base64 of a fresh 16-byte IV followed by
    the ciphertext. *)
Lemma symEncrypt_run {V} key data (w : World V) :
  symEncrypt key data w =
  (Ok (arrayBufferToBase64
         (random_bytes (entropy w) 16
          ++ aes_cbc_encrypt key (random_bytes (entropy w) 16) (TextEncoder_encode data))),
   Build_World (S (entropy w)) (outbox w) (vars w)).
Proof. reflexivity. Qed.

Lemma symDecrypt_combined key iv s :
  aes_key_ok key = true -> length iv = 16%nat ->
  Utf8.well_formed s = true -> hd_error s <> Some 0xFEFF%N ->
  symDecrypt (exportSymKey key)
    (arrayBufferToBase64 (iv ++ aes_cbc_encrypt key iv (TextEncoder_encode s))) = Ok s.
Proof.
  intros Hk Hiv W Hb. unfold symDecrypt.
  rewrite importSymKey_exportSymKey by assumption. cbn [rbind].
  rewrite base64_decode_encode.
  rewrite slice_app_left, slice_from_app by assumption.
  rewrite aes_cbc_decrypt_encrypt by assumption.
  now rewrite text_decode_encode.
Qed.

(** What [rsaEncrypt] returns under a key that imports. *)
Lemma rsaEncrypt_run {V} b64Data strPublicKey pk (w : World V) :
  importPubKey strPublicKey = Ok pk ->
  rsaEncrypt b64Data strPublicKey w =
  match rsa_oaep_encrypt pk (entropy w) (base64ToArrayBuffer b64Data) with
  | Some encrypted => (Ok (arrayBufferToBase64 encrypted),
                       Build_World (S (entropy w)) (outbox w) (vars w))
  | None => (Throw OperationError, Build_World (S (entropy w)) (outbox w) (vars w))
  end.
Proof.
  intros H. unfold rsaEncrypt, bind, await. rewrite H. cbn [draw].
  now destruct (rsa_oaep_encrypt pk (entropy w) (base64ToArrayBuffer b64Data)).
Qed.

Lemma rsaEncrypt_length {V} b64Data strPublicKey pk (w w' : World V) c :
  importPubKey strPublicKey = Ok pk ->
  modulus_bytes pk = 256%nat ->
  rsaEncrypt b64Data strPublicKey w = (Ok c, w') ->
  length c = 344%nat.
Proof.
  intros Hi Hm R. rewrite (rsaEncrypt_run _ _ pk) in R by assumption.
  destruct (rsa_oaep_encrypt pk (entropy w) (base64ToArrayBuffer b64Data)) as [e|] eqn:E;
    [|discriminate].
  injection R as <- _.
  rewrite base64_encode_length, (rsa_oaep_encrypt_length _ _ _ _ E), Hm.
  reflexivity.
Qed.

Lemma rsaDecrypt_wrapped pk sk seed key ek :
  rsa_pair pk sk ->
  rsa_oaep_encrypt pk seed key = Some ek ->
  rsaDecrypt (arrayBufferToBase64 ek) sk = Ok (exportSymKey key).
Proof.
  intros Hp He. unfold rsaDecrypt. rewrite base64_decode_encode.
  now rewrite (rsa_oaep_decrypt_encrypt _ _ _ _ _ Hp He).
Qed.

End CryptoFacts.

(** ** The router *)
Section RouterFacts.
Context {cfg : Config} {wc : WebCrypto}.

Lemma router_message_run prv message rw privateKey symmetricKeyBase64 symmetricKey dm p :
  importPrvKey prv = Ok privateKey ->
  rsaDecrypt (slice message 0 344) privateKey = Ok symmetricKeyBase64 ->
  importSymKey symmetricKeyBase64 = Ok symmetricKey ->
  symDecrypt symmetricKeyBase64 (slice_from message 344) = Ok dm ->
  parseInt (slice dm 0 10) = Some p ->
  router_message prv message rw = (Ok tt, forwarded message dm rw).
Proof.
  intros H1 H2 H3 H4 H5. unfold router_message, bind, await, assign.
  cbn [vars outbox entropy]. rewrite H1, H2, H3, H4. cbn [vars outbox entropy].
  unfold forwarded. rewrite H5.
  destruct (number_ge (Some p) BASE_USER_PORT); reflexivity.
Qed.

(** When the first ten characters of the decrypted message hold no number,
    the port is NaN and the request cannot be made: the handler throws
    after it has assigned its three variables. *)
Lemma router_message_nan prv message rw privateKey symmetricKeyBase64 symmetricKey dm :
  importPrvKey prv = Ok privateKey ->
  rsaDecrypt (slice message 0 344) privateKey = Ok symmetricKeyBase64 ->
  importSymKey symmetricKeyBase64 = Ok symmetricKey ->
  symDecrypt symmetricKeyBase64 (slice_from message 344) = Ok dm ->
  parseInt (slice dm 0 10) = None ->
  router_message prv message rw
  = (Throw TypeError,
     {| entropy := entropy rw;
        outbox := outbox rw;
        vars := {| lastReceivedEncryptedMessage := Some message;
                   lastReceivedDecryptedMessage := Some dm;
                   lastMessageDestination := Some None |} |}).
Proof.
  intros H1 H2 H3 H4 H5. unfold router_message, bind, await, assign.
  cbn [vars outbox entropy]. rewrite H1, H2, H3, H4. cbn [vars outbox entropy].
  rewrite H5. reflexivity.
Qed.

Lemma router_message_inv prv message rw rw' :
  router_message prv message rw = (Ok tt, rw') ->
  exists privateKey symmetricKeyBase64 dm,
    importPrvKey prv = Ok privateKey
    /\ rsaDecrypt (slice message 0 344) privateKey = Ok symmetricKeyBase64
    /\ symDecrypt symmetricKeyBase64 (slice_from message 344) = Ok dm
    /\ rw' = forwarded message dm rw.
Proof.
  intros R0. pose proof R0 as R.
  unfold router_message, bind, await, assign in R. cbn [vars outbox entropy] in R.
  destruct (importPrvKey prv) as [privateKey | e | ] eqn:H1; try discriminate.
  destruct (rsaDecrypt (slice message 0 344) privateKey)
    as [symmetricKeyBase64 | e | ] eqn:H2; try discriminate.
  destruct (importSymKey symmetricKeyBase64) as [symmetricKey | e | ] eqn:H3;
    try discriminate.
  destruct (symDecrypt symmetricKeyBase64 (slice_from message 344))
    as [dm | e | ] eqn:H4; try discriminate.
  exists privateKey, symmetricKeyBase64, dm. repeat split; try assumption.
  destruct (parseInt (slice dm 0 10)) as [p|] eqn:H5.
  - rewrite (router_message_run prv message rw _ _ _ _ _ H1 H2 H3 H4 H5) in R0.
    now injection R0.
  - rewrite (router_message_nan prv message rw _ _ _ _ H1 H2 H3 H4 H5) in R0.
    discriminate.
Qed.

(** A payload that starts with the destination field of a four-digit port. *)
Lemma destination_slice (p : Z) (inner : jsstring) :
  four_digits p ->
  let dm := str "000000" ++ number_to_string p ++ inner in
  slice dm 0 10 = str "000000" ++ number_to_string p
  /\ slice_from dm 10 = inner
  /\ parseInt (slice dm 0 10) = Some p.
Proof.
  intros [L U] dm.
  assert (E : number_to_string p = N_to_string (Z.to_N p)).
  { unfold number_to_string. destruct (Z.ltb_spec p 0); [lia | reflexivity]. }
  assert (Hlen : length (str "000000" ++ number_to_string p) = 10%nat).
  { rewrite length_app, E, N_to_string_length_4 by lia. reflexivity. }
  subst dm. rewrite app_assoc.
  rewrite slice_app_left, slice_from_app by assumption.
  repeat split.
  rewrite E. rewrite <- (app_nil_r (N_to_string (Z.to_N p))).
  rewrite parseInt_padded by exact I. f_equal. lia.
Qed.

End RouterFacts.

(** ** Wrapping and peeling one layer *)
Section OnionFacts.
Context {cfg : Config} {wc : WebCrypto} {laws : WebCryptoLaws wc}.

Lemma layer_ascii e ek payload : ascii_only (layer e ek payload).
Proof. apply ascii_only_app; apply base64_encode_ascii. Qed.

Lemma wrapLayer_run nodes circuit d i msg (w : World UserVars) node pk :
  find_node nodes (nth i circuit 0%Z) = Some node ->
  importPubKey (pubKey node) = Ok pk ->
  (98 <= modulus_bytes pk)%nat ->
  exists ek,
    rsa_oaep_encrypt pk (S (S (entropy w))) (random_bytes (entropy w) 32) = Some ek
    /\ wrapLayer nodes circuit d i msg w =
       (Ok (layer (entropy w) ek (destinationField circuit d i ++ msg)),
        Build_World (3 + entropy w) (outbox w) (vars w)).
Proof.
  intros Hf Hi Hm.
  destruct (rsa_oaep_encrypt_fits pk (S (S (entropy w))) (random_bytes (entropy w) 32))
    as [ek Hek].
  { rewrite random_bytes_length. lia. }
  exists ek. split; [assumption|].
  unfold wrapLayer. rewrite Hf.
  unfold bind at 1. unfold createRandomSymmetricKey, bind at 1. cbn [draw ret].
  unfold bind at 1. rewrite symEncrypt_run. cbn [entropy outbox vars].
  unfold bind at 1. rewrite (rsaEncrypt_run _ _ pk) by assumption.
  cbn [entropy outbox vars].
  unfold exportSymKey. rewrite base64_decode_encode, Hek.
  reflexivity.
Qed.

(** A relay peels the layer wrapped under its own public key. *)
Lemma peel_layer (r : Relay) e seed ek payload p (rw : World RouterVars) :
  rsa_pair (relay_pub r) (relay_prv r) ->
  modulus_bytes (relay_pub r) = 256%nat ->
  rsa_oaep_encrypt (relay_pub r) seed (random_bytes e 32) = Some ek ->
  Utf8.well_formed payload = true -> hd_error payload <> Some 0xFEFF%N ->
  parseInt (slice payload 0 10) = Some p ->
  router_message (prvKeyBase64 r) (layer e ek payload) rw
  = (Ok tt, forwarded (layer e ek payload) payload rw).
Proof.
  intros Hp Hm Hek W Hb Hport.
  assert (L : length (arrayBufferToBase64 ek) = 344%nat).
  { rewrite base64_encode_length, (rsa_oaep_encrypt_length _ _ _ _ Hek), Hm. reflexivity. }
  apply router_message_run
    with (privateKey := relay_prv r) (symmetricKeyBase64 := exportSymKey (random_bytes e 32))
         (symmetricKey := random_bytes e 32) (p := p).
  - apply importPrvKey_export.
  - unfold layer. rewrite slice_app_left by assumption.
    eapply rsaDecrypt_wrapped; eassumption.
  - apply importSymKey_exportSymKey, random_key_ok.
  - unfold layer. rewrite slice_from_app by assumption.
    apply symDecrypt_combined; auto using random_key_ok, random_bytes_length.
  - assumption.
Qed.

(** A payload that starts with a destination field is well formed when the
    rest is, and does not start with a byte order mark. *)
Lemma framed_well_formed (p : Z) inner :
  Utf8.well_formed inner = true ->
  Utf8.well_formed (str "000000" ++ number_to_string p ++ inner) = true
  /\ hd_error (str "000000" ++ number_to_string p ++ inner) <> Some 0xFEFF%N.
Proof.
  intros W. split; [|discriminate].
  rewrite app_assoc, well_formed_ascii_app; [assumption|].
  apply ascii_only_app; [|apply number_to_string_ascii].
  repeat constructor.
Qed.

(** Peeling a layer whose payload is framed for a port that can be carried:
    the rest goes to that port, unchanged. *)
Lemma peel_framed (r : Relay) e seed ek (p : Z) inner (rw : World RouterVars) :
  rsa_pair (relay_pub r) (relay_prv r) ->
  modulus_bytes (relay_pub r) = 256%nat ->
  rsa_oaep_encrypt (relay_pub r) seed (random_bytes e 32) = Some ek ->
  Utf8.well_formed inner = true ->
  forwardable p ->
  exists rw',
    router_message (prvKeyBase64 r)
      (layer e ek (str "000000" ++ number_to_string p ++ inner)) rw = (Ok tt, rw')
    /\ outbox rw' = outbox rw ++ [PostMessage (Some p) inner]
    /\ lastMessageDestination (vars rw') = Some (Some p).
Proof.
  intros Hp Hm Hek W [H4 Hge].
  destruct (framed_well_formed p inner W) as [Wf Hb].
  destruct (destination_slice p inner H4) as (S1 & S2 & S3).
  eexists. split; [apply (peel_layer r e seed ek _ p); assumption|].
  unfold forwarded. cbn [outbox vars lastMessageDestination].
  rewrite S3, S2. cbn [number_ge].
  apply Z.leb_le in Hge. rewrite Hge. split; reflexivity.
Qed.

End OnionFacts.

Local Open Scope Z_scope.

Lemma bind_ok {V A B} (m : M V A) (k : A -> M V B) w a w' :
  m w = (Ok a, w') -> bind m k w = k a w'.
Proof. intros H. unfold bind. now rewrite H. Qed.

Lemma bind_throw {V A B} (m : M V A) (k : A -> M V B) w e w' :
  m w = (Throw e, w') -> bind m k w = (Throw e, w').
Proof. intros H. unfold bind. now rewrite H. Qed.

Section RoundTrip.
Context {cfg : Config} {wc : WebCrypto} {laws : WebCryptoLaws wc}.

(** The three layers of a send through [a], [b], [c], innermost first. *)
Lemma sendThrough_run (ra rb rc : Relay) nodes m d (w : World UserVars) :
  registered nodes ra -> registered nodes rb -> registered nodes rc ->
  let circuit := [relay_id ra; relay_id rb; relay_id rc] in
  let e := entropy w in
  exists ek2 ek1 ek0,
    let l2 := layer e ek2 (str "000000" ++ number_to_string (BASE_USER_PORT + d) ++ m) in
    let l1 := layer (3 + e) ek1
                (str "000000" ++ number_to_string (BASE_ONION_ROUTER_PORT + relay_id rc) ++ l2) in
    let l0 := layer (6 + e) ek0
                (str "000000" ++ number_to_string (BASE_ONION_ROUTER_PORT + relay_id rb) ++ l1) in
    rsa_oaep_encrypt (relay_pub rc) (S (S e)) (random_bytes e 32) = Some ek2
    /\ rsa_oaep_encrypt (relay_pub rb) (S (S (3 + e))) (random_bytes (3 + e) 32) = Some ek1
    /\ rsa_oaep_encrypt (relay_pub ra) (S (S (6 + e))) (random_bytes (6 + e) 32) = Some ek0
    /\ sendThrough nodes circuit m d w =
       (Ok tt,
        {| entropy := 9 + e;
           outbox := outbox w ++ [PostMessage (Some (BASE_ONION_ROUTER_PORT + relay_id ra)) l0];
           vars := set_lastSentMessage m (set_lastCircuit circuit (vars w)) |}).
Proof.
  intros (na & Fa & Ia & Pa & Ma) (nb & Fb & Ib & Pb & Mb) (nc & Fc & Ic & Pc & Mc) circuit e.
  set (w0 := Build_World e (outbox w) (set_lastCircuit circuit (vars w))).
  destruct (wrapLayer_run nodes circuit d 2 m w0 nc (relay_pub rc) Fc Ic ltac:(lia))
    as (ek2 & E2 & R2).
  set (l2 := layer (entropy w0) ek2 (destinationField circuit d 2 ++ m)) in R2.
  set (w1 := Build_World (3 + entropy w0) (outbox w0) (vars w0)) in R2.
  destruct (wrapLayer_run nodes circuit d 1 l2 w1 nb (relay_pub rb) Fb Ib ltac:(lia))
    as (ek1 & E1 & R1).
  set (l1 := layer (entropy w1) ek1 (destinationField circuit d 1 ++ l2)) in R1.
  set (w2 := Build_World (3 + entropy w1) (outbox w1) (vars w1)) in R1.
  destruct (wrapLayer_run nodes circuit d 0 l1 w2 na (relay_pub ra) Fa Ia ltac:(lia))
    as (ek0 & E0 & R0).
  exists ek2, ek1, ek0. cbv zeta.
  repeat split; [exact E2 | exact E1 | exact E0 |].
  assert (W3 : wrap nodes circuit d 3 m w0
               = (Ok (layer (entropy w2) ek0 (destinationField circuit d 0 ++ l1)),
                  Build_World (3 + entropy w2) (outbox w2) (vars w2))).
  { cbn [wrap].
    rewrite (bind_ok _ _ _ _ _ R2), (bind_ok _ _ _ _ _ R1), (bind_ok _ _ _ _ _ R0).
    reflexivity. }
  unfold sendThrough.
  rewrite (bind_ok (assign (set_lastCircuit circuit)) _ w tt w0 eq_refl).
  cbn [length]. rewrite (bind_ok _ _ _ _ _ W3).
  unfold l1, l2, destinationField, circuit.
  cbn [length Nat.sub Nat.eqb Nat.add nth].
  rewrite <- !app_assoc.
  reflexivity.
Qed.

(** Claim C1, amended: the layers of a message sent through three registered
    relays peel off in path order, each relay forwarding to the next hop
    exactly what the sender wrapped for it, and the last relay delivers the
    plaintext to the port of the destination user.  The plaintext is a
    well-formed string, and every port written into a layer is one the
    framing carries. *)
Theorem onion_round_trip (ra rb rc : Relay) nodes m d (w : World UserVars) :
  registered nodes ra -> registered nodes rb -> registered nodes rc ->
  Utf8.well_formed m = true ->
  forwardable (BASE_ONION_ROUTER_PORT + relay_id rb) ->
  forwardable (BASE_ONION_ROUTER_PORT + relay_id rc) ->
  forwardable (BASE_USER_PORT + d) ->
  exists m0 m1 m2 w',
    sendThrough nodes [relay_id ra; relay_id rb; relay_id rc] m d w = (Ok tt, w')
    /\ outbox w' = outbox w ++ [PostMessage (Some (BASE_ONION_ROUTER_PORT + relay_id ra)) m0]
    /\ (forall rw, exists rw',
          router_message (prvKeyBase64 ra) m0 rw = (Ok tt, rw')
          /\ outbox rw' = outbox rw
               ++ [PostMessage (Some (BASE_ONION_ROUTER_PORT + relay_id rb)) m1])
    /\ (forall rw, exists rw',
          router_message (prvKeyBase64 rb) m1 rw = (Ok tt, rw')
          /\ outbox rw' = outbox rw
               ++ [PostMessage (Some (BASE_ONION_ROUTER_PORT + relay_id rc)) m2])
    /\ (forall rw, exists rw',
          router_message (prvKeyBase64 rc) m2 rw = (Ok tt, rw')
          /\ outbox rw' = outbox rw ++ [PostMessage (Some (BASE_USER_PORT + d)) m]).
Proof.
  intros Ra Rb Rc W Fb Fc Fd.
  destruct (sendThrough_run ra rb rc nodes m d w Ra Rb Rc) as (ek2 & ek1 & ek0 & S).
  cbv zeta in S. destruct S as (E2 & E1 & E0 & S).
  destruct Ra as (na & _ & _ & Pa & Ma).
  destruct Rb as (nb & _ & _ & Pb & Mb).
  destruct Rc as (nc & _ & _ & Pc & Mc).
  set (l2 := layer (entropy w) ek2
               (str "000000" ++ number_to_string (BASE_USER_PORT + d) ++ m)) in *.
  set (l1 := layer (3 + entropy w) ek1
               (str "000000" ++ number_to_string (BASE_ONION_ROUTER_PORT + relay_id rc) ++ l2)) in *.
  set (l0 := layer (6 + entropy w) ek0
               (str "000000" ++ number_to_string (BASE_ONION_ROUTER_PORT + relay_id rb) ++ l1)) in *.
  exists l0, l1, l2. eexists. split; [exact S|]. split; [reflexivity|].
  assert (W2 : Utf8.well_formed l2 = true) by apply well_formed_ascii, layer_ascii.
  assert (W1 : Utf8.well_formed l1 = true) by apply well_formed_ascii, layer_ascii.
  repeat split; intros rw.
  - destruct (peel_framed ra _ _ ek0 _ l1 rw Pa Ma E0 W1 Fb) as (rw' & R & O & _). eauto.
  - destruct (peel_framed rb _ _ ek1 _ l2 rw Pb Mb E1 W2 Fc) as (rw' & R & O & _). eauto.
  - destruct (peel_framed rc _ _ ek2 _ m rw Pc Mc E2 W Fd) as (rw' & R & O & _). eauto.
Qed.

End RoundTrip.

Close Scope Z_scope.

(** ** Drawing the circuit *)

Lemma includes_In circuit id : includes circuit id = true <-> In id circuit.
Proof.
  unfold includes. rewrite existsb_exists. split.
  - intros (x & Hx & E). apply Z.eqb_eq in E. now subst.
  - intros H. exists id. split; [assumption | apply Z.eqb_refl].
Qed.

Lemma three_distinct_incl l l' : three_distinct l -> incl l l' -> three_distinct l'.
Proof.
  intros (x & y & z & Hxy & Hxz & Hyz & Hx & Hy & Hz) I.
  exists x, y, z. repeat split; auto.
Qed.

Lemma three_distinct_length l : three_distinct l -> (3 <= length l)%nat.
Proof.
  intros (x & y & z & Hxy & Hxz & Hyz & Hx & Hy & Hz).
  change 3%nat with (length [x; y; z]). apply NoDup_incl_length.
  - repeat constructor; cbn; intuition congruence.
  - intros a [<- | [<- | [<- | []]]]; assumption.
Qed.

Lemma NoDup_three_distinct l : NoDup l -> (3 <= length l)%nat -> three_distinct l.
Proof.
  intros N L. destruct l as [| x [| y [| z l]]]; cbn in L; try lia.
  inversion N as [| ? ? Nx N']; subst. inversion N' as [| ? ? Ny N'']; subst.
  exists x, y, z. cbn in *. repeat split; intuition congruence.
Qed.

Section CircuitFacts.
Context {cfg : Config} {wc : WebCrypto} {mr : MathRandom}.

Lemma buildCircuit_done fuel nodes circuit (w : World UserVars) :
  (3 <= length circuit)%nat -> buildCircuit fuel nodes circuit w = (Ok circuit, w).
Proof.
  intros H. destruct fuel; cbn [buildCircuit];
    (replace (Nat.ltb (length circuit) 3) with false
       by (symmetry; apply Nat.ltb_ge; lia)); reflexivity.
Qed.

(** One turn of the loop. *)
Lemma buildCircuit_turn fuel nodes circuit (w : World UserVars) :
  (length circuit < 3)%nat ->
  buildCircuit (S fuel) nodes circuit w =
  let w' := Build_World (S (entropy w)) (outbox w) (vars w) in
  match nth_error nodes (random_floor (entropy w) (length nodes)) with
  | None => (Throw TypeError, w')
  | Some randomNode =>
      if includes circuit (nodeId randomNode)
      then buildCircuit fuel nodes circuit w'
      else buildCircuit fuel nodes (circuit ++ [nodeId randomNode]) w'
  end.
Proof.
  intros H. cbn [buildCircuit].
  replace (Nat.ltb (length circuit) 3) with true by (symmetry; apply Nat.ltb_lt; lia).
  unfold bind, draw. cbv zeta.
  destruct (nth_error nodes (random_floor (entropy w) (length nodes))) as [nd|];
    [|reflexivity].
  now destruct (includes circuit (nodeId nd)).
Qed.

Lemma buildCircuit_stop nodes circuit (w : World UserVars) :
  (length circuit < 3)%nat -> buildCircuit 0 nodes circuit w = (Pending, w).
Proof.
  intros H. cbn [buildCircuit].
  replace (Nat.ltb (length circuit) 3) with true by (symmetry; apply Nat.ltb_lt; lia).
  reflexivity.
Qed.

(** What a circuit that is returned looks like. *)
Lemma buildCircuit_safe fuel nodes :
  forall circuit (w w' : World UserVars) c,
    NoDup circuit -> incl circuit (map nodeId nodes) -> (length circuit <= 3)%nat ->
    buildCircuit fuel nodes circuit w = (Ok c, w') ->
    length c = 3%nat /\ NoDup c /\ incl c (map nodeId nodes)
    /\ outbox w' = outbox w /\ vars w' = vars w.
Proof.
  induction fuel as [| fuel IH]; intros circuit w w' c N I L R.
  - destruct (Nat.lt_ge_cases (length circuit) 3) as [Lt | Ge].
    + rewrite buildCircuit_stop in R by assumption. discriminate.
    + rewrite buildCircuit_done in R by assumption. injection R as <- <-.
      repeat split; auto. lia.
  - destruct (Nat.lt_ge_cases (length circuit) 3) as [Lt | Ge].
    + rewrite buildCircuit_turn in R by assumption. cbv zeta in R.
      destruct (nth_error nodes (random_floor (entropy w) (length nodes)))
        as [nd|] eqn:E; [|discriminate].
      destruct (includes circuit (nodeId nd)) eqn:Inc.
      * apply IH in R; auto.
      * apply IH in R; auto.
        -- apply NoDup_app; [assumption | repeat constructor; intros [] |].
           intros a Ha [<- | []].
           apply includes_In in Ha. congruence.
        -- apply incl_app; [assumption|].
           intros a [<- | []]. apply in_map. eapply nth_error_In; eassumption.
        -- rewrite length_app. cbn [length]. lia.
    + rewrite buildCircuit_done in R by assumption. injection R as <- <-.
      repeat split; auto. lia.
Qed.

Lemma drawn_ids_S nodes e n :
  drawn_ids nodes e (S n) =
  match nth_error nodes (random_floor e (length nodes)) with
  | Some node => [nodeId node]
  | None => []
  end ++ drawn_ids nodes (S e) n.
Proof. reflexivity. Qed.

Lemma drawn_ids_incl nodes e n : incl (drawn_ids nodes e n) (map nodeId nodes).
Proof.
  revert e. induction n as [| n IH]; intros e; [intros a []|].
  rewrite drawn_ids_S. apply incl_app; [|apply IH].
  destruct (nth_error nodes (random_floor e (length nodes))) as [nd|] eqn:E;
    [|intros a []].
  intros a [<- | []]. apply in_map. eapply nth_error_In; eassumption.
Qed.

(** The loop ends once the draws have picked three different identifiers. *)
Lemma buildCircuit_live {mrl : MathRandomLaws mr} fuel nodes :
  forall circuit (w : World UserVars),
    three_distinct (circuit ++ drawn_ids nodes (entropy w) fuel) ->
    exists c w', buildCircuit fuel nodes circuit w = (Ok c, w').
Proof.
  induction fuel as [| fuel IH]; intros circuit w T.
  - destruct (Nat.lt_ge_cases (length circuit) 3) as [Lt | Ge].
    + apply three_distinct_length in T. cbn [drawn_ids seq flat_map] in T.
      rewrite app_nil_r in T. lia.
    + rewrite buildCircuit_done by assumption. eauto.
  - destruct (Nat.lt_ge_cases (length circuit) 3) as [Lt | Ge].
    + rewrite buildCircuit_turn by assumption. cbv zeta.
      rewrite drawn_ids_S in T.
      destruct (nth_error nodes (random_floor (entropy w) (length nodes)))
        as [nd|] eqn:E.
      * destruct (includes circuit (nodeId nd)) eqn:Inc.
        -- apply IH. cbn [entropy]. eapply three_distinct_incl; [exact T|].
           apply includes_In in Inc.
           intros a Ha. apply in_app_or in Ha as [Ha | [<- | Ha]];
             apply in_or_app; auto.
        -- apply IH. cbn [entropy]. now rewrite <- app_assoc.
      * exfalso. apply nth_error_None in E.
        destruct nodes as [| n0 nodes'].
        -- assert (I := drawn_ids_incl [] (S (entropy w)) fuel).
           apply three_distinct_length in T. rewrite length_app in T.
           cbn [app length] in T.
           destruct (drawn_ids [] (S (entropy w)) fuel) as [| a l];
             [cbn in T; lia | destruct (I a (or_introl eq_refl))].
        -- pose proof (random_floor_lt (entropy w) (length (n0 :: nodes'))
                         ltac:(cbn; lia)). lia.
    + rewrite buildCircuit_done by assumption. eauto.
Qed.

(** With fewer than three identifiers to draw from, the loop never ends. *)
Lemma buildCircuit_spins {mrl : MathRandomLaws mr} fuel nodes :
  nodes <> [] -> ~ three_distinct (map nodeId nodes) ->
  forall circuit (w : World UserVars),
    NoDup circuit -> incl circuit (map nodeId nodes) ->
    exists w', buildCircuit fuel nodes circuit w = (Pending, w')
               /\ outbox w' = outbox w.
Proof.
  intros Hne Hfew. induction fuel as [| fuel IH]; intros circuit w N I.
  - assert (Lt : (length circuit < 3)%nat).
    { destruct (Nat.lt_ge_cases (length circuit) 3) as [Lt | Ge]; [assumption|].
      exfalso. apply Hfew. eapply three_distinct_incl; [|exact I].
      now apply NoDup_three_distinct. }
    rewrite buildCircuit_stop by assumption. eauto.
  - assert (Lt : (length circuit < 3)%nat).
    { destruct (Nat.lt_ge_cases (length circuit) 3) as [Lt | Ge]; [assumption|].
      exfalso. apply Hfew. eapply three_distinct_incl; [|exact I].
      now apply NoDup_three_distinct. }
    rewrite buildCircuit_turn by assumption. cbv zeta.
    destruct (nth_error nodes (random_floor (entropy w) (length nodes)))
      as [nd|] eqn:E.
    + destruct (includes circuit (nodeId nd)) eqn:Inc.
      * destruct (IH circuit (Build_World (S (entropy w)) (outbox w) (vars w)) N I)
          as (w' & R & O). eauto.
      * edestruct (IH (circuit ++ [nodeId nd])
                     (Build_World (S (entropy w)) (outbox w) (vars w)))
          as (w' & R & O); [| | eauto].
        -- apply NoDup_app; [assumption | repeat constructor; intros [] |].
           intros a Ha [<- | []]. apply includes_In in Ha. congruence.
        -- apply incl_app; [assumption|].
           intros a [<- | []]. apply in_map. eapply nth_error_In; eassumption.
    + exfalso. apply nth_error_None in E.
      destruct nodes as [| n0 nodes']; [congruence|].
      pose proof (random_floor_lt (entropy w) (length (n0 :: nodes'))
                    ltac:(cbn; lia)). lia.
Qed.

(** With no node at all, the first turn reads a property of undefined. *)
Lemma buildCircuit_empty fuel (w : World UserVars) :
  buildCircuit (S fuel) [] [] w
  = (Throw TypeError, Build_World (S (entropy w)) (outbox w) (vars w)).
Proof.
  rewrite buildCircuit_turn by (cbn; lia). cbv zeta.
  now destruct (random_floor (entropy w) (length (@nil Node))).
Qed.

End CircuitFacts.

(** ** A relay that is not in the snapshot *)
Section UnknownNode.
Context {cfg : Config} {wc : WebCrypto}.

Lemma importPubKey_settles strKey : importPubKey strKey <> Pending.
Proof. unfold importPubKey. destruct (spki_import _); discriminate. Qed.

(** A turn of the wrapping loop sends nothing, assigns nothing, and settles. *)
Lemma wrapLayer_frame nodes circuit d i msg (w w' : World UserVars) r :
  wrapLayer nodes circuit d i msg w = (r, w') ->
  outbox w' = outbox w /\ vars w' = vars w /\ r <> Pending.
Proof.
  unfold wrapLayer.
  destruct (find_node nodes (nth i circuit 0%Z)) as [node|].
  - unfold bind at 1. unfold createRandomSymmetricKey, bind at 1. cbn [draw ret].
    unfold bind at 1. rewrite symEncrypt_run. cbn [entropy outbox vars].
    unfold bind at 1. unfold rsaEncrypt, bind, await, draw.
    pose proof (importPubKey_settles (pubKey node)) as Hs.
    destruct (importPubKey (pubKey node)) as [pk | e |]; [| | congruence].
    + cbn [entropy outbox vars].
      destruct (rsa_oaep_encrypt pk _ _); cbn [ret throw entropy outbox vars];
        intros R; injection R as <- <-; repeat split; discriminate.
    + intros R; injection R as <- <-; repeat split; discriminate.
  - intros R; injection R as <- <-; repeat split; discriminate.
Qed.




End UnknownNode.

(** ** The mock platform satisfies the laws *)

Lemma mock_decrypt_encrypt k seed data c :
  Mock.encrypt k seed data = Some c -> Mock.decrypt k c = Some data.
Proof.
  unfold Mock.encrypt, Mock.decrypt.
  remember (254 - length data)%nat as padding eqn:Hp.
  destruct (Nat.leb_spec (length data + 66) 256) as [L | G]; [|discriminate].
  intros E. injection E as <-.
  assert (Hl : length (k :: byte_of_N (N.of_nat (length data))
                         :: data ++ repeat Byte.x00 padding) = 256%nat).
  { cbn [length]. rewrite length_app, repeat_length. lia. }
  cbv beta iota.
  rewrite Hl, Nat.eqb_refl, Byte.byte_dec_lb by reflexivity. cbn [andb]. f_equal.
  rewrite to_N_byte_of_N by lia. rewrite Nat2N.id.
  rewrite firstn_app, Nat.sub_diag, firstn_all. cbn [firstn]. apply app_nil_r.
Qed.

Lemma mock_crypto_laws : WebCryptoLaws Mock.crypto.
Proof.
  constructor; cbn.
  - reflexivity.
  - reflexivity.
  - auto.
  - intros pk seed data c. unfold Mock.encrypt.
    remember (254 - length data)%nat as padding eqn:Hp.
    destruct (Nat.leb_spec (length data + 66) 256) as [L | G]; [|discriminate].
    intros E. injection E as <-.
    cbn [length]. rewrite length_app, repeat_length. lia.
  - intros pk seed data H. unfold Mock.encrypt.
    destruct (Nat.leb_spec (length data + 66) 256) as [L | G]; [eauto | lia].
  - intros pk sk seed data c <-. apply mock_decrypt_encrypt.
  - reflexivity.
  - intros i n. apply repeat_length.
Qed.

Lemma mock_random_laws : MathRandomLaws Mock.random.
Proof.
  constructor; cbn.
  - intros i n H. destruct (Nat.eqb_spec n 0); [lia|].
    apply Nat.mod_upper_bound. assumption.
  - reflexivity.
Qed.

Lemma mock_registered_A : registered Mock.nodes Mock.relayA.
Proof. exists (Mock.node_of Mock.relayA). repeat split. Qed.
Lemma mock_registered_B : registered Mock.nodes Mock.relayB.
Proof. exists (Mock.node_of Mock.relayB). repeat split. Qed.
Lemma mock_registered_C : registered Mock.nodes Mock.relayC.
Proof. exists (Mock.node_of Mock.relayC). repeat split. Qed.

Local Open Scope Z_scope.

Lemma importPrvKey_settles {wc : WebCrypto} strKey : importPrvKey strKey <> Pending.
Proof. unfold importPrvKey. destruct (pkcs8_import _); discriminate. Qed.

Lemma rsaDecrypt_settles {wc : WebCrypto} data key : rsaDecrypt data key <> Pending.
Proof. unfold rsaDecrypt. destruct (rsa_oaep_decrypt _ _); discriminate. Qed.

(** * The claims *)

Section Claims.
Context {cfg : Config} {wc : WebCrypto} {mr : MathRandom}.

(** Claim C2: a relay that peels a message and recovers the address of a
    relay forwards to that relay's /message exactly the decrypted message
    without its ten-character destination field: one layer is stripped and
    nothing is put before or after the rest.  The ports of the relays are
    not below the ports of the users. *)
Theorem router_forwards_remainder prv message (rw rw' : World RouterVars) id :
  BASE_USER_PORT <= BASE_ONION_ROUTER_PORT -> 0 <= id ->
  router_message prv message rw = (Ok tt, rw') ->
  lastMessageDestination (vars rw') = Some (Some (BASE_ONION_ROUTER_PORT + id)) ->
  exists privateKey symmetricKeyBase64 decryptedMessage,
    importPrvKey prv = Ok privateKey
    /\ rsaDecrypt (slice message 0 344) privateKey = Ok symmetricKeyBase64
    /\ symDecrypt symmetricKeyBase64 (slice_from message 344) = Ok decryptedMessage
    /\ decryptedMessage = slice decryptedMessage 0 10 ++ slice_from decryptedMessage 10
    /\ outbox rw' = outbox rw
         ++ [PostMessage (Some (BASE_ONION_ROUTER_PORT + id)) (slice_from decryptedMessage 10)].
Proof.
  intros Hcfg Hid R D.
  destruct (router_message_inv prv message rw rw' R) as (sk & kb & dm & H1 & H2 & H3 & ->).
  exists sk, kb, dm. repeat split; try assumption.
  - symmetry. apply slice_split.
  - unfold forwarded in *. cbn [vars outbox lastMessageDestination] in *.
    injection D as D. rewrite D. cbn [number_ge].
    replace (BASE_USER_PORT <=? BASE_ONION_ROUTER_PORT + id) with true
      by (symmetry; apply Z.leb_le; lia).
    reflexivity.
Qed.

(** Claim C3, on the code: with fewer than three different identifiers in
    the snapshot, /sendMessage never settles when there is a node (whatever
    the number of turns, the loop is still running and nothing was sent),
    and it throws a TypeError when there is none.  No error reports the
    missing nodes. *)
Theorem sendMessage_too_few_nodes {mrl : MathRandomLaws mr}
    nodes message d (w : World UserVars) fuel :
  ~ three_distinct (map nodeId nodes) ->
  (nodes <> [] ->
   exists w', sendMessage fuel nodes message d w = (Pending, w')
              /\ outbox w' = outbox w)
  /\ (nodes = [] ->
      exists w', sendMessage (S fuel) nodes message d w = (Throw TypeError, w')
                 /\ outbox w' = outbox w).
Proof.
  intros Hfew. split.
  - intros Hne.
    destruct (buildCircuit_spins fuel nodes Hne Hfew [] w (NoDup_nil _)
                ltac:(intros a []))
      as (w' & R & O).
    exists w'. unfold sendMessage, bind. rewrite R. auto.
  - intros ->. eexists. unfold sendMessage, bind. rewrite buildCircuit_empty.
    split; reflexivity.
Qed.

(** Claim C6: the circuit of a send has exactly three elements, none
    repeated, all of them identifiers of the snapshot; and the loop returns
    it as soon as the draws have picked three different identifiers. *)
Theorem buildCircuit_three_distinct {mrl : MathRandomLaws mr}
    nodes fuel (w : World UserVars) :
  (forall circuit w',
     buildCircuit fuel nodes [] w = (Ok circuit, w') ->
     length circuit = 3%nat /\ NoDup circuit /\ incl circuit (map nodeId nodes))
  /\ (three_distinct (drawn_ids nodes (entropy w) fuel) ->
      exists circuit w', buildCircuit fuel nodes [] w = (Ok circuit, w')).
Proof.
  split.
  - intros circuit w' R.
    destruct (buildCircuit_safe fuel nodes [] w w' circuit (NoDup_nil _)
                ltac:(intros a []) ltac:(cbn; lia) R) as (L & N & I & _).
    auto.
  - intros T. now apply buildCircuit_live.
Qed.




(** Claim C10: validateEncryption always settles with a boolean and never
    throws; the boolean is true exactly when the private key imports, the
    decryption succeeds and its base64 equals the expected string. *)
Theorem validateEncryption_total {V} encryptedMessage decryptedMessage privateKey
    (w : World V) :
  exists b,
    validateEncryption encryptedMessage decryptedMessage privateKey w = (Ok b, w)
    /\ (b = true <->
        exists key decrypted,
          importPrvKey privateKey = Ok key
          /\ rsaDecrypt encryptedMessage key = Ok decrypted
          /\ decrypted = decryptedMessage).
Proof.
  unfold validateEncryption, try_catch, bind, await, ret.
  pose proof (importPrvKey_settles privateKey) as S1.
  destruct (importPrvKey privateKey) as [key | e |] eqn:H1; [| | congruence].
  - pose proof (rsaDecrypt_settles encryptedMessage key) as S2.
    destruct (rsaDecrypt encryptedMessage key) as [dec | e |] eqn:H2; [| | congruence].
    + eexists. split; [reflexivity|]. rewrite jsstring_eqb_eq. split.
      * intros E. exists key, dec. auto.
      * intros (k & dc & Hk & Hd & E). congruence.
    + exists false. split; [reflexivity|]. split; [discriminate|].
      intros (k & dc & Hk & Hd & E). congruence.
  - exists false. split; [reflexivity|]. split; [discriminate|].
    intros (k & dc & Hk & Hd & E). discriminate.
Qed.

Context {laws : WebCryptoLaws wc}.

(** Claim C5: what rsaEncrypt returns under a 2048-bit public key is a
    string of exactly 344 characters, so the split of a wire message at
    index 344 gives back the wrapped key and what follows it. *)
Theorem wrapped_key_is_344 {V} b64Data strPublicKey publicKey (w w' : World V) wrapped :
  importPubKey strPublicKey = Ok publicKey ->
  modulus_bytes publicKey = 256%nat ->
  rsaEncrypt b64Data strPublicKey w = (Ok wrapped, w') ->
  length wrapped = 344%nat
  /\ forall rest : jsstring,
       slice (wrapped ++ rest) 0 344 = wrapped
       /\ slice_from (wrapped ++ rest) 344 = rest.
Proof.
  intros Hi Hm R.
  assert (L : length wrapped = 344%nat) by (eapply rsaEncrypt_length; eassumption).
  split; [assumption|]. intros rest.
  now rewrite slice_app_left, slice_from_app.
Qed.

(** Claim C9, amended: symDecrypt of what symEncrypt returns, under the
    exported key, is the string that was encrypted, when that string is
    well formed and does not start with U+FEFF; the base64 of symEncrypt
    decodes to a 16-byte IV followed by the ciphertext under that IV. *)
Theorem symDecrypt_symEncrypt {V} key (s : jsstring) (w : World V) :
  aes_key_ok key = true ->
  Utf8.well_formed s = true -> hd_error s <> Some 0xFEFF%N ->
  exists c w' iv,
    symEncrypt key s w = (Ok c, w')
    /\ length iv = 16%nat
    /\ base64ToArrayBuffer c = iv ++ aes_cbc_encrypt key iv (TextEncoder_encode s)
    /\ symDecrypt (exportSymKey key) c = Ok s.
Proof.
  intros Hk W Hb. rewrite symEncrypt_run.
  eexists. eexists. exists (random_bytes (entropy w) 16).
  split; [reflexivity|].
  split; [apply random_bytes_length|].
  split; [apply base64_decode_encode|].
  apply symDecrypt_combined; auto using random_bytes_length.
Qed.

End Claims.

(** A byte order mark at the start of the text does not come back. *)
Lemma text_decode_encode_bom s :
  Utf8.well_formed s = true ->
  TextDecoder_decode (TextEncoder_encode (0xFEFF%N :: s)) = s.
Proof.
  intros W. unfold TextDecoder_decode, TextEncoder_encode, Utf8.decode.
  change (Utf8.encode (0xFEFF%N :: s))
    with (Byte.xef :: Byte.xbb :: Byte.xbf :: Utf8.encode s).
  change (Utf8.strip_bom (Byte.xef :: Byte.xbb :: Byte.xbf :: Utf8.encode s))
    with (Utf8.encode s).
  now apply utf8_run_encode.
Qed.

(** An unpaired surrogate comes back as U+FFFD. *)
Example lone_surrogate_replaced :
  TextDecoder_decode (TextEncoder_encode [0xD800%N]) = [0xFFFD%N].
Proof. reflexivity. Qed.

(** ** registry.ts *)

(** Claim C8, amended: the register operation is an add that keeps
    duplicates.  It puts the record at the end of the list, behind every
    record that was there.  Registering the same record twice leaves the
    same set of records as registering it once, and /getNodeRegistry
    answers with the same set either way; but the list then holds the
    record twice. *)
Theorem registerNode_twice_same_set (body : Node) (nodes : Registry.State) :
  Registry.getNodeRegistry (Registry.registerNode body nodes)
  = Registry.getNodeRegistry nodes ++ [body]
  /\ Registry.getNodeRegistry
       (Registry.registerNode body (Registry.registerNode body nodes))
     = Registry.getNodeRegistry nodes ++ [body; body]
  /\ (forall record,
        In record (Registry.getNodeRegistry
                     (Registry.registerNode body (Registry.registerNode body nodes)))
        <-> In record (Registry.getNodeRegistry (Registry.registerNode body nodes))).
Proof.
  destruct body as [i k]. unfold Registry.getNodeRegistry, Registry.registerNode.
  cbn [nodeId pubKey]. split; [reflexivity|]. split.
  - now rewrite <- app_assoc.
  - intros record. rewrite !in_app_iff. cbn [In]. tauto.
Qed.

(** The array itself keeps both records. *)
Lemma registerNode_appends (body : Node) (nodes : Registry.State) :
  Registry.getNodeRegistry (Registry.registerNode body nodes) = nodes ++ [body]
  /\ length (Registry.registerNode body (Registry.registerNode body nodes))
     = S (length (Registry.registerNode body nodes)).
Proof.
  destruct body as [i k]. unfold Registry.getNodeRegistry, Registry.registerNode.
  cbn [nodeId pubKey]. split; [reflexivity|].
  rewrite !length_app. cbn [length]. lia.
Qed.

(** ** The whole handler of /sendMessage *)
Section SendMessage.
Context {cfg : Config} {wc : WebCrypto} {mr : MathRandom}.

(** A turn for a relay of the snapshot can only fail on its key. *)
Lemma wrapLayer_found_result nodes circuit d i msg (w w' : World UserVars) r node :
  find_node nodes (nth i circuit 0) = Some node ->
  wrapLayer nodes circuit d i msg w = (r, w') ->
  (exists l, r = Ok l) \/ r = Throw DataError \/ r = Throw OperationError.
Proof.
  intros F. unfold wrapLayer. rewrite F.
  unfold bind at 1. unfold createRandomSymmetricKey, bind at 1. cbn [draw ret].
  unfold bind at 1. rewrite symEncrypt_run. cbn [entropy outbox vars].
  unfold bind at 1. unfold rsaEncrypt, bind, await, draw.
  unfold importPubKey.
  destruct (spki_import (base64ToArrayBuffer (pubKey node))) as [pk|].
  - cbn [entropy outbox vars].
    destruct (rsa_oaep_encrypt pk _ _); cbn [ret throw];
      intros R; injection R as <- _; eauto.
  - intros R; injection R as <- _; auto.
Qed.

Lemma wrap_found_result nodes circuit d k :
  forall msg (w w' : World UserVars) r,
    (forall i, (i < k)%nat -> find_node nodes (nth i circuit 0) <> None) ->
    wrap nodes circuit d k msg w = (r, w') ->
    outbox w' = outbox w /\ vars w' = vars w
    /\ ((exists l, r = Ok l) \/ r = Throw DataError \/ r = Throw OperationError).
Proof.
  induction k as [| k IH]; intros msg w w' r Hf R.
  - cbn [wrap ret] in R. injection R as <- <-. eauto.
  - cbn [wrap] in R.
    destruct (wrapLayer nodes circuit d k msg w) as [r1 w1] eqn:R1.
    destruct (wrapLayer_frame _ _ _ _ _ _ _ _ R1) as (O1 & V1 & _).
    destruct (find_node nodes (nth k circuit 0)) as [node|] eqn:F;
      [|exfalso; apply (Hf k); [lia | assumption]].
    destruct (wrapLayer_found_result _ _ _ _ _ _ _ _ _ F R1) as [[l ->] | [-> | ->]].
    + rewrite (bind_ok _ _ _ _ _ R1) in R.
      apply IH in R; [|intros i Hi; apply Hf; lia].
      destruct R as (O & V & K). repeat split; congruence.
    + rewrite (bind_throw _ _ _ _ _ R1) in R. injection R as <- <-. auto.
    + rewrite (bind_throw _ _ _ _ _ R1) in R. injection R as <- <-. auto.
Qed.

Lemma find_node_In nodes id : In id (map nodeId nodes) -> find_node nodes id <> None.
Proof.
  intros H N. apply in_map_iff in H as (node & <- & Hin).
  unfold find_node in N. eapply find_none in N; [|eassumption].
  cbv beta in N. rewrite Z.eqb_refl in N. discriminate.
Qed.

(** On the way through /sendMessage the lookup of a relay of the circuit
    never fails: the circuit is drawn from the snapshot the lookup reads. *)
Theorem sendMessage_never_unknown fuel nodes message d (w : World UserVars) :
  exists r w',
    sendMessage fuel nodes message d w = (r, w')
    /\ forall id, r <> Throw (NodeNotFound id).
Proof.
  unfold sendMessage, bind at 1.
  destruct (buildCircuit fuel nodes [] w) as [[circuit | e |] w1] eqn:B.
  - destruct (buildCircuit_safe fuel nodes [] w w1 circuit (NoDup_nil _)
                ltac:(intros a []) ltac:(cbn; lia) B) as (L & N & I & _).
    unfold sendThrough.
    set (w0 := Build_World (entropy w1) (outbox w1) (set_lastCircuit circuit (vars w1))).
    rewrite (bind_ok (assign (set_lastCircuit circuit)) _ w1 tt w0 eq_refl).
    destruct (wrap nodes circuit d (length circuit) message w0) as [r2 w2] eqn:W.
    destruct (wrap_found_result nodes circuit d (length circuit) message w0 w2 r2) as (_ & _ & K).
    { intros i Hi. apply find_node_In, I. now apply nth_In. }
    { exact W. }
    destruct K as [[l ->] | [-> | ->]].
    + rewrite (bind_ok _ _ _ _ _ W). eexists. eexists. split; [reflexivity|].
      intros id. discriminate.
    + rewrite (bind_throw _ _ _ _ _ W). eexists. eexists. split; [reflexivity|].
      intros id. discriminate.
    + rewrite (bind_throw _ _ _ _ _ W). eexists. eexists. split; [reflexivity|].
      intros id. discriminate.
  - eexists. eexists. split; [reflexivity|]. intros id E.
    (* the loop throws only a TypeError *)
    assert (T : forall f c (u u' : World UserVars) x,
               buildCircuit f nodes c u = (Throw x, u') -> x = TypeError).
    { clear. induction f as [| f IH]; intros c u u' x R.
      - destruct (Nat.lt_ge_cases (length c) 3) as [Lt | Ge].
        + rewrite buildCircuit_stop in R by assumption. discriminate.
        + rewrite buildCircuit_done in R by assumption. discriminate.
      - destruct (Nat.lt_ge_cases (length c) 3) as [Lt | Ge].
        + rewrite buildCircuit_turn in R by assumption. cbv zeta in R.
          destruct (nth_error nodes _) as [nd|]; [|now injection R].
          destruct (includes c (nodeId nd)); eapply IH; eassumption.
        + rewrite buildCircuit_done in R by assumption. discriminate. }
    injection E as ->. apply T in B. discriminate.
  - eexists. eexists. split; [reflexivity|]. intros id. discriminate.
Qed.

Context {laws : WebCryptoLaws wc} {mrl : MathRandomLaws mr}.



End SendMessage.

Lemma find_app_or {A} (f : A -> bool) l l' :
  find f (l ++ l') = match find f l with Some x => Some x | None => find f l' end.
Proof.
  induction l as [| a l IH]; [reflexivity|].
  cbn [app find]. now destruct (f a).
Qed.

(** ** What the framing does to other strings and ports *)
Section Framing.
Context {cfg : Config} {wc : WebCrypto} {laws : WebCryptoLaws wc}.

(** A string that starts with U+FEFF comes back from symDecrypt without it. *)
Theorem symDecrypt_symEncrypt_bom {V} key (s : jsstring) (w : World V) :
  aes_key_ok key = true -> Utf8.well_formed s = true ->
  exists c w',
    symEncrypt key (0xFEFF%N :: s) w = (Ok c, w')
    /\ symDecrypt (exportSymKey key) c = Ok s.
Proof.
  intros Hk W. rewrite symEncrypt_run. eexists. eexists. split; [reflexivity|].
  unfold symDecrypt.
  rewrite importSymKey_exportSymKey by assumption. cbn [rbind].
  rewrite base64_decode_encode.
  rewrite slice_app_left, slice_from_app by apply random_bytes_length.
  rewrite aes_cbc_decrypt_encrypt by auto using random_bytes_length.
  now rewrite text_decode_encode_bom.
Qed.

(** A payload framed for a port of five digits, cut at ten characters. *)
Lemma destination_slice_5 (p : Z) (inner : jsstring) :
  10000 <= p <= 99999 ->
  let dm := str "000000" ++ number_to_string p ++ inner in
  slice dm 0 10 = str "000000" ++ number_to_string (p / 10)
  /\ slice_from dm 10 = Z.to_N (48 + p mod 10) :: inner
  /\ parseInt (slice dm 0 10) = Some (p / 10).
Proof.
  intros [L U] dm.
  assert (E : number_to_string p
              = N_to_string (Z.to_N (p / 10)) ++ [Z.to_N (48 + p mod 10)]).
  { unfold number_to_string. destruct (Z.ltb_spec p 0); [lia|].
    rewrite N_to_string_step by lia. f_equal; [f_equal|f_equal]; lia. }
  assert (E' : number_to_string (p / 10) = N_to_string (Z.to_N (p / 10))).
  { unfold number_to_string. destruct (Z.ltb_spec (p / 10) 0); [lia | reflexivity]. }
  assert (Hlen : length (str "000000" ++ N_to_string (Z.to_N (p / 10))) = 10%nat).
  { rewrite length_app, N_to_string_length_4 by lia. reflexivity. }
  assert (S1 : dm = (str "000000" ++ N_to_string (Z.to_N (p / 10)))
                    ++ Z.to_N (48 + p mod 10) :: inner).
  { subst dm. rewrite E, <- !app_assoc. reflexivity. }
  rewrite S1, slice_app_left, slice_from_app, E' by assumption.
  repeat split.
  rewrite <- (app_nil_r (N_to_string (Z.to_N (p / 10)))).
  rewrite parseInt_padded by exact I. f_equal. lia.
Qed.

(** A layer framed for a port of five digits: the relay that peels it reads
    the first four digits as the port and forwards the fifth digit in front
    of the rest. *)
Theorem five_digit_port_misrouted (r : Relay) e seed ek (p : Z) inner
    (rw : World RouterVars) :
  rsa_pair (relay_pub r) (relay_prv r) ->
  modulus_bytes (relay_pub r) = 256%nat ->
  rsa_oaep_encrypt (relay_pub r) seed (random_bytes e 32) = Some ek ->
  Utf8.well_formed inner = true ->
  10000 <= p <= 99999 -> BASE_USER_PORT <= p / 10 ->
  exists rw',
    router_message (prvKeyBase64 r)
      (layer e ek (str "000000" ++ number_to_string p ++ inner)) rw = (Ok tt, rw')
    /\ outbox rw' = outbox rw
         ++ [PostMessage (Some (p / 10)) (Z.to_N (48 + p mod 10) :: inner)].
Proof.
  intros Hp Hm Hek W H5 Hge.
  destruct (framed_well_formed p inner W) as [Wf Hb].
  destruct (destination_slice_5 p inner H5) as (S1 & S2 & S3).
  eexists. split; [apply (peel_layer r e seed ek _ (p / 10)); assumption|].
  unfold forwarded. cbn [outbox].
  rewrite S3, S2. cbn [number_ge].
  apply Z.leb_le in Hge. now rewrite Hge.
Qed.

(** A router that has started holds the private key of the public key it
    sent to the registry: once the registry has taken the request, the
    router is a registered relay. *)
Theorem started_router_registered id (w w' : World RouterVars) prv (nodes : Registry.State) :
  simpleOnionRouter id w = (Ok prv, w') ->
  exists r : Relay,
    relay_id r = id
    /\ prvKeyBase64 r = prv
    /\ outbox w' = outbox w ++ [PostRegisterNode id (exportPubKey (relay_pub r))]
    /\ (find_node nodes id = None ->
        registered
          (Registry.registerNode
             {| nodeId := id; pubKey := exportPubKey (relay_pub r) |} nodes) r).
Proof.
  unfold simpleOnionRouter, generateRsaKeyPair, bind, draw, ret, fetch.
  cbn [entropy outbox vars exportPrvKey].
  set (keys := rsa_generate (entropy w)).
  destruct (arrayBufferToBase64 (pkcs8_export (snd keys))) as [| c prv'] eqn:E;
    [discriminate|].
  intros R. injection R as <- <-.
  exists {| relay_id := id; relay_pub := fst keys; relay_prv := snd keys |}.
  cbn [relay_id relay_pub relay_prv outbox]. unfold prvKeyBase64. cbn [relay_prv].
  repeat split; try assumption.
  intros Hnone.
  exists {| nodeId := id; pubKey := exportPubKey (fst keys) |}.
  cbn [relay_id relay_pub relay_prv pubKey].
  destruct (rsa_generate_pair (entropy w)) as [Hp Hm]. fold keys in Hp, Hm.
  repeat split; try assumption.
  - unfold Registry.registerNode, find_node in *. cbn [nodeId pubKey].
    rewrite find_app_or, Hnone. cbn [find nodeId]. now rewrite Z.eqb_refl.
  - apply importPubKey_exportPubKey.
Qed.

(** base64ToArrayBuffer undoes arrayBufferToBase64, whose result has four
    characters for every three bytes, rounded up, all of them ASCII. *)
Theorem base64_round_trip (buffer : list byte) :
  base64ToArrayBuffer (arrayBufferToBase64 buffer) = buffer
  /\ length (arrayBufferToBase64 buffer) = (4 * ((length buffer + 2) / 3))%nat
  /\ ascii_only (arrayBufferToBase64 buffer).
Proof.
  split; [apply base64_decode_encode|].
  split; [apply base64_encode_length | apply base64_encode_ascii].
Qed.

End Framing.

(** * The statements on the mock platform

    Each statement above that has hypotheses is applied here to the mock
    platform, on concrete messages; the inputs on which a claim fails are
    run here too. *)
Section OnTheMock.
Import Mock.

Lemma onion_round_trip_witness :
  exists m0 m1 m2 w',
    sendThrough nodes [relay_id relayA; relay_id relayB; relay_id relayC]
      (str "hello") 1 user_world = (Ok tt, w')
    /\ outbox w' = outbox user_world
         ++ [PostMessage (Some (BASE_ONION_ROUTER_PORT + relay_id relayA)) m0]
    /\ (forall rw, exists rw',
          router_message (prvKeyBase64 relayA) m0 rw = (Ok tt, rw')
          /\ outbox rw' = outbox rw
               ++ [PostMessage (Some (BASE_ONION_ROUTER_PORT + relay_id relayB)) m1])
    /\ (forall rw, exists rw',
          router_message (prvKeyBase64 relayB) m1 rw = (Ok tt, rw')
          /\ outbox rw' = outbox rw
               ++ [PostMessage (Some (BASE_ONION_ROUTER_PORT + relay_id relayC)) m2])
    /\ (forall rw, exists rw',
          router_message (prvKeyBase64 relayC) m2 rw = (Ok tt, rw')
          /\ outbox rw' = outbox rw
               ++ [PostMessage (Some (BASE_USER_PORT + 1)) (str "hello")]).
Proof.
  apply (onion_round_trip (laws := mock_crypto_laws)).
  - exact mock_registered_A.
  - exact mock_registered_B.
  - exact mock_registered_C.
  - reflexivity.
  - unfold forwardable, four_digits. cbn. lia.
  - unfold forwardable, four_digits. cbn. lia.
  - unfold forwardable, four_digits. cbn. lia.
Defined.

(** Claim C1 as stated fails on a plaintext with a lone surrogate: the
    relays deliver U+FFFD in its place. *)
Lemma round_trip_lone_surrogate :
  journey [0xD800%N] 1
  = ([Ok tt; Ok tt; Ok tt; Ok tt], [PostMessage (Some 3001) [0xFFFD%N]])
  /\ [0xFFFD%N] <> [0xD800%N].
Proof. split; [vm_compute; reflexivity | discriminate]. Qed.

Lemma router_forwards_remainder_witness :
  exists privateKey symmetricKeyBase64 decryptedMessage,
    importPrvKey (prvKeyBase64 relayA) = Ok privateKey
    /\ rsaDecrypt (slice onion 0 344) privateKey = Ok symmetricKeyBase64
    /\ symDecrypt symmetricKeyBase64 (slice_from onion 344) = Ok decryptedMessage
    /\ decryptedMessage = slice decryptedMessage 0 10 ++ slice_from decryptedMessage 10
    /\ outbox (snd (router_message (prvKeyBase64 relayA) onion router_world))
       = outbox router_world
         ++ [PostMessage (Some (BASE_ONION_ROUTER_PORT + 1)) (slice_from decryptedMessage 10)].
Proof.
  apply (router_forwards_remainder (prvKeyBase64 relayA) onion router_world
           (snd (router_message (prvKeyBase64 relayA) onion router_world)) 1).
  - cbn. lia.
  - lia.
  - vm_compute. reflexivity.
  - vm_compute. reflexivity.
Defined.

Lemma two_ids_not_three : ~ three_distinct (map nodeId [node_of relayA; node_of relayB]).
Proof.
  intros (x & y & z & Hxy & Hxz & Hyz & Hx & Hy & Hz).
  cbn in Hx, Hy, Hz. lia.
Qed.

Lemma sendMessage_too_few_nodes_witness :
  (exists w', sendMessage 100 [node_of relayA; node_of relayB] (str "hello") 1 user_world
              = (Pending, w')
              /\ outbox w' = outbox user_world)
  /\ (exists w', sendMessage 1 [] (str "hello") 1 user_world = (Throw TypeError, w')
                 /\ outbox w' = outbox user_world).
Proof.
  split.
  - refine (proj1 (sendMessage_too_few_nodes (mrl := mock_random_laws)
                     [node_of relayA; node_of relayB] (str "hello") 1 user_world 100
                     two_ids_not_three) _).
    discriminate.
  - refine (proj2 (sendMessage_too_few_nodes (mrl := mock_random_laws)
                     [] (str "hello") 1 user_world 0 _) eq_refl).
    intros T. apply three_distinct_length in T. cbn in T. lia.
Defined.

(** Claim C4, on the code: the destination field is "000000" followed by
    the digits of the port, so it has ten characters for port 3001 and
    eleven for port 30010; the relay still cuts ten, reads 3001 and keeps
    the last digit with the rest: "hello" for user 27010 reaches port 3001
    as "0hello". *)
Theorem destination_field_width :
  destinationField [0; 1; 2] 1 2 = str "0000003001"
  /\ destinationField [0; 1; 2] 27010 2 = str "00000030010"
  /\ length (destinationField [0; 1; 2] 1 2) = 10%nat
  /\ length (destinationField [0; 1; 2] 27010 2) = 11%nat
  /\ parseInt (slice (destinationField [0; 1; 2] 27010 2 ++ str "hello") 0 10) = Some 3001
  /\ slice_from (destinationField [0; 1; 2] 27010 2 ++ str "hello") 10 = str "0hello"
  /\ journey (str "hello") 27010
     = ([Ok tt; Ok tt; Ok tt; Ok tt], [PostMessage (Some 3001) (str "0hello")]).
Proof. repeat split; vm_compute; reflexivity. Qed.

Lemma wrapped_key_is_344_witness :
  exists wrapped w',
    rsaEncrypt (exportSymKey (random_bytes 0 32)) (pubKey (node_of relayA)) user_world
    = (Ok wrapped, w')
    /\ length wrapped = 344%nat
    /\ forall rest : jsstring,
         slice (wrapped ++ rest) 0 344 = wrapped
         /\ slice_from (wrapped ++ rest) 344 = rest.
Proof.
  eexists. eexists. split; [cbv; reflexivity|].
  eapply (wrapped_key_is_344 (laws := mock_crypto_laws)
            (exportSymKey (random_bytes 0 32)) (pubKey (node_of relayA))
            (relay_pub relayA) user_world).
  - reflexivity.
  - reflexivity.
  - cbv. reflexivity.
Defined.

Lemma buildCircuit_three_distinct_witness :
  (forall circuit w',
     buildCircuit 3 nodes [] user_world = (Ok circuit, w') ->
     length circuit = 3%nat /\ NoDup circuit /\ incl circuit (map nodeId nodes))
  /\ exists circuit w', buildCircuit 3 nodes [] user_world = (Ok circuit, w').
Proof.
  destruct (buildCircuit_three_distinct (mrl := mock_random_laws) nodes 3 user_world)
    as [Safe Live].
  split; [exact Safe|]. apply Live.
  exists 0, 1, 2. cbn. repeat split; auto; lia.
Defined.




(** Claim C8 as stated fails on the state: after the same record was
    registered twice the list holds it twice, and /getNodeRegistry answers
    with two records where one registration gives one. *)
Lemma registerNode_twice_not_once :
  Registry.getNodeRegistry
    (Registry.registerNode {| nodeId := 0; pubKey := str "AA==" |}
       (Registry.registerNode {| nodeId := 0; pubKey := str "AA==" |} Registry.launch))
  = [ {| nodeId := 0; pubKey := str "AA==" |}; {| nodeId := 0; pubKey := str "AA==" |} ]
  /\ Registry.getNodeRegistry
       (Registry.registerNode {| nodeId := 0; pubKey := str "AA==" |} Registry.launch)
     = [ {| nodeId := 0; pubKey := str "AA==" |} ]
  /\ Registry.registerNode {| nodeId := 0; pubKey := str "AA==" |}
       (Registry.registerNode {| nodeId := 0; pubKey := str "AA==" |} Registry.launch)
     <> Registry.registerNode {| nodeId := 0; pubKey := str "AA==" |} Registry.launch.
Proof. split; [reflexivity|]. split; [reflexivity | discriminate]. Qed.

Lemma symDecrypt_symEncrypt_witness :
  exists c w' iv,
    symEncrypt (random_bytes 0 32) (str "hello") user_world = (Ok c, w')
    /\ length iv = 16%nat
    /\ base64ToArrayBuffer c
       = iv ++ aes_cbc_encrypt (random_bytes 0 32) iv (TextEncoder_encode (str "hello"))
    /\ symDecrypt (exportSymKey (random_bytes 0 32)) c = Ok (str "hello").
Proof.
  apply (symDecrypt_symEncrypt (laws := mock_crypto_laws)
           (random_bytes 0 32) (str "hello") user_world).
  - reflexivity.
  - reflexivity.
  - discriminate.
Defined.

(** Claim C9 as stated fails on a string that starts with U+FEFF: the
    decoder drops it. *)
Lemma symDecrypt_drops_bom :
  exists c,
    fst (symEncrypt (random_bytes 0 32) (0xFEFF%N :: str "hello") user_world) = Ok c
    /\ symDecrypt (exportSymKey (random_bytes 0 32)) c = Ok (str "hello")
    /\ str "hello" <> 0xFEFF%N :: str "hello".
Proof.
  eexists. split; [reflexivity|]. split; [vm_compute; reflexivity | discriminate].
Qed.


Lemma symDecrypt_symEncrypt_bom_witness :
  exists c w',
    symEncrypt (random_bytes 0 32) (0xFEFF%N :: str "hello") user_world = (Ok c, w')
    /\ symDecrypt (exportSymKey (random_bytes 0 32)) c = Ok (str "hello").
Proof.
  apply (symDecrypt_symEncrypt_bom (laws := mock_crypto_laws)); reflexivity.
Defined.

Lemma five_digit_port_misrouted_witness :
  exists rw',
    router_message (prvKeyBase64 relayC)
      (layer 0 wrapped_for_C (str "000000" ++ number_to_string 30010 ++ str "hello"))
      router_world = (Ok tt, rw')
    /\ outbox rw' = outbox router_world
         ++ [PostMessage (Some (30010 / 10)) (Z.to_N (48 + 30010 mod 10) :: str "hello")].
Proof.
  apply (five_digit_port_misrouted (laws := mock_crypto_laws) relayC 0 2).
  - reflexivity.
  - reflexivity.
  - vm_compute. reflexivity.
  - reflexivity.
  - lia.
  - vm_compute. discriminate.
Defined.

Lemma started_router_registered_witness :
  exists r : Relay,
    relay_id r = 3
    /\ prvKeyBase64 r = arrayBufferToBase64 (pkcs8_export (snd (rsa_generate 0)))
    /\ outbox (snd (simpleOnionRouter 3 router_world))
       = outbox router_world ++ [PostRegisterNode 3 (exportPubKey (relay_pub r))]
    /\ (find_node nodes 3 = None ->
        registered
          (Registry.registerNode
             {| nodeId := 3; pubKey := exportPubKey (relay_pub r) |} nodes) r).
Proof.
  apply (started_router_registered (laws := mock_crypto_laws) 3 router_world
           (snd (simpleOnionRouter 3 router_world))).
  reflexivity.
Defined.

End OnTheMock.

(** * More of the handlers *)

(** ** What POST /message of a router can do *)
Section RouterOutcome.
Context {cfg : Config} {wc : WebCrypto}.




End RouterOutcome.

(** ** The destination field *)

Lemma N_to_string_length_ge k : forall n : N,
  (10 ^ N.of_nat k <= n)%N -> (S k <= length (N_to_string n))%nat.
Proof.
  induction k as [| k IH]; intros n H.
  - destruct (N.ltb_spec n 10) as [L | G].
    + rewrite N_to_string_small by assumption. cbn [length]. lia.
    + rewrite N_to_string_step, length_app by assumption. cbn [length]. lia.
  - rewrite Nat2N.inj_succ, N.pow_succ_r' in H.
    assert (P : (1 <= 10 ^ N.of_nat k)%N).
    { apply N.lt_pred_le. cbn. apply N.neq_0_lt_0, N.pow_nonzero. discriminate. }
    remember (10 ^ N.of_nat k)%N as p.
    rewrite N_to_string_step, length_app by lia. cbn [length].
    assert (S k <= length (N_to_string (n / 10)))%nat; [|lia].
    apply IH. lia.
Qed.

Lemma N_to_string_length_small (n : N) :
  (n < 1000)%N -> (length (N_to_string n) <= 3)%nat.
Proof.
  intros H.
  destruct (N.ltb_spec n 10) as [L1 | G1].
  { rewrite N_to_string_small by assumption. cbn [length]. lia. }
  destruct (N.ltb_spec n 100) as [L2 | G2].
  { rewrite (N_to_string_length n 1) by (cbn; lia). lia. }
  rewrite (N_to_string_length n 2) by (cbn; lia). lia.
Qed.

(** The digits of a number that takes four characters. *)
Lemma N_to_string_length_4_inv (n : N) :
  length (N_to_string n) = 4%nat -> (1000 <= n <= 9999)%N.
Proof.
  intros H. split.
  - destruct (N.ltb_spec n 1000) as [L | G]; [|assumption].
    apply N_to_string_length_small in L. lia.
  - destruct (N.ltb_spec n 10000) as [L | G]; [lia|].
    pose proof (N_to_string_length_ge 4 n G). lia.
Qed.

(** [parseInt] of six zeros and a minus sign. *)
Lemma parseInt_zeros_minus rest :
  parseInt (str "000000" ++ 45%N :: rest) = Some 0.
Proof. reflexivity. Qed.

(** The field the sender writes, [`000000${port}`], is read back by the
    relay's [slice(0, 10)], [slice(10)] and [parseInt] for every payload
    behind it exactly when the port has four decimal digits. *)
Theorem destination_field_exact (p : Z) :
  (forall inner : jsstring,
      let dm := str "000000" ++ number_to_string p ++ inner in
      parseInt (slice dm 0 10) = Some p /\ slice_from dm 10 = inner)
  <-> four_digits p.
Proof.
  split.
  - intros H.
    destruct (H []) as [P0 S0]. destruct (H [120%N]) as [_ S1].
    cbv zeta in *. rewrite app_nil_r in *.
    assert (Hlen : length (number_to_string p) = 4%nat).
    { apply (f_equal (@length _)) in S0, S1. unfold slice_from in S0, S1.
      rewrite length_skipn in S0, S1. rewrite !length_app in *.
      cbn [length str map list_ascii_of_string] in *. lia. }
    unfold number_to_string in *.
    destruct (Z.ltb_spec p 0) as [Neg | Pos].
    + exfalso. unfold slice in P0. cbn [Nat.sub skipn] in P0.
      cbn [length] in Hlen.
      destruct (N_to_string (Z.to_N (- p))) as [| a [| b [| c [| x l]]]];
        try discriminate.
      cbn in P0. injection P0 as P0. lia.
    + apply N_to_string_length_4_inv in Hlen. unfold four_digits. lia.
  - intros F inner. destruct (destination_slice p inner F) as (_ & S2 & S3).
    split; assumption.
Qed.

(** ** What the relays and the user see of a message *)
Section Observations.
Context {cfg : Config} {wc : WebCrypto} {laws : WebCryptoLaws wc}.

(** Peeling a layer framed for a four-digit port: what the relay records. *)
Lemma peel_framed_vars (r : Relay) e seed ek (p : Z) inner (rw : World RouterVars) :
  rsa_pair (relay_pub r) (relay_prv r) ->
  modulus_bytes (relay_pub r) = 256%nat ->
  rsa_oaep_encrypt (relay_pub r) seed (random_bytes e 32) = Some ek ->
  Utf8.well_formed inner = true ->
  four_digits p ->
  let payload := str "000000" ++ number_to_string p ++ inner in
  exists rw',
    router_message (prvKeyBase64 r) (layer e ek payload) rw = (Ok tt, rw')
    /\ outbox rw' = outbox rw
         ++ [PostMessage (Some p) (if BASE_USER_PORT <=? p then inner else payload)]
    /\ vars rw' = {| lastReceivedEncryptedMessage := Some (layer e ek payload);
                     lastReceivedDecryptedMessage := Some payload;
                     lastMessageDestination := Some (Some p) |}.
Proof.
  intros Hp Hm Hek W H4 payload.
  destruct (framed_well_formed p inner W) as [Wf Hb].
  destruct (destination_slice p inner H4) as (S1 & S2 & S3).
  eexists. split; [apply (peel_layer r e seed ek _ p); assumption|].
  unfold forwarded. cbn [outbox vars]. fold payload.
  fold payload in S1, S2, S3.
  rewrite S3, S2. cbn [number_ge].
  destruct (BASE_USER_PORT <=? p); [split; reflexivity|].
  rewrite S1. split; reflexivity.
Qed.

(** A layer framed for a four-digit port below BASE_USER_PORT: the relay
    forwards to that port, and leaves the destination field in front of
    what it forwards. *)
Theorem low_port_keeps_field (r : Relay) e seed ek (p : Z) inner
    (rw : World RouterVars) :
  rsa_pair (relay_pub r) (relay_prv r) ->
  modulus_bytes (relay_pub r) = 256%nat ->
  rsa_oaep_encrypt (relay_pub r) seed (random_bytes e 32) = Some ek ->
  Utf8.well_formed inner = true ->
  four_digits p -> p < BASE_USER_PORT ->
  exists rw',
    router_message (prvKeyBase64 r)
      (layer e ek (str "000000" ++ number_to_string p ++ inner)) rw = (Ok tt, rw')
    /\ outbox rw' = outbox rw
         ++ [PostMessage (Some p) (str "000000" ++ number_to_string p ++ inner)].
Proof.
  intros Hp Hm Hek W H4 Hlt.
  destruct (peel_framed_vars r e seed ek p inner rw Hp Hm Hek W H4) as (rw' & R & O & _).
  exists rw'. split; [exact R|]. rewrite O.
  replace (BASE_USER_PORT <=? p) with false by (symmetry; apply Z.leb_gt; lia).
  reflexivity.
Qed.

(** A message sent through three registered relays, as the GET routes show
    it afterwards: each relay has recorded the layer it received, the next
    hop as its last destination, and as decrypted message the destination
    field followed by the layer of the next hop; the last relay holds the
    plaintext behind the field of the user's port; and the user's
    /getLastReceivedMessage answers with the plaintext once its /message
    has taken the last relay's request. *)
Theorem relays_and_user_observe (ra rb rc : Relay) nodes m d (w : World UserVars) :
  registered nodes ra -> registered nodes rb -> registered nodes rc ->
  Utf8.well_formed m = true ->
  forwardable (BASE_ONION_ROUTER_PORT + relay_id rb) ->
  forwardable (BASE_ONION_ROUTER_PORT + relay_id rc) ->
  forwardable (BASE_USER_PORT + d) ->
  exists m0 m1 m2 w',
    sendThrough nodes [relay_id ra; relay_id rb; relay_id rc] m d w = (Ok tt, w')
    /\ outbox w' = outbox w ++ [PostMessage (Some (BASE_ONION_ROUTER_PORT + relay_id ra)) m0]
    /\ (forall rw, exists rw',
          router_message (prvKeyBase64 ra) m0 rw = (Ok tt, rw')
          /\ getLastReceivedEncryptedMessage rw' = (Ok (Some m0), rw')
          /\ getLastReceivedDecryptedMessage rw'
             = (Ok (Some (str "000000"
                          ++ number_to_string (BASE_ONION_ROUTER_PORT + relay_id rb) ++ m1)),
                rw')
          /\ getLastMessageDestination rw'
             = (Ok (Some (Some (BASE_ONION_ROUTER_PORT + relay_id rb))), rw'))
    /\ (forall rw, exists rw',
          router_message (prvKeyBase64 rb) m1 rw = (Ok tt, rw')
          /\ getLastReceivedEncryptedMessage rw' = (Ok (Some m1), rw')
          /\ getLastReceivedDecryptedMessage rw'
             = (Ok (Some (str "000000"
                          ++ number_to_string (BASE_ONION_ROUTER_PORT + relay_id rc) ++ m2)),
                rw')
          /\ getLastMessageDestination rw'
             = (Ok (Some (Some (BASE_ONION_ROUTER_PORT + relay_id rc))), rw'))
    /\ (forall rw, exists rw',
          router_message (prvKeyBase64 rc) m2 rw = (Ok tt, rw')
          /\ getLastReceivedEncryptedMessage rw' = (Ok (Some m2), rw')
          /\ getLastReceivedDecryptedMessage rw'
             = (Ok (Some (str "000000" ++ number_to_string (BASE_USER_PORT + d) ++ m)), rw')
          /\ getLastMessageDestination rw' = (Ok (Some (Some (BASE_USER_PORT + d))), rw')
          /\ outbox rw' = outbox rw ++ [PostMessage (Some (BASE_USER_PORT + d)) m])
    /\ (forall uw, exists uw',
          user_message m uw = (Ok tt, uw')
          /\ getLastReceivedMessage uw' = (Ok (Some m), uw')
          /\ outbox uw' = outbox uw
          /\ lastSentMessage (vars uw') = lastSentMessage (vars uw)
          /\ lastCircuit (vars uw') = lastCircuit (vars uw))
    /\ getLastSentMessage w' = (Ok (Some m), w')
    /\ getLastCircuit w' = (Ok (Some [relay_id ra; relay_id rb; relay_id rc]), w').
Proof.
  intros Ra Rb Rc W [Fb _] [Fc _] [Fd Gd].
  destruct (sendThrough_run ra rb rc nodes m d w Ra Rb Rc) as (ek2 & ek1 & ek0 & S).
  cbv zeta in S. destruct S as (E2 & E1 & E0 & S).
  destruct Ra as (na & _ & _ & Pa & Ma).
  destruct Rb as (nb & _ & _ & Pb & Mb).
  destruct Rc as (nc & _ & _ & Pc & Mc).
  set (l2 := layer (entropy w) ek2
               (str "000000" ++ number_to_string (BASE_USER_PORT + d) ++ m)) in *.
  set (l1 := layer (3 + entropy w) ek1
               (str "000000" ++ number_to_string (BASE_ONION_ROUTER_PORT + relay_id rc) ++ l2)) in *.
  set (l0 := layer (6 + entropy w) ek0
               (str "000000" ++ number_to_string (BASE_ONION_ROUTER_PORT + relay_id rb) ++ l1)) in *.
  exists l0, l1, l2. eexists. split; [exact S|]. split; [reflexivity|].
  assert (W2 : Utf8.well_formed l2 = true) by apply well_formed_ascii, layer_ascii.
  assert (W1 : Utf8.well_formed l1 = true) by apply well_formed_ascii, layer_ascii.
  split; [|split; [|split; [|split; [|split; reflexivity]]]].
  - intros rw.
    destruct (peel_framed_vars ra _ _ ek0 _ l1 rw Pa Ma E0 W1 Fb) as (rw' & R & O & V).
    exists rw'. split; [exact R|].
    unfold getLastReceivedEncryptedMessage, getLastReceivedDecryptedMessage,
      getLastMessageDestination, answer.
    rewrite V. repeat split.
  - intros rw.
    destruct (peel_framed_vars rb _ _ ek1 _ l2 rw Pb Mb E1 W2 Fc) as (rw' & R & O & V).
    exists rw'. split; [exact R|].
    unfold getLastReceivedEncryptedMessage, getLastReceivedDecryptedMessage,
      getLastMessageDestination, answer.
    rewrite V. repeat split.
  - intros rw.
    destruct (peel_framed_vars rc _ _ ek2 _ m rw Pc Mc E2 W Fd) as (rw' & R & O & V).
    exists rw'. split; [exact R|].
    unfold getLastReceivedEncryptedMessage, getLastReceivedDecryptedMessage,
      getLastMessageDestination, answer.
    rewrite V, O. apply Z.leb_le in Gd. rewrite Gd. repeat split.
  - intros uw. eexists. split; [reflexivity|]. repeat split.
Qed.

End Observations.

(** ** What POST /sendMessage leaves behind *)
Section SendOutcome.
Context {cfg : Config} {wc : WebCrypto} {mr : MathRandom}.

(** The loop that draws the circuit sends nothing and assigns nothing. *)
Lemma buildCircuit_frame fuel nodes :
  forall circuit (w w' : World UserVars) r,
    buildCircuit fuel nodes circuit w = (r, w') ->
    outbox w' = outbox w /\ vars w' = vars w.
Proof.
  induction fuel as [| fuel IH]; intros circuit w w' r R.
  - destruct (Nat.lt_ge_cases (length circuit) 3) as [Lt | Ge].
    + rewrite buildCircuit_stop in R by assumption. injection R as _ <-. auto.
    + rewrite buildCircuit_done in R by assumption. injection R as _ <-. auto.
  - destruct (Nat.lt_ge_cases (length circuit) 3) as [Lt | Ge].
    + rewrite buildCircuit_turn in R by assumption. cbv zeta in R.
      destruct (nth_error nodes (random_floor (entropy w) (length nodes))) as [nd|].
      * destruct (includes circuit (nodeId nd)); apply IH in R; exact R.
      * injection R as _ <-. auto.
    + rewrite buildCircuit_done in R by assumption. injection R as _ <-. auto.
Qed.

(** The loop that wraps the layers sends nothing, assigns nothing, and settles. *)
Lemma wrap_frame nodes circuit d k :
  forall msg (w w' : World UserVars) r,
    wrap nodes circuit d k msg w = (r, w') ->
    outbox w' = outbox w /\ vars w' = vars w /\ r <> Pending.
Proof.
  induction k as [| k IH]; intros msg w w' r R.
  - cbn [wrap ret] in R. injection R as <- <-. repeat split. discriminate.
  - cbn [wrap] in R.
    destruct (wrapLayer nodes circuit d k msg w) as [r1 w1] eqn:R1.
    destruct (wrapLayer_frame _ _ _ _ _ _ _ _ R1) as (O1 & V1 & S1).
    destruct r1 as [l | e |]; [| | congruence].
    + rewrite (bind_ok _ _ _ _ _ R1) in R. apply IH in R.
      destruct R as (O & V & S). repeat split; congruence.
    + rewrite (bind_throw _ _ _ _ _ R1) in R. injection R as <- <-.
      repeat split; auto.
Qed.

(** POST /sendMessage sends its one request only when every step before it
    went through, and records the plaintext only after the request.  When
    it settles, it has sent exactly one request, to the first relay of the
    circuit it recorded, and recorded the message as sent.  When it throws,
    it has sent nothing and lastSentMessage is what it was (lastCircuit may
    already hold the new circuit).  While the loop of the circuit is still
    running, nothing has changed.  In no case does it touch
    lastReceivedMessage. *)
Theorem sendMessage_all_or_nothing fuel nodes message d (w : World UserVars) :
  exists r w',
    sendMessage fuel nodes message d w = (r, w')
    /\ lastReceivedMessage (vars w') = lastReceivedMessage (vars w)
    /\ match r with
       | Ok _ =>
           exists circuit onion,
             outbox w' = outbox w
               ++ [PostMessage (Some (BASE_ONION_ROUTER_PORT + nth 0 circuit 0)) onion]
             /\ lastCircuit (vars w') = Some circuit
             /\ lastSentMessage (vars w') = Some message
       | Throw _ =>
           outbox w' = outbox w
           /\ lastSentMessage (vars w') = lastSentMessage (vars w)
       | Pending =>
           outbox w' = outbox w /\ vars w' = vars w
       end.
Proof.
  unfold sendMessage.
  destruct (buildCircuit fuel nodes [] w) as [rc w1] eqn:B.
  destruct (buildCircuit_frame _ _ _ _ _ _ B) as (O1 & V1).
  destruct rc as [circuit | e |].
  - rewrite (bind_ok _ _ _ _ _ B). unfold sendThrough.
    set (w0 := Build_World (entropy w1) (outbox w1) (set_lastCircuit circuit (vars w1))).
    rewrite (bind_ok (assign (set_lastCircuit circuit)) _ w1 tt w0 eq_refl).
    destruct (wrap nodes circuit d (length circuit) message w0) as [rl w2] eqn:Wr.
    destruct (wrap_frame _ _ _ _ _ _ _ _ Wr) as (O2 & V2 & S2).
    destruct rl as [l | e |]; [| | congruence].
    + rewrite (bind_ok _ _ _ _ _ Wr). eexists. eexists. split; [reflexivity|].
      cbn [outbox vars]. rewrite O2, V2. cbn [w0 outbox vars]. rewrite O1, V1.
      split; [reflexivity|]. exists circuit, l. repeat split.
    + rewrite (bind_throw _ _ _ _ _ Wr). eexists. eexists. split; [reflexivity|].
      rewrite O2, V2. cbn [w0 outbox vars]. rewrite O1, V1. repeat split.
  - rewrite (bind_throw _ _ _ _ _ B). eexists. eexists. split; [reflexivity|].
    rewrite O1, V1. repeat split.
  - exists Pending, w1. split.
    { unfold bind. now rewrite B. }
    rewrite O1, V1. repeat split.
Qed.

End SendOutcome.

(** ** Keys and round trips of crypto.ts *)
Section CryptoRoundTrips.
Context {wc : WebCrypto} {laws : WebCryptoLaws wc}.

(** rsaDecrypt undoes rsaEncrypt under the matching key, up to the base64
    of the data: what comes back is the canonical base64 of the bytes the
    input decodes to, which is the input itself when the input was made by
    arrayBufferToBase64.  The data must fit the OAEP padding. *)
Theorem rsaDecrypt_rsaEncrypt {V} b64Data strPublicKey pk sk (w : World V) :
  importPubKey strPublicKey = Ok pk ->
  rsa_pair pk sk ->
  (length (base64ToArrayBuffer b64Data) + 66 <= modulus_bytes pk)%nat ->
  exists encrypted w',
    rsaEncrypt b64Data strPublicKey w = (Ok encrypted, w')
    /\ rsaDecrypt encrypted sk
       = Ok (arrayBufferToBase64 (base64ToArrayBuffer b64Data))
    /\ (forall buffer, b64Data = arrayBufferToBase64 buffer ->
        rsaDecrypt encrypted sk = Ok b64Data).
Proof.
  intros Hi Hp Hfit.
  destruct (rsa_oaep_encrypt_fits pk (entropy w) (base64ToArrayBuffer b64Data) Hfit)
    as [c Hc].
  exists (arrayBufferToBase64 c). eexists.
  rewrite (rsaEncrypt_run _ _ pk) by assumption. rewrite Hc.
  split; [reflexivity|].
  assert (D : rsaDecrypt (arrayBufferToBase64 c) sk
              = Ok (arrayBufferToBase64 (base64ToArrayBuffer b64Data))).
  { unfold rsaDecrypt. rewrite base64_decode_encode.
    now rewrite (rsa_oaep_decrypt_encrypt _ _ _ _ _ Hp Hc). }
  split; [exact D|].
  intros buffer ->. rewrite D. now rewrite base64_decode_encode.
Qed.

(** validateEncryption accepts what rsaEncrypt made of a buffer's base64
    under the public key, when it is given the exported private key of
    the pair: it answers whether the expected string is that base64. *)
Theorem validateEncryption_accepts {V} buffer pk sk (w w2 : World V) :
  rsa_pair pk sk ->
  (length buffer + 66 <= modulus_bytes pk)%nat ->
  exists encrypted w' prv,
    rsaEncrypt (arrayBufferToBase64 buffer) (exportPubKey pk) w = (Ok encrypted, w')
    /\ exportPrvKey (Some sk) = Some prv
    /\ validateEncryption encrypted (arrayBufferToBase64 buffer) prv w2 = (Ok true, w2)
    /\ (forall expected,
        validateEncryption encrypted expected prv w2
        = (Ok (jsstring_eqb (arrayBufferToBase64 buffer) expected), w2)).
Proof.
  intros Hp Hfit.
  destruct (rsa_oaep_encrypt_fits pk (entropy w)
              (base64ToArrayBuffer (arrayBufferToBase64 buffer))) as [c Hc].
  { now rewrite base64_decode_encode. }
  exists (arrayBufferToBase64 c). eexists. eexists.
  rewrite (rsaEncrypt_run _ _ pk) by apply importPubKey_exportPubKey. rewrite Hc.
  split; [reflexivity|]. split; [reflexivity|].
  assert (D : rsaDecrypt (arrayBufferToBase64 c) sk = Ok (arrayBufferToBase64 buffer)).
  { unfold rsaDecrypt. rewrite base64_decode_encode.
    rewrite (rsa_oaep_decrypt_encrypt _ _ _ _ _ Hp Hc).
    now rewrite base64_decode_encode. }
  assert (E : forall expected,
             validateEncryption (arrayBufferToBase64 c) expected
               (arrayBufferToBase64 (pkcs8_export sk)) w2
             = (Ok (jsstring_eqb (arrayBufferToBase64 buffer) expected), w2)).
  { intros expected. unfold validateEncryption, try_catch, bind, await.
    rewrite importPrvKey_export, D. reflexivity. }
  split; [|exact E].
  rewrite E. f_equal. f_equal. now apply jsstring_eqb_eq.
Qed.

(** A key made by createRandomSymmetricKey exports to a string of 44
    characters, and importSymKey gives the same key back from it. *)
Theorem symKey_export_import {V} (w : World V) :
  exists key w',
    createRandomSymmetricKey w = (Ok key, w')
    /\ length key = 32%nat
    /\ length (exportSymKey key) = 44%nat
    /\ importSymKey (exportSymKey key) = Ok key.
Proof.
  eexists. eexists. split; [reflexivity|].
  split; [apply random_bytes_length|].
  split.
  - unfold exportSymKey. rewrite base64_encode_length, random_bytes_length. reflexivity.
  - apply importSymKey_exportSymKey, random_key_ok.
Qed.

(** The first version of the router starts whatever happens: it has sent
    one registration, with the public key of a fresh 2048-bit pair, its
    three variables are null, and the string that /getPrivateKey serves
    imports to the private key of the public key it registered. *)
Theorem first_router_starts id (w : World RouterVars) :
  exists prv pub pk sk w',
    OnionRouters.simpleOnionRouter id w = (Ok (Some prv), w')
    /\ outbox w' = outbox w ++ [PostRegisterNode id pub]
    /\ vars w' = router_vars_null
    /\ importPubKey pub = Ok pk
    /\ importPrvKey prv = Ok sk
    /\ rsa_pair pk sk
    /\ modulus_bytes pk = 256%nat.
Proof.
  destruct (rsa_generate_pair (entropy w)) as [Hp Hm].
  exists (arrayBufferToBase64 (pkcs8_export (snd (rsa_generate (entropy w))))),
         (exportPubKey (fst (rsa_generate (entropy w)))),
         (fst (rsa_generate (entropy w))), (snd (rsa_generate (entropy w))).
  eexists. split.
  { unfold OnionRouters.simpleOnionRouter, generateRsaKeyPair, bind, draw, ret,
      assign, try_catch, fetch, exportPrvKey.
    cbn [entropy outbox vars fst snd]. reflexivity. }
  cbn [outbox vars].
  repeat split; try assumption.
  - apply importPubKey_exportPubKey.
  - apply importPrvKey_export.
Qed.

End CryptoRoundTrips.

(** ** The registry *)

Lemma registrations_app bodies : forall nodes : Registry.State,
  registrations bodies nodes = nodes ++ bodies.
Proof.
  induction bodies as [| b bodies IH]; intros nodes; cbn [registrations fold_left].
  - now rewrite app_nil_r.
  - fold (registrations bodies (Registry.registerNode b nodes)).
    rewrite IH. unfold Registry.registerNode. rewrite <- app_assoc.
    now destruct b.
Qed.

(** The registry only appends: after any sequence of registrations,
    GET /getNodeRegistry answers with every record ever registered, in the
    order of the requests, duplicates included; from the empty registry of
    the launch that is the sequence of the bodies itself. *)
Theorem registry_keeps_order (bodies : list Node) (nodes : Registry.State) :
  Registry.getNodeRegistry (registrations bodies nodes) = nodes ++ bodies
  /\ Registry.getNodeRegistry (registrations bodies Registry.launch) = bodies.
Proof.
  unfold Registry.getNodeRegistry. now rewrite !registrations_app.
Qed.

Section Reregistration.
Context {cfg : Config} {wc : WebCrypto}.

Lemma wrapLayer_ext nodes nodes' circuit d i msg (w : World UserVars) :
  find_node nodes' (nth i circuit 0) = find_node nodes (nth i circuit 0) ->
  wrapLayer nodes' circuit d i msg w = wrapLayer nodes circuit d i msg w.
Proof. intros H. unfold wrapLayer. now rewrite H. Qed.

Lemma wrap_ext nodes nodes' circuit d k :
  (forall i, (i < k)%nat ->
     find_node nodes' (nth i circuit 0) = find_node nodes (nth i circuit 0)) ->
  forall msg (w : World UserVars),
    wrap nodes' circuit d k msg w = wrap nodes circuit d k msg w.
Proof.
  induction k as [| k IH]; intros H msg w; [reflexivity|].
  cbn [wrap]. unfold bind. rewrite (wrapLayer_ext nodes nodes') by (apply H; lia).
  destruct (wrapLayer nodes circuit d k msg w) as [[l | e |] w1]; try reflexivity.
  apply IH. intros i Hi. apply H. lia.
Qed.

(** The first record of an identifier wins: when a relay registers again
    (with a new key, after a restart), the lookup of its identifier still
    answers with the old record, and a send through relays that were
    already registered wraps exactly the same onion as before, under the
    old keys. *)
Theorem reregistration_is_shadowed (body : Node) (nodes : Registry.State)
    circuit message d (w : World UserVars) :
  (forall id, In id circuit -> find_node nodes id <> None) ->
  (forall id, In id circuit ->
     find_node (Registry.registerNode body nodes) id = find_node nodes id)
  /\ sendThrough (Registry.registerNode body nodes) circuit message d w
     = sendThrough nodes circuit message d w.
Proof.
  intros H.
  assert (F : forall id, In id circuit ->
            find_node (Registry.registerNode body nodes) id = find_node nodes id).
  { intros id Hin. unfold Registry.registerNode, find_node.
    rewrite find_app_or.
    specialize (H id Hin). unfold find_node in H.
    destruct (find (fun n => nodeId n =? id) nodes); [reflexivity | contradiction]. }
  split; [exact F|].
  unfold sendThrough, bind. cbn [assign].
  rewrite (wrap_ext nodes (Registry.registerNode body nodes)); [reflexivity|].
  intros i Hi. apply F. now apply nth_In.
Qed.

End Reregistration.

(** ** A record whose public key does not import *)
Section BadKey.
Context {cfg : Config} {wc : WebCrypto}.

Lemma wrapLayer_bad_key nodes circuit d i msg (w : World UserVars) node :
  find_node nodes (nth i circuit 0) = Some node ->
  importPubKey (pubKey node) = Throw DataError ->
  exists w', wrapLayer nodes circuit d i msg w = (Throw DataError, w').
Proof.
  intros F B. unfold wrapLayer. rewrite F.
  unfold bind at 1. unfold createRandomSymmetricKey, bind at 1. cbn [draw ret].
  unfold bind at 1. rewrite symEncrypt_run. cbn [entropy outbox vars].
  unfold bind at 1. unfold rsaEncrypt, bind, await. rewrite B. eauto.
Qed.

Lemma wrap_bad_key nodes circuit d k :
  forall msg (w : World UserVars),
    (forall i, (i < k)%nat -> find_node nodes (nth i circuit 0) <> None) ->
    (exists i node, (i < k)%nat /\ find_node nodes (nth i circuit 0) = Some node
                    /\ importPubKey (pubKey node) = Throw DataError) ->
    exists e w',
      wrap nodes circuit d k msg w = (Throw e, w')
      /\ (e = DataError \/ e = OperationError)
      /\ outbox w' = outbox w /\ vars w' = vars w.
Proof.
  induction k as [| k IH]; intros msg w Hf (i & node & Hi & F & B); [lia|].
  cbn [wrap].
  destruct (wrapLayer nodes circuit d k msg w) as [r1 w1] eqn:R1.
  destruct (wrapLayer_frame _ _ _ _ _ _ _ _ R1) as (O1 & V1 & _).
  destruct (find_node nodes (nth k circuit 0)) as [nk|] eqn:Fk;
    [|exfalso; apply (Hf k); [lia | assumption]].
  destruct (wrapLayer_found_result _ _ _ _ _ _ _ _ _ Fk R1) as [[l ->] | [-> | ->]].
  - assert (Hi' : (i < k)%nat).
    { destruct (Nat.eq_dec i k) as [-> | Ne]; [|lia].
      rewrite Fk in F. injection F as ->.
      destruct (wrapLayer_bad_key nodes circuit d k msg w node Fk B) as (w2 & R2).
      congruence. }
    destruct (IH l w1) as (e & w' & R & E & O & V).
    { intros j Hj. apply Hf. lia. }
    { exists i, node. auto. }
    exists e, w'. rewrite (bind_ok _ _ _ _ _ R1). repeat split; congruence.
  - exists DataError, w1. rewrite (bind_throw _ _ _ _ _ R1). auto.
  - exists OperationError, w1. rewrite (bind_throw _ _ _ _ _ R1). auto.
Qed.

(** The registry stores any string as a public key; the sender finds out.
    A send through relays of the snapshot of which one has a record whose
    pubKey does not import throws the error of importKey or of encrypt:
    nothing is sent and lastSentMessage is not assigned. *)
Theorem sendThrough_bad_key nodes circuit message d (w : World UserVars) :
  (forall id, In id circuit -> find_node nodes id <> None) ->
  (exists id node, In id circuit /\ find_node nodes id = Some node
                   /\ importPubKey (pubKey node) = Throw DataError) ->
  exists e w',
    sendThrough nodes circuit message d w = (Throw e, w')
    /\ (e = DataError \/ e = OperationError)
    /\ outbox w' = outbox w
    /\ lastSentMessage (vars w') = lastSentMessage (vars w).
Proof.
  intros Hf (id & node & Hin & F & B).
  apply In_nth with (d := 0) in Hin as (i & Hi & <-).
  set (w0 := Build_World (entropy w) (outbox w) (set_lastCircuit circuit (vars w))).
  destruct (wrap_bad_key nodes circuit d (length circuit) message w0)
    as (e & w' & R & E & O & V).
  { intros j Hj. apply Hf. now apply nth_In. }
  { exists i, node. auto. }
  exists e, w'. unfold sendThrough.
  rewrite (bind_ok (assign (set_lastCircuit circuit)) _ w tt w0 eq_refl).
  rewrite (bind_throw _ _ _ _ _ R). rewrite O, V. repeat split; auto.
Qed.

End BadKey.

(** ** From the start of the routers to the delivery *)
Section Network.
Context {cfg : Config} {wc : WebCrypto} {laws : WebCryptoLaws wc}.

(** A router that has started is a relay with a 2048-bit pair, and has
    sent its public key to the registry. *)
Lemma started_relay id (w w' : World RouterVars) prv pub :
  simpleOnionRouter id w = (Ok prv, w') ->
  outbox w' = outbox w ++ [PostRegisterNode id pub] ->
  exists r : Relay,
    relay_id r = id /\ prvKeyBase64 r = prv /\ pub = exportPubKey (relay_pub r)
    /\ rsa_pair (relay_pub r) (relay_prv r)
    /\ modulus_bytes (relay_pub r) = 256%nat.
Proof.
  unfold simpleOnionRouter, generateRsaKeyPair, bind, draw, ret, fetch.
  cbn [entropy outbox vars exportPrvKey].
  set (keys := rsa_generate (entropy w)).
  destruct (arrayBufferToBase64 (pkcs8_export (snd keys))) as [| c prv'] eqn:E;
    [discriminate|].
  intros R O. injection R as <- <-. cbn [outbox] in O.
  apply app_inv_head in O. injection O as <-.
  exists {| relay_id := id; relay_pub := fst keys; relay_prv := snd keys |}.
  cbn [relay_id relay_pub relay_prv]. unfold prvKeyBase64. cbn [relay_prv].
  destruct (rsa_generate_pair (entropy w)) as [Hp Hm]. fold keys in Hp, Hm.
  repeat split; assumption.
Qed.

(** Three routers with different identifiers start and register with a
    registry that was just launched; a user takes the registry's list and
    sends a message through the three.  Then each router peels its layer
    with the private key it generated and forwards to the next, and the
    last one posts the plaintext to the port of the destination user. *)
Theorem network_delivers ida idb idc (wa wa' wb wb' wz wz' : World RouterVars)
    prvA prvB prvC pubA pubB pubC m d (w : World UserVars) :
  simpleOnionRouter ida wa = (Ok prvA, wa') ->
  outbox wa' = outbox wa ++ [PostRegisterNode ida pubA] ->
  simpleOnionRouter idb wb = (Ok prvB, wb') ->
  outbox wb' = outbox wb ++ [PostRegisterNode idb pubB] ->
  simpleOnionRouter idc wz = (Ok prvC, wz') ->
  outbox wz' = outbox wz ++ [PostRegisterNode idc pubC] ->
  ida <> idb -> ida <> idc -> idb <> idc ->
  Utf8.well_formed m = true ->
  forwardable (BASE_ONION_ROUTER_PORT + idb) ->
  forwardable (BASE_ONION_ROUTER_PORT + idc) ->
  forwardable (BASE_USER_PORT + d) ->
  let nodes :=
    Registry.getNodeRegistry
      (registrations [ {| nodeId := ida; pubKey := pubA |};
                       {| nodeId := idb; pubKey := pubB |};
                       {| nodeId := idc; pubKey := pubC |} ] Registry.launch) in
  exists m0 m1 m2 w',
    sendThrough nodes [ida; idb; idc] m d w = (Ok tt, w')
    /\ outbox w' = outbox w ++ [PostMessage (Some (BASE_ONION_ROUTER_PORT + ida)) m0]
    /\ (forall rw, exists rw',
          router_message prvA m0 rw = (Ok tt, rw')
          /\ outbox rw' = outbox rw ++ [PostMessage (Some (BASE_ONION_ROUTER_PORT + idb)) m1])
    /\ (forall rw, exists rw',
          router_message prvB m1 rw = (Ok tt, rw')
          /\ outbox rw' = outbox rw ++ [PostMessage (Some (BASE_ONION_ROUTER_PORT + idc)) m2])
    /\ (forall rw, exists rw',
          router_message prvC m2 rw = (Ok tt, rw')
          /\ outbox rw' = outbox rw ++ [PostMessage (Some (BASE_USER_PORT + d)) m]).
Proof.
  intros Sa Oa Sb Ob Sc Oc Nab Nac Nbc W Fb Fc Fd nodes.
  destruct (started_relay _ _ _ _ _ Sa Oa) as (ra & Ia & Ka & -> & Pa & Ma).
  destruct (started_relay _ _ _ _ _ Sb Ob) as (rb & Ib & Kb & -> & Pb & Mb).
  destruct (started_relay _ _ _ _ _ Sc Oc) as (rc & Ic & Kc & -> & Pc & Mc).
  subst ida idb idc prvA prvB prvC.
  assert (En : nodes = [ {| nodeId := relay_id ra; pubKey := exportPubKey (relay_pub ra) |};
                         {| nodeId := relay_id rb; pubKey := exportPubKey (relay_pub rb) |};
                         {| nodeId := relay_id rc; pubKey := exportPubKey (relay_pub rc) |} ])
    by reflexivity.
  assert (Ra : registered nodes ra).
  { eexists. rewrite En. unfold find_node. cbn [find nodeId]. rewrite Z.eqb_refl.
    split; [reflexivity|]. cbn [pubKey].
    repeat split; auto using importPubKey_exportPubKey. }
  assert (Rb : registered nodes rb).
  { eexists. rewrite En. unfold find_node. cbn [find nodeId].
    replace (relay_id ra =? relay_id rb) with false by (symmetry; apply Z.eqb_neq; auto).
    rewrite Z.eqb_refl.
    split; [reflexivity|]. cbn [pubKey].
    repeat split; auto using importPubKey_exportPubKey. }
  assert (Rc : registered nodes rc).
  { eexists. rewrite En. unfold find_node. cbn [find nodeId].
    replace (relay_id ra =? relay_id rc) with false by (symmetry; apply Z.eqb_neq; auto).
    replace (relay_id rb =? relay_id rc) with false by (symmetry; apply Z.eqb_neq; auto).
    rewrite Z.eqb_refl.
    split; [reflexivity|]. cbn [pubKey].
    repeat split; auto using importPubKey_exportPubKey. }
  clearbody nodes.
  destruct (sendThrough_run ra rb rc nodes m d w Ra Rb Rc) as (ek2 & ek1 & ek0 & S).
  cbv zeta in S. destruct S as (E2 & E1 & E0 & S).
  set (l2 := layer (entropy w) ek2
               (str "000000" ++ number_to_string (BASE_USER_PORT + d) ++ m)) in *.
  set (l1 := layer (3 + entropy w) ek1
               (str "000000" ++ number_to_string (BASE_ONION_ROUTER_PORT + relay_id rc) ++ l2)) in *.
  set (l0 := layer (6 + entropy w) ek0
               (str "000000" ++ number_to_string (BASE_ONION_ROUTER_PORT + relay_id rb) ++ l1)) in *.
  exists l0, l1, l2. eexists. split; [exact S|]. split; [reflexivity|].
  assert (W2 : Utf8.well_formed l2 = true) by apply well_formed_ascii, layer_ascii.
  assert (W1 : Utf8.well_formed l1 = true) by apply well_formed_ascii, layer_ascii.
  repeat split; intros rw.
  - destruct (peel_framed ra _ _ ek0 _ l1 rw Pa Ma E0 W1 Fb) as (rw' & R & O & _). eauto.
  - destruct (peel_framed rb _ _ ek1 _ l2 rw Pb Mb E1 W2 Fc) as (rw' & R & O & _). eauto.
  - destruct (peel_framed rc _ _ ek2 _ m rw Pc Mc E2 W Fd) as (rw' & R & O & _). eauto.
Qed.

End Network.

(** * Strings that are not well formed *)

(** Induction on a string, two code units at a time where needed. *)
Lemma jsstring_ind2 (P : jsstring -> Prop) :
  P [] ->
  (forall u, P [u]) ->
  (forall u v rest, P rest -> P (v :: rest) -> P (u :: v :: rest)) ->
  forall s, P s.
Proof.
  intros H0 H1 H2 s.
  assert (G : P s /\ forall u, P (u :: s)); [|apply G].
  induction s as [| v rest [IH1 IH2]]; [split; auto|].
  split; [apply IH2|]. intros u. apply H2; auto.
Qed.

Lemma replacement_tests :
  Utf8.is_high_surrogate Utf8.replacement = false
  /\ Utf8.is_low_surrogate Utf8.replacement = false.
Proof. split; reflexivity. Qed.

Lemma toWellFormed_cons u rest :
  toWellFormed (u :: rest) =
  if Utf8.is_high_surrogate u then
    match rest with
    | v :: rest' =>
        if Utf8.is_low_surrogate v then u :: v :: toWellFormed rest'
        else Utf8.replacement :: toWellFormed rest
    | [] => [Utf8.replacement]
    end
  else if Utf8.is_low_surrogate u then Utf8.replacement :: toWellFormed rest
  else u :: toWellFormed rest.
Proof. reflexivity. Qed.

Lemma encode_plain u rest :
  Utf8.is_high_surrogate u = false -> Utf8.is_low_surrogate u = false ->
  Utf8.encode (u :: rest) = Utf8.encode_scalar u ++ Utf8.encode rest.
Proof. intros Eh El. cbn [Utf8.encode]. now rewrite Eh, El. Qed.

Lemma well_formed_plain u rest :
  Utf8.is_high_surrogate u = false -> Utf8.is_low_surrogate u = false ->
  Utf8.well_formed (u :: rest) = (u <? 0x10000)%N && Utf8.well_formed rest.
Proof.
  intros Eh El. cbn [Utf8.well_formed]. rewrite Eh, El. cbn [negb].
  now rewrite andb_true_r.
Qed.

(** The encoder reads a string as its well-formed version. *)
Lemma encode_toWellFormed s : Utf8.encode (toWellFormed s) = Utf8.encode s.
Proof.
  induction s as [| u | u v rest IHr IHv] using jsstring_ind2.
  - reflexivity.
  - rewrite toWellFormed_cons.
    destruct (Utf8.is_high_surrogate u) eqn:Eh.
    { cbn [Utf8.encode]. now rewrite Eh. }
    destruct (Utf8.is_low_surrogate u) eqn:El.
    { cbn [Utf8.encode toWellFormed]. now rewrite Eh, El. }
    reflexivity.
  - rewrite (toWellFormed_cons u (v :: rest)).
    destruct (Utf8.is_high_surrogate u) eqn:Eh.
    + destruct (Utf8.is_low_surrogate v) eqn:El.
      * cbn [Utf8.encode]. rewrite Eh, El. now rewrite IHr.
      * rewrite encode_plain, IHv by reflexivity.
        remember (v :: rest) as t. cbn [Utf8.encode]. rewrite Eh. subst t.
        now rewrite El.
    + destruct (Utf8.is_low_surrogate u) eqn:El.
      * rewrite encode_plain, IHv by reflexivity.
        remember (v :: rest) as t. cbn [Utf8.encode]. now rewrite Eh, El.
      * rewrite !encode_plain by assumption. now rewrite IHv.
Qed.

Lemma well_formed_toWellFormed s :
  sixteen_bit s -> Utf8.well_formed (toWellFormed s) = true.
Proof.
  induction s as [| u | u v rest IHr IHv] using jsstring_ind2; intros B.
  - reflexivity.
  - inversion B as [| ? ? Hu _]; subst. rewrite toWellFormed_cons.
    destruct (Utf8.is_high_surrogate u) eqn:Eh; [reflexivity|].
    destruct (Utf8.is_low_surrogate u) eqn:El; [reflexivity|].
    rewrite well_formed_plain by assumption.
    apply N.ltb_lt in Hu. now rewrite Hu.
  - inversion B as [| ? ? Hu B1]; subst. inversion B1 as [| ? ? Hv B2]; subst.
    specialize (IHr B2). specialize (IHv B1).
    rewrite (toWellFormed_cons u (v :: rest)).
    destruct (Utf8.is_high_surrogate u) eqn:Eh.
    + destruct (Utf8.is_low_surrogate v) eqn:El.
      * cbn [Utf8.well_formed]. now rewrite Eh, El, IHr.
      * rewrite well_formed_plain, IHv by reflexivity. reflexivity.
    + destruct (Utf8.is_low_surrogate u) eqn:El.
      * rewrite well_formed_plain, IHv by reflexivity. reflexivity.
      * rewrite well_formed_plain, IHv by assumption.
        apply N.ltb_lt in Hu. now rewrite Hu.
Qed.

Lemma well_formed_cons u rest :
  Utf8.well_formed (u :: rest) =
  if Utf8.is_high_surrogate u then
    match rest with
    | v :: rest' => Utf8.is_low_surrogate v && Utf8.well_formed rest'
    | [] => false
    end
  else (u <? 0x10000)%N && negb (Utf8.is_low_surrogate u) && Utf8.well_formed rest.
Proof. reflexivity. Qed.

Lemma toWellFormed_id s : Utf8.well_formed s = true -> toWellFormed s = s.
Proof.
  induction s as [| u | u v rest IHr IHv] using jsstring_ind2; intros W.
  - reflexivity.
  - rewrite well_formed_cons in W. rewrite toWellFormed_cons.
    destruct (Utf8.is_high_surrogate u); [discriminate|].
    destruct (Utf8.is_low_surrogate u); [|reflexivity].
    rewrite andb_false_r in W. discriminate.
  - rewrite (well_formed_cons u (v :: rest)) in W.
    rewrite (toWellFormed_cons u (v :: rest)).
    destruct (Utf8.is_high_surrogate u) eqn:Eh.
    + apply andb_true_iff in W as [Wv Wr]. rewrite Wv. now rewrite IHr.
    + apply andb_true_iff in W as [W1 Wr]. apply andb_true_iff in W1 as [_ Wl].
      apply negb_true_iff in Wl. rewrite Wl. now rewrite IHv.
Qed.

Lemma length_toWellFormed s : length (toWellFormed s) = length s.
Proof.
  induction s as [| u | u v rest IHr IHv] using jsstring_ind2.
  - reflexivity.
  - rewrite toWellFormed_cons.
    destruct (Utf8.is_high_surrogate u); [reflexivity|].
    now destruct (Utf8.is_low_surrogate u).
  - rewrite (toWellFormed_cons u (v :: rest)).
    destruct (Utf8.is_high_surrogate u).
    + destruct (Utf8.is_low_surrogate v).
      * cbn [length]. now rewrite IHr.
      * change (length (Utf8.replacement :: toWellFormed (v :: rest)))
          with (S (length (toWellFormed (v :: rest)))).
        now rewrite IHv.
    + destruct (Utf8.is_low_surrogate u).
      * change (length (Utf8.replacement :: toWellFormed (v :: rest)))
          with (S (length (toWellFormed (v :: rest)))).
        now rewrite IHv.
      * change (length (u :: toWellFormed (v :: rest)))
          with (S (length (toWellFormed (v :: rest)))).
        now rewrite IHv.
Qed.

(** The well-formed version of a string starts with a byte order mark
    exactly when the string does. *)
Lemma toWellFormed_bom s :
  (exists rest, s = 0xFEFF%N :: rest /\ toWellFormed s = 0xFEFF%N :: toWellFormed rest)
  \/ (hd_error s <> Some 0xFEFF%N /\ hd_error (toWellFormed s) <> Some 0xFEFF%N).
Proof.
  destruct s as [| u rest]; [right; split; discriminate|].
  destruct (N.eq_dec u 0xFEFF) as [-> | Ne].
  - left. exists rest. split; reflexivity.
  - right. split; [cbn; congruence|].
    cbn [toWellFormed].
    destruct (Utf8.is_high_surrogate u).
    + destruct rest as [| v rest']; [discriminate|].
      destruct (Utf8.is_low_surrogate v); [cbn; congruence | discriminate].
    + destruct (Utf8.is_low_surrogate u); [discriminate | cbn; congruence].
Qed.

(** What the decoder makes of what the encoder wrote, for any string. *)
Lemma text_decode_encode_any s :
  sixteen_bit s ->
  TextDecoder_decode (TextEncoder_encode s) = drop_bom (toWellFormed s).
Proof.
  intros B.
  replace (TextEncoder_encode s) with (TextEncoder_encode (toWellFormed s))
    by apply encode_toWellFormed.
  pose proof (well_formed_toWellFormed s B) as W.
  destruct (toWellFormed_bom s) as [(rest & -> & E) | [_ Hb]].
  - rewrite E in *. cbn [drop_bom].
    apply text_decode_encode_bom.
    inversion B; subst. now apply well_formed_toWellFormed.
  - rewrite (text_decode_encode _ W Hb).
    destruct (toWellFormed s) as [| u t]; [reflexivity|].
    cbn [drop_bom]. destruct (N.eq_dec u 0xFEFF) as [-> | Ne]; [now elim Hb|].
    destruct u as [| p]; [reflexivity|].
    repeat (destruct p as [p | p |]; try reflexivity); congruence.
Qed.

Lemma drop_bom_id s : hd_error s <> Some 0xFEFF%N -> drop_bom s = s.
Proof.
  intros Hb. destruct s as [| u t]; [reflexivity|].
  destruct (N.eq_dec u 0xFEFF) as [-> | Ne]; [now elim Hb|].
  cbn [drop_bom]. destruct u as [| p]; [reflexivity|].
  repeat (destruct p as [p | p |]; try reflexivity); congruence.
Qed.

(** The string comes back as it was exactly when it is well formed and
    does not start with a byte order mark. *)
Lemma drop_bom_toWellFormed_id s :
  sixteen_bit s ->
  (drop_bom (toWellFormed s) = s
   <-> Utf8.well_formed s = true /\ hd_error s <> Some 0xFEFF%N).
Proof.
  intros B. split.
  - intros E.
    destruct (toWellFormed_bom s) as [(rest & -> & E') | [Hb Hb']].
    + exfalso. rewrite E' in E. cbn [drop_bom] in E.
      apply (f_equal (@length _)) in E. rewrite length_toWellFormed in E.
      cbn [length] in E. lia.
    + split; [|assumption]. rewrite drop_bom_id in E by assumption.
      rewrite <- E. now apply well_formed_toWellFormed.
  - intros [W Hb]. rewrite toWellFormed_id by assumption. now apply drop_bom_id.
Qed.

Lemma toWellFormed_ascii_app p s :
  ascii_only p -> toWellFormed (p ++ s) = p ++ toWellFormed s.
Proof.
  induction 1 as [| c p Hc Hp IH]; [reflexivity|].
  assert (Eh : Utf8.is_high_surrogate c = false).
  { unfold Utf8.is_high_surrogate. now settle_tests. }
  assert (El : Utf8.is_low_surrogate c = false).
  { unfold Utf8.is_low_surrogate. now settle_tests. }
  cbn [app]. remember (p ++ s) as t. cbn [toWellFormed]. rewrite Eh, El.
  subst t. now rewrite IH.
Qed.

Lemma sixteen_bit_ascii p : ascii_only p -> sixteen_bit p.
Proof. apply Forall_impl. intros a H. lia. Qed.

Section AnyString.
Context {cfg : Config} {wc : WebCrypto} {laws : WebCryptoLaws wc}.

Lemma symDecrypt_combined_any key iv s :
  aes_key_ok key = true -> length iv = 16%nat -> sixteen_bit s ->
  symDecrypt (exportSymKey key)
    (arrayBufferToBase64 (iv ++ aes_cbc_encrypt key iv (TextEncoder_encode s)))
  = Ok (drop_bom (toWellFormed s)).
Proof.
  intros Hk Hiv B. unfold symDecrypt.
  rewrite importSymKey_exportSymKey by assumption. cbn [rbind].
  rewrite base64_decode_encode.
  rewrite slice_app_left, slice_from_app by assumption.
  rewrite aes_cbc_decrypt_encrypt by assumption.
  now rewrite text_decode_encode_any.
Qed.

(** What symDecrypt gives back of symEncrypt for any string: the string
    with every unpaired surrogate replaced by U+FFFD and without a byte
    order mark at its start.  So the string itself comes back exactly when
    it is well formed and does not start with a byte order mark. *)
Theorem symDecrypt_symEncrypt_any {V} key (s : jsstring) (w : World V) :
  aes_key_ok key = true -> sixteen_bit s ->
  exists c w',
    symEncrypt key s w = (Ok c, w')
    /\ symDecrypt (exportSymKey key) c = Ok (drop_bom (toWellFormed s))
    /\ (symDecrypt (exportSymKey key) c = Ok s
        <-> Utf8.well_formed s = true /\ hd_error s <> Some 0xFEFF%N).
Proof.
  intros Hk B. eexists. eexists. split; [apply symEncrypt_run|].
  rewrite symDecrypt_combined_any by auto using random_bytes_length.
  split; [reflexivity|].
  rewrite <- (drop_bom_toWellFormed_id s B).
  split; [intros E; now injection E | intros ->; reflexivity].
Qed.

Lemma peel_layer_any (r : Relay) e seed ek payload p (rw : World RouterVars) :
  rsa_pair (relay_pub r) (relay_prv r) ->
  modulus_bytes (relay_pub r) = 256%nat ->
  rsa_oaep_encrypt (relay_pub r) seed (random_bytes e 32) = Some ek ->
  sixteen_bit payload ->
  parseInt (slice (drop_bom (toWellFormed payload)) 0 10) = Some p ->
  router_message (prvKeyBase64 r) (layer e ek payload) rw
  = (Ok tt, forwarded (layer e ek payload) (drop_bom (toWellFormed payload)) rw).
Proof.
  intros Hp Hm Hek B Hport.
  assert (L : length (arrayBufferToBase64 ek) = 344%nat).
  { rewrite base64_encode_length, (rsa_oaep_encrypt_length _ _ _ _ Hek), Hm. reflexivity. }
  apply router_message_run
    with (privateKey := relay_prv r) (symmetricKeyBase64 := exportSymKey (random_bytes e 32))
         (symmetricKey := random_bytes e 32) (p := p).
  - apply importPrvKey_export.
  - unfold layer. rewrite slice_app_left by assumption.
    eapply rsaDecrypt_wrapped; eassumption.
  - apply importSymKey_exportSymKey, random_key_ok.
  - unfold layer. rewrite slice_from_app by assumption.
    apply symDecrypt_combined_any; auto using random_key_ok, random_bytes_length.
  - assumption.
Qed.

(** The well-formed version of a payload behind a destination field. *)
Lemma framed_toWellFormed (p : Z) inner :
  drop_bom (toWellFormed (str "000000" ++ number_to_string p ++ inner))
  = str "000000" ++ number_to_string p ++ toWellFormed inner.
Proof.
  rewrite app_assoc, toWellFormed_ascii_app, <- app_assoc.
  - reflexivity.
  - apply ascii_only_app; [|apply number_to_string_ascii]. repeat constructor.
Qed.

(** What three registered relays deliver of any plaintext: the plaintext
    with every unpaired surrogate replaced by U+FFFD.  A byte order mark at
    its start is kept, since inside the layer the destination field comes
    before it.  So the plaintext itself arrives exactly when it is well
    formed. *)
Theorem onion_delivers_toWellFormed (ra rb rc : Relay) nodes m d (w : World UserVars) :
  registered nodes ra -> registered nodes rb -> registered nodes rc ->
  sixteen_bit m ->
  forwardable (BASE_ONION_ROUTER_PORT + relay_id rb) ->
  forwardable (BASE_ONION_ROUTER_PORT + relay_id rc) ->
  forwardable (BASE_USER_PORT + d) ->
  exists m0 m1 m2 w',
    sendThrough nodes [relay_id ra; relay_id rb; relay_id rc] m d w = (Ok tt, w')
    /\ outbox w' = outbox w ++ [PostMessage (Some (BASE_ONION_ROUTER_PORT + relay_id ra)) m0]
    /\ (forall rw, exists rw',
          router_message (prvKeyBase64 ra) m0 rw = (Ok tt, rw')
          /\ outbox rw' = outbox rw
               ++ [PostMessage (Some (BASE_ONION_ROUTER_PORT + relay_id rb)) m1])
    /\ (forall rw, exists rw',
          router_message (prvKeyBase64 rb) m1 rw = (Ok tt, rw')
          /\ outbox rw' = outbox rw
               ++ [PostMessage (Some (BASE_ONION_ROUTER_PORT + relay_id rc)) m2])
    /\ (forall rw, exists rw',
          router_message (prvKeyBase64 rc) m2 rw = (Ok tt, rw')
          /\ outbox rw' = outbox rw
               ++ [PostMessage (Some (BASE_USER_PORT + d)) (toWellFormed m)])
    /\ (toWellFormed m = m <-> Utf8.well_formed m = true).
Proof.
  intros Ra Rb Rc B Fb Fc [Fd Gd].
  destruct (sendThrough_run ra rb rc nodes m d w Ra Rb Rc) as (ek2 & ek1 & ek0 & S).
  cbv zeta in S. destruct S as (E2 & E1 & E0 & S).
  destruct Ra as (na & _ & _ & Pa & Ma).
  destruct Rb as (nb & _ & _ & Pb & Mb).
  destruct Rc as (nc & _ & _ & Pc & Mc).
  set (l2 := layer (entropy w) ek2
               (str "000000" ++ number_to_string (BASE_USER_PORT + d) ++ m)) in *.
  set (l1 := layer (3 + entropy w) ek1
               (str "000000" ++ number_to_string (BASE_ONION_ROUTER_PORT + relay_id rc) ++ l2)) in *.
  set (l0 := layer (6 + entropy w) ek0
               (str "000000" ++ number_to_string (BASE_ONION_ROUTER_PORT + relay_id rb) ++ l1)) in *.
  exists l0, l1, l2. eexists. split; [exact S|]. split; [reflexivity|].
  assert (W2 : Utf8.well_formed l2 = true) by apply well_formed_ascii, layer_ascii.
  assert (W1 : Utf8.well_formed l1 = true) by apply well_formed_ascii, layer_ascii.
  split; [|split; [|split]].
  - intros rw.
    destruct (peel_framed ra _ _ ek0 _ l1 rw Pa Ma E0 W1 Fb) as (rw' & R & O & _). eauto.
  - intros rw.
    destruct (peel_framed rb _ _ ek1 _ l2 rw Pb Mb E1 W2 Fc) as (rw' & R & O & _). eauto.
  - intros rw.
    destruct (destination_slice (BASE_USER_PORT + d) (toWellFormed m) Fd) as (S1 & S2 & S3).
    eexists. split.
    { apply (peel_layer_any rc (entropy w) (2 + entropy w)%nat ek2 _ (BASE_USER_PORT + d));
        try assumption.
      - apply Forall_app. split; [apply sixteen_bit_ascii; repeat constructor|].
        apply Forall_app. split; [|assumption].
        apply sixteen_bit_ascii, number_to_string_ascii.
      - rewrite framed_toWellFormed. exact S3. }
    rewrite framed_toWellFormed.
    unfold forwarded. cbn [outbox]. rewrite S3, S2. cbn [number_ge].
    apply Z.leb_le in Gd. now rewrite Gd.
  - split.
    + intros E. rewrite <- E. now apply well_formed_toWellFormed.
    + apply toWellFormed_id.
Qed.

End AnyString.

(** ** The whole handler, whatever circuit it draws *)
Section WholeSend.
Context {cfg : Config} {wc : WebCrypto} {laws : WebCryptoLaws wc} {mr : MathRandom}.

(** Every record of the registry's list belongs to a running relay
    ([relay_of] tells which relay runs under an identifier), and every
    port has four digits and is not below BASE_USER_PORT.  Then a
    /sendMessage that settles has drawn a circuit of three relays, recorded
    it, and sent the first of them an onion that the three peel in the
    order of the circuit, each with its own private key, until the last one
    posts the plaintext to the port of the destination user. *)
Theorem sendMessage_delivers (relay_of : Z -> Relay) fuel nodes m d
    (w w' : World UserVars) :
  (forall id, In id (map nodeId nodes) ->
     relay_id (relay_of id) = id
     /\ registered nodes (relay_of id)
     /\ forwardable (BASE_ONION_ROUTER_PORT + id)) ->
  Utf8.well_formed m = true ->
  forwardable (BASE_USER_PORT + d) ->
  sendMessage fuel nodes m d w = (Ok tt, w') ->
  exists a b c m0 m1 m2,
    lastCircuit (vars w') = Some [a; b; c]
    /\ lastSentMessage (vars w') = Some m
    /\ outbox w' = outbox w ++ [PostMessage (Some (BASE_ONION_ROUTER_PORT + a)) m0]
    /\ (forall rw, exists rw',
          router_message (prvKeyBase64 (relay_of a)) m0 rw = (Ok tt, rw')
          /\ outbox rw' = outbox rw ++ [PostMessage (Some (BASE_ONION_ROUTER_PORT + b)) m1])
    /\ (forall rw, exists rw',
          router_message (prvKeyBase64 (relay_of b)) m1 rw = (Ok tt, rw')
          /\ outbox rw' = outbox rw ++ [PostMessage (Some (BASE_ONION_ROUTER_PORT + c)) m2])
    /\ (forall rw, exists rw',
          router_message (prvKeyBase64 (relay_of c)) m2 rw = (Ok tt, rw')
          /\ outbox rw' = outbox rw ++ [PostMessage (Some (BASE_USER_PORT + d)) m]).
Proof.
  intros Net W Fd R. unfold sendMessage in R.
  destruct (buildCircuit fuel nodes [] w) as [[circuit | e |] w1] eqn:B;
    [| rewrite (bind_throw _ _ _ _ _ B) in R; discriminate
     | unfold bind in R; rewrite B in R; discriminate].
  rewrite (bind_ok _ _ _ _ _ B) in R.
  destruct (buildCircuit_safe fuel nodes [] w w1 circuit (NoDup_nil _)
              ltac:(intros x []) ltac:(cbn; lia) B) as (L & _ & I & O1 & V1).
  destruct circuit as [| a [| b [| c [| x l]]]]; try discriminate.
  destruct (Net a (I a ltac:(cbn; auto))) as (Ia & Ra & _).
  destruct (Net b (I b ltac:(cbn; auto))) as (Ib & Rb & Fb).
  destruct (Net c (I c ltac:(cbn; auto))) as (Ic & Rc & Fc).
  destruct (sendThrough_run (relay_of a) (relay_of b) (relay_of c) nodes m d w1 Ra Rb Rc)
    as (ek2 & ek1 & ek0 & S).
  cbv zeta in S. rewrite Ia, Ib, Ic in S. destruct S as (E2 & E1 & E0 & S).
  rewrite S in R. injection R as <-.
  destruct Ra as (na & _ & _ & Pa & Ma).
  destruct Rb as (nb & _ & _ & Pb & Mb).
  destruct Rc as (nc & _ & _ & Pc & Mc).
  set (l2 := layer (entropy w1) ek2
               (str "000000" ++ number_to_string (BASE_USER_PORT + d) ++ m)) in *.
  set (l1 := layer (3 + entropy w1) ek1
               (str "000000" ++ number_to_string (BASE_ONION_ROUTER_PORT + c) ++ l2)) in *.
  set (l0 := layer (6 + entropy w1) ek0
               (str "000000" ++ number_to_string (BASE_ONION_ROUTER_PORT + b) ++ l1)) in *.
  exists a, b, c, l0, l1, l2. cbn [vars outbox]. rewrite O1.
  split; [reflexivity|]. split; [reflexivity|]. split; [reflexivity|].
  assert (W2 : Utf8.well_formed l2 = true) by apply well_formed_ascii, layer_ascii.
  assert (W1 : Utf8.well_formed l1 = true) by apply well_formed_ascii, layer_ascii.
  repeat split; intros rw.
  - destruct (peel_framed (relay_of a) _ _ ek0 _ l1 rw Pa Ma E0 W1 Fb) as (rw' & R & O & _).
    eauto.
  - destruct (peel_framed (relay_of b) _ _ ek1 _ l2 rw Pb Mb E1 W2 Fc) as (rw' & R & O & _).
    eauto.
  - destruct (peel_framed (relay_of c) _ _ ek2 _ m rw Pc Mc E2 W Fd) as (rw' & R & O & _).
    eauto.
Qed.

End WholeSend.

(** * More statements on the mock platform *)
Section MoreOnTheMock.
Import Mock.

Lemma low_port_keeps_field_witness :
  exists rw',
    router_message (prvKeyBase64 relayC)
      (layer 0 wrapped_for_C (str "000000" ++ number_to_string 2999 ++ str "hello"))
      router_world = (Ok tt, rw')
    /\ outbox rw' = outbox router_world
         ++ [PostMessage (Some 2999) (str "000000" ++ number_to_string 2999 ++ str "hello")].
Proof.
  apply (low_port_keeps_field (laws := mock_crypto_laws) relayC 0 2).
  - reflexivity.
  - reflexivity.
  - vm_compute. reflexivity.
  - reflexivity.
  - unfold four_digits. lia.
  - cbn. lia.
Defined.

Lemma relays_and_user_observe_witness :
  exists m0 m1 m2 w',
    sendThrough nodes [relay_id relayA; relay_id relayB; relay_id relayC]
      (str "hello") 1 user_world = (Ok tt, w')
    /\ outbox w' = outbox user_world
         ++ [PostMessage (Some (BASE_ONION_ROUTER_PORT + relay_id relayA)) m0]
    /\ (forall rw, exists rw',
          router_message (prvKeyBase64 relayA) m0 rw = (Ok tt, rw')
          /\ getLastReceivedEncryptedMessage rw' = (Ok (Some m0), rw')
          /\ getLastReceivedDecryptedMessage rw'
             = (Ok (Some (str "000000"
                          ++ number_to_string (BASE_ONION_ROUTER_PORT + relay_id relayB)
                          ++ m1)),
                rw')
          /\ getLastMessageDestination rw'
             = (Ok (Some (Some (BASE_ONION_ROUTER_PORT + relay_id relayB))), rw'))
    /\ (forall rw, exists rw',
          router_message (prvKeyBase64 relayB) m1 rw = (Ok tt, rw')
          /\ getLastReceivedEncryptedMessage rw' = (Ok (Some m1), rw')
          /\ getLastReceivedDecryptedMessage rw'
             = (Ok (Some (str "000000"
                          ++ number_to_string (BASE_ONION_ROUTER_PORT + relay_id relayC)
                          ++ m2)),
                rw')
          /\ getLastMessageDestination rw'
             = (Ok (Some (Some (BASE_ONION_ROUTER_PORT + relay_id relayC))), rw'))
    /\ (forall rw, exists rw',
          router_message (prvKeyBase64 relayC) m2 rw = (Ok tt, rw')
          /\ getLastReceivedEncryptedMessage rw' = (Ok (Some m2), rw')
          /\ getLastReceivedDecryptedMessage rw'
             = (Ok (Some (str "000000" ++ number_to_string (BASE_USER_PORT + 1)
                          ++ str "hello")), rw')
          /\ getLastMessageDestination rw' = (Ok (Some (Some (BASE_USER_PORT + 1))), rw')
          /\ outbox rw' = outbox rw ++ [PostMessage (Some (BASE_USER_PORT + 1)) (str "hello")])
    /\ (forall uw, exists uw',
          user_message (str "hello") uw = (Ok tt, uw')
          /\ getLastReceivedMessage uw' = (Ok (Some (str "hello")), uw')
          /\ outbox uw' = outbox uw
          /\ lastSentMessage (vars uw') = lastSentMessage (vars uw)
          /\ lastCircuit (vars uw') = lastCircuit (vars uw))
    /\ getLastSentMessage w' = (Ok (Some (str "hello")), w')
    /\ getLastCircuit w'
       = (Ok (Some [relay_id relayA; relay_id relayB; relay_id relayC]), w').
Proof.
  apply (relays_and_user_observe (laws := mock_crypto_laws)).
  - exact mock_registered_A.
  - exact mock_registered_B.
  - exact mock_registered_C.
  - reflexivity.
  - unfold forwardable, four_digits. cbn. lia.
  - unfold forwardable, four_digits. cbn. lia.
  - unfold forwardable, four_digits. cbn. lia.
Defined.

Lemma rsaDecrypt_rsaEncrypt_witness :
  exists encrypted w',
    rsaEncrypt (str "aGVsbG8=") (pubKey (node_of relayA)) user_world = (Ok encrypted, w')
    /\ rsaDecrypt encrypted (relay_prv relayA)
       = Ok (arrayBufferToBase64 (base64ToArrayBuffer (str "aGVsbG8=")))
    /\ (forall buffer, str "aGVsbG8=" = arrayBufferToBase64 buffer ->
        rsaDecrypt encrypted (relay_prv relayA) = Ok (str "aGVsbG8=")).
Proof.
  apply (rsaDecrypt_rsaEncrypt (laws := mock_crypto_laws) (str "aGVsbG8=")
           (pubKey (node_of relayA)) (relay_pub relayA) (relay_prv relayA) user_world).
  - reflexivity.
  - reflexivity.
  - vm_compute. lia.
Defined.

Lemma validateEncryption_accepts_witness :
  exists encrypted w' prv,
    rsaEncrypt (arrayBufferToBase64 (random_bytes 0 32)) (exportPubKey (relay_pub relayA))
      user_world = (Ok encrypted, w')
    /\ exportPrvKey (Some (relay_prv relayA)) = Some prv
    /\ validateEncryption encrypted (arrayBufferToBase64 (random_bytes 0 32)) prv user_world
       = (Ok true, user_world)
    /\ (forall expected,
        validateEncryption encrypted expected prv user_world
        = (Ok (jsstring_eqb (arrayBufferToBase64 (random_bytes 0 32)) expected),
           user_world)).
Proof.
  apply (validateEncryption_accepts (laws := mock_crypto_laws) (random_bytes 0 32)
           (relay_pub relayA) (relay_prv relayA) user_world user_world).
  - reflexivity.
  - vm_compute. lia.
Defined.

Lemma symKey_export_import_witness :
  exists key w',
    createRandomSymmetricKey user_world = (Ok key, w')
    /\ length key = 32%nat
    /\ length (exportSymKey key) = 44%nat
    /\ importSymKey (exportSymKey key) = Ok key.
Proof. exact (symKey_export_import (laws := mock_crypto_laws) user_world). Defined.

Lemma first_router_starts_witness :
  exists prv pub pk sk w',
    OnionRouters.simpleOnionRouter 3 router_world = (Ok (Some prv), w')
    /\ outbox w' = outbox router_world ++ [PostRegisterNode 3 pub]
    /\ vars w' = router_vars_null
    /\ importPubKey pub = Ok pk
    /\ importPrvKey prv = Ok sk
    /\ rsa_pair pk sk
    /\ modulus_bytes pk = 256%nat.
Proof. exact (first_router_starts (laws := mock_crypto_laws) 3 router_world). Defined.

Lemma reregistration_is_shadowed_witness :
  (forall id, In id [0; 1; 2] ->
     find_node (Registry.registerNode {| nodeId := 0; pubKey := str "AA==" |} nodes) id
     = find_node nodes id)
  /\ sendThrough (Registry.registerNode {| nodeId := 0; pubKey := str "AA==" |} nodes)
       [0; 1; 2] (str "hello") 1 user_world
     = sendThrough nodes [0; 1; 2] (str "hello") 1 user_world.
Proof.
  apply (reregistration_is_shadowed {| nodeId := 0; pubKey := str "AA==" |} nodes
           [0; 1; 2] (str "hello") 1 user_world).
  intros id [<- | [<- | [<- | []]]]; discriminate.
Defined.

Lemma sendThrough_bad_key_witness :
  exists e w',
    sendThrough (nodes ++ [ {| nodeId := 5; pubKey := str "not a key" |} ])
      [0; 5; 2] (str "hello") 1 user_world = (Throw e, w')
    /\ (e = DataError \/ e = OperationError)
    /\ outbox w' = outbox user_world
    /\ lastSentMessage (vars w') = lastSentMessage (vars user_world).
Proof.
  apply (sendThrough_bad_key (nodes ++ [ {| nodeId := 5; pubKey := str "not a key" |} ])
           [0; 5; 2] (str "hello") 1 user_world).
  - intros id [<- | [<- | [<- | []]]]; discriminate.
  - exists 5, {| nodeId := 5; pubKey := str "not a key" |}.
    split; [cbn; auto|]. split; reflexivity.
Defined.

Lemma network_delivers_witness :
  exists m0 m1 m2 w',
    sendThrough
      (Registry.getNodeRegistry
         (registrations
            [ {| nodeId := 0; pubKey := exportPubKey (relay_pub relayA) |};
              {| nodeId := 1; pubKey := exportPubKey (relay_pub relayB) |};
              {| nodeId := 2; pubKey := exportPubKey (relay_pub relayC) |} ]
            Registry.launch))
      [0; 1; 2] (str "hello") 1 user_world = (Ok tt, w')
    /\ outbox w' = outbox user_world ++ [PostMessage (Some (BASE_ONION_ROUTER_PORT + 0)) m0]
    /\ (forall rw, exists rw',
          router_message (prvKeyBase64 relayA) m0 rw = (Ok tt, rw')
          /\ outbox rw' = outbox rw ++ [PostMessage (Some (BASE_ONION_ROUTER_PORT + 1)) m1])
    /\ (forall rw, exists rw',
          router_message (prvKeyBase64 relayB) m1 rw = (Ok tt, rw')
          /\ outbox rw' = outbox rw ++ [PostMessage (Some (BASE_ONION_ROUTER_PORT + 2)) m2])
    /\ (forall rw, exists rw',
          router_message (prvKeyBase64 relayC) m2 rw = (Ok tt, rw')
          /\ outbox rw' = outbox rw ++ [PostMessage (Some (BASE_USER_PORT + 1)) (str "hello")]).
Proof.
  refine (network_delivers (laws := mock_crypto_laws) 0 1 2
            (Build_World 7 [] router_vars_null)
            (snd (simpleOnionRouter 0 (Build_World 7 [] router_vars_null)))
            (Build_World 8 [] router_vars_null)
            (snd (simpleOnionRouter 1 (Build_World 8 [] router_vars_null)))
            (Build_World 9 [] router_vars_null)
            (snd (simpleOnionRouter 2 (Build_World 9 [] router_vars_null)))
            (prvKeyBase64 relayA) (prvKeyBase64 relayB) (prvKeyBase64 relayC)
            (exportPubKey (relay_pub relayA)) (exportPubKey (relay_pub relayB))
            (exportPubKey (relay_pub relayC))
            (str "hello") 1 user_world
            _ _ _ _ _ _ _ _ _ _ _ _ _).
  - reflexivity.
  - reflexivity.
  - reflexivity.
  - reflexivity.
  - reflexivity.
  - reflexivity.
  - discriminate.
  - discriminate.
  - discriminate.
  - reflexivity.
  - unfold forwardable, four_digits. cbn. lia.
  - unfold forwardable, four_digits. cbn. lia.
  - unfold forwardable, four_digits. cbn. lia.
Defined.

Lemma symDecrypt_symEncrypt_any_witness :
  exists c w',
    symEncrypt (random_bytes 0 32) [0x68%N; 0xD800%N; 0x69%N] user_world = (Ok c, w')
    /\ symDecrypt (exportSymKey (random_bytes 0 32)) c
       = Ok (drop_bom (toWellFormed [0x68%N; 0xD800%N; 0x69%N]))
    /\ (symDecrypt (exportSymKey (random_bytes 0 32)) c = Ok [0x68%N; 0xD800%N; 0x69%N]
        <-> Utf8.well_formed [0x68%N; 0xD800%N; 0x69%N] = true
            /\ hd_error [0x68%N; 0xD800%N; 0x69%N] <> Some 0xFEFF%N).
Proof.
  apply (symDecrypt_symEncrypt_any (laws := mock_crypto_laws)
           (random_bytes 0 32) [0x68%N; 0xD800%N; 0x69%N] user_world).
  - reflexivity.
  - repeat constructor.
Defined.

Lemma onion_delivers_toWellFormed_witness :
  exists m0 m1 m2 w',
    sendThrough nodes [relay_id relayA; relay_id relayB; relay_id relayC]
      [0xFEFF%N; 0xD800%N; 0x69%N] 1 user_world = (Ok tt, w')
    /\ outbox w' = outbox user_world
         ++ [PostMessage (Some (BASE_ONION_ROUTER_PORT + relay_id relayA)) m0]
    /\ (forall rw, exists rw',
          router_message (prvKeyBase64 relayA) m0 rw = (Ok tt, rw')
          /\ outbox rw' = outbox rw
               ++ [PostMessage (Some (BASE_ONION_ROUTER_PORT + relay_id relayB)) m1])
    /\ (forall rw, exists rw',
          router_message (prvKeyBase64 relayB) m1 rw = (Ok tt, rw')
          /\ outbox rw' = outbox rw
               ++ [PostMessage (Some (BASE_ONION_ROUTER_PORT + relay_id relayC)) m2])
    /\ (forall rw, exists rw',
          router_message (prvKeyBase64 relayC) m2 rw = (Ok tt, rw')
          /\ outbox rw' = outbox rw
               ++ [PostMessage (Some (BASE_USER_PORT + 1))
                     (toWellFormed [0xFEFF%N; 0xD800%N; 0x69%N])])
    /\ (toWellFormed [0xFEFF%N; 0xD800%N; 0x69%N] = [0xFEFF%N; 0xD800%N; 0x69%N]
        <-> Utf8.well_formed [0xFEFF%N; 0xD800%N; 0x69%N] = true).
Proof.
  apply (onion_delivers_toWellFormed (laws := mock_crypto_laws)).
  - exact mock_registered_A.
  - exact mock_registered_B.
  - exact mock_registered_C.
  - repeat constructor.
  - unfold forwardable, four_digits. cbn. lia.
  - unfold forwardable, four_digits. cbn. lia.
  - unfold forwardable, four_digits. cbn. lia.
Defined.

Lemma sendMessage_delivers_witness :
  exists a b c m0 m1 m2,
    lastCircuit (vars (snd (sendMessage 3 nodes (str "hello") 1 user_world)))
    = Some [a; b; c]
    /\ lastSentMessage (vars (snd (sendMessage 3 nodes (str "hello") 1 user_world)))
       = Some (str "hello")
    /\ outbox (snd (sendMessage 3 nodes (str "hello") 1 user_world))
       = outbox user_world ++ [PostMessage (Some (BASE_ONION_ROUTER_PORT + a)) m0]
    /\ (forall rw, exists rw',
          router_message
            (prvKeyBase64
               ((fun id => if id =? 0 then relayA else if id =? 1 then relayB else relayC) a))
            m0 rw = (Ok tt, rw')
          /\ outbox rw' = outbox rw ++ [PostMessage (Some (BASE_ONION_ROUTER_PORT + b)) m1])
    /\ (forall rw, exists rw',
          router_message
            (prvKeyBase64
               ((fun id => if id =? 0 then relayA else if id =? 1 then relayB else relayC) b))
            m1 rw = (Ok tt, rw')
          /\ outbox rw' = outbox rw ++ [PostMessage (Some (BASE_ONION_ROUTER_PORT + c)) m2])
    /\ (forall rw, exists rw',
          router_message
            (prvKeyBase64
               ((fun id => if id =? 0 then relayA else if id =? 1 then relayB else relayC) c))
            m2 rw = (Ok tt, rw')
          /\ outbox rw' = outbox rw ++ [PostMessage (Some (BASE_USER_PORT + 1)) (str "hello")]).
Proof.
  refine (sendMessage_delivers (laws := mock_crypto_laws)
            (fun id => if id =? 0 then relayA else if id =? 1 then relayB else relayC)
            3 nodes (str "hello") 1 user_world
            (snd (sendMessage 3 nodes (str "hello") 1 user_world)) _ _ _ _).
  - intros id [<- | [<- | [<- | []]]].
    + split; [reflexivity|]. split; [exact mock_registered_A|].
      unfold forwardable, four_digits. cbn. lia.
    + split; [reflexivity|]. split; [exact mock_registered_B|].
      unfold forwardable, four_digits. cbn. lia.
    + split; [reflexivity|]. split; [exact mock_registered_C|].
      unfold forwardable, four_digits. cbn. lia.
  - reflexivity.
  - unfold forwardable, four_digits. cbn. lia.
  - vm_compute. reflexivity.
Defined.

End MoreOnTheMock.
